(** * Settings-page Anki controller (ext/js/pages/settings/anki-controller.js)

    A shallow embedding of the two classes of the file, [AnkiController]
    (the list of card formats, its tab strip and the selected tab) and
    [AnkiCardController] (the field rows of one card format), together with
    the properties of the card-format configuration model.

    Conventions.
    - A JavaScript string is a [string]: a sequence of code units below 256.
    - An array index or a length is a [Z]; [arr[i]] is [Js.item].
    - An [async] method is first given as a whole, run to its end with
      nothing else in between: that is what one call alone does.  The modules
      [AnkiControllerAsync] and [AnkiCardControllerAsync] then give the same
      methods [await] by [await], as calls in flight that the events of the
      page, the answers of the settings backend and the continuations of
      other calls may come between.
    - A method of a class is a function of the object's state that returns the
      new state, either normally or with the exception it raised. *)

From Stdlib Require Import ZArith List String Ascii Bool Lia FinFun.
From Stdlib Require Import DecimalString DecimalN DecimalZ.
Import ListNotations.
Local Open Scope Z_scope.
Local Open Scope list_scope.

(** ** JavaScript primitives *)
Module Js.

(** The template literal [`${n}`] of an integer. *)
Definition decimal (n : Z) : string := NilEmpty.string_of_int (Z.to_int n).

(** [arr[i]]: [undefined] (here [None]) outside the array. *)
Definition item {A : Type} (arr : list A) (i : Z) : option A :=
  if i <? 0 then None else nth_error arr (Z.to_nat i).

Definition length {A : Type} (arr : list A) : Z := Z.of_nat (List.length arr).

(** [Array.prototype.splice(start, deleteCount, ...items)], the array after
    the call: [start] counts from the end when negative and is clamped to
    the array, [deleteCount] is clamped to what is left. *)
Definition splice {A : Type} (arr : list A) (start deleteCount : Z) (items : list A) : list A :=
  let len := length arr in
  let actualStart := if start <? 0 then Z.max (len + start) 0 else Z.min start len in
  let actualDeleteCount := Z.min (Z.max deleteCount 0) (len - actualStart) in
  firstn (Z.to_nat actualStart) arr ++ items
    ++ skipn (Z.to_nat (actualStart + actualDeleteCount)) arr.

(** What a [throw] carries. *)
Inductive Exception : Type :=
| Error (message : string)          (* new Error(message) *)
| TypeError                         (* property access on null or undefined *)
| NodeNotFound (selector : string). (* querySelectorNotNull found nothing *)


(** *** Strings *)

(** White space and line terminators among the code units below 256: tab,
    line feed, vertical tab, form feed, carriage return, space, no-break
    space. *)
Definition is_white_space (c : ascii) : bool :=
  let n := N_of_ascii c in
  ((9 <=? n) && (n <=? 13) || (n =? 32) || (n =? 160))%N.

Fixpoint trimStart (s : string) : string :=
  match s with
  | EmptyString => EmptyString
  | String c s' => if is_white_space c then trimStart s' else s
  end.

Fixpoint trimEnd (s : string) : string :=
  match s with
  | EmptyString => EmptyString
  | String c s' =>
      match trimEnd s' with
      | EmptyString => if is_white_space c then EmptyString else String c EmptyString
      | t => String c t
      end
  end.

(** [String.prototype.trim()]. *)
Definition trim (s : string) : string := trimEnd (trimStart s).

(** [str.endsWith] one of the characters [cs]: the test of [/[cs]$/]. *)
Fixpoint ends_with_one_of (cs : list ascii) (s : string) : bool :=
  match s with
  | EmptyString => false
  | String c EmptyString => existsb (Ascii.eqb c) cs
  | String _ s' => ends_with_one_of cs s'
  end.

(** *** Ordinary objects used as maps

    An object is the list of its own enumerable string-keyed properties in
    the order of [[OwnPropertyKeys]], which is the order of [Object.entries],
    of [for ... in] and of the spread syntax: first the keys that are array
    indices, by ascending value, then the other keys, by time of creation. *)
Definition Object (V : Type) : Type := list (string * V).

(** The value of a key that is an array index: a canonical decimal numeral
    (["0"], or digits without a leading zero) below [2^32 - 1]. *)
Definition array_index (k : string) : option N :=
  match NilEmpty.uint_of_string k with
  | None => None
  | Some d =>
      let n := N.of_uint d in
      if String.eqb (NilEmpty.string_of_uint (N.to_uint n)) k && (n <? 4294967295)%N
      then Some n
      else None
  end.

Definition keys {V : Type} (o : Object V) : list string := List.map fst o.

(** [Object.prototype.hasOwnProperty.call(o, k)]. *)
Definition hasOwnProperty {V : Type} (o : Object V) (k : string) : bool :=
  existsb (String.eqb k) (keys o).

(** [o[k]] for an own property; [None] stands for [undefined]. *)
Fixpoint get {V : Type} (o : Object V) (k : string) : option V :=
  match o with
  | [] => None
  | (k', v) :: o' => if String.eqb k' k then Some v else get o' k
  end.

(** Writing an existing property keeps its place. *)
Fixpoint overwrite {V : Type} (o : Object V) (k : string) (v : V) : Object V :=
  match o with
  | [] => []
  | (k', v') :: o' =>
      if String.eqb k' k then (k, v) :: o' else (k', v') :: overwrite o' k v
  end.

(** A new array-index key goes before the first key that is a larger index
    or is no index at all. *)
Fixpoint insert_index {V : Type} (o : Object V) (n : N) (k : string) (v : V) : Object V :=
  match o with
  | [] => [(k, v)]
  | (k', v') :: o' =>
      match array_index k' with
      | Some n' =>
          if (n' <? n)%N then (k', v') :: insert_index o' n k v else (k, v) :: o
      | None => (k, v) :: o
      end
  end.

(** [CreateDataProperty(o, k, v)]: what [o[k] = v], a computed key of an
    object literal and each copy of the spread syntax do. *)
Definition define {V : Type} (o : Object V) (k : string) (v : V) : Object V :=
  if hasOwnProperty o k then overwrite o k v
  else
    match array_index k with
    | Some n => insert_index o n k v
    | None => o ++ [(k, v)]
    end.

(** [{...target, ...source}]: the properties of [source] are copied onto
    [target] one by one, in the order of [source]. *)
Definition spread {V : Type} (target source : Object V) : Object V :=
  fold_left (fun acc kv => define acc (fst kv) (snd kv)) source target.

(** [const {[excluded]: removed, ...rest} = source]: the object [rest]. *)
Definition rest {V : Type} (source : Object V) (excluded : string) : Object V :=
  spread [] (filter (fun kv => negb (String.eqb (fst kv) excluded)) source).

(** The keys are pairwise distinct. *)
Fixpoint distinct (ks : list string) : bool :=
  match ks with
  | [] => true
  | k :: ks' => negb (existsb (String.eqb k) ks') && distinct ks'
  end.

(** [k] may come before [k'] in the order of own keys. *)
Definition may_precede (k k' : string) : bool :=
  match array_index k, array_index k' with
  | Some n, Some n' => (n <? n')%N
  | Some _, None => true
  | None, Some _ => false
  | None, None => true
  end.

(** Array indices first and ascending, the other keys after them. *)
Fixpoint indices_first (ks : list string) : bool :=
  match ks with
  | [] => true
  | k :: ks' => forallb (may_precede k) ks' && indices_first ks'
  end.

(** A list of properties that is the property list of some object. *)
Definition well_formed {V : Type} (o : Object V) : Prop :=
  distinct (keys o) && indices_first (keys o) = true.

(** *** Map *)

(** A [Map] as the list of its entries in insertion order. *)
Definition Map (K V : Type) : Type := list (K * V).

(** [map.set(k, v)] on string keys: a key already there keeps its place and
    takes the new value. *)
Fixpoint Map_set {V : Type} (m : Map string V) (k : string) (v : V) : Map string V :=
  match m with
  | [] => [(k, v)]
  | (k', v') :: m' =>
      if String.eqb k' k then (k', v) :: m' else (k', v') :: Map_set m' k v
  end.

(** [new Map(entries)]. *)
Definition Map_new {V : Type} (entries : list (string * V)) : Map string V :=
  fold_left (fun m kv => Map_set m (fst kv) (snd kv)) entries [].

(** [map.get(k)]; [None] stands for [undefined]. *)
Fixpoint Map_get {V : Type} (m : Map string V) (k : string) : option V :=
  match m with
  | [] => None
  | (k', v) :: m' => if String.eqb k' k then Some v else Map_get m' k
  end.

(** *** Regular expressions

    The patterns the controller builds use literal characters, one character
    class, the star, concatenation and alternation, between [^(?:] and [)$],
    with the flag [i] and without the flags [g], [m] and [u].  On such a
    pattern [test] answers whether the whole string belongs to the language
    of the pattern. *)
Inductive RegExp : Type :=
| Never                          (* the empty alternation *)
| Eps                            (* the empty pattern *)
| Char (c : ascii)               (* a pattern character *)
| Class (cs : list ascii)        (* [cs] *)
| Seq (r1 r2 : RegExp)           (* r1r2 *)
| Alt (r1 r2 : RegExp)           (* r1|r2 *)
| Star (r : RegExp).             (* r* *)

(** The case folding of the flag [i] without the flag [u]: the upper case of
    a code unit when that is one code unit, and is not an ASCII one for a
    non-ASCII input.  Below 256 that is a-z and the accented letters E0-FE
    except the division sign; FF and B5 have upper cases above 255 that no
    other code unit below 256 shares, and DF has a two-letter one. *)
Definition canonicalize (c : ascii) : ascii :=
  let n := N_of_ascii c in
  if ((97 <=? n) && (n <=? 122) || (224 <=? n) && (n <=? 254) && negb (n =? 247))%N
  then ascii_of_N (n - 32)
  else c.

(** The input character [a] is accepted by the pattern character [c]. *)
Definition accepts (c a : ascii) : bool :=
  Ascii.eqb (canonicalize c) (canonicalize a).

Fixpoint nullable (r : RegExp) : bool :=
  match r with
  | Never => false
  | Eps => true
  | Char _ => false
  | Class _ => false
  | Seq r1 r2 => nullable r1 && nullable r2
  | Alt r1 r2 => nullable r1 || nullable r2
  | Star _ => true
  end.

(** What is left of the pattern after reading [a]. *)
Fixpoint after (a : ascii) (r : RegExp) : RegExp :=
  match r with
  | Never => Never
  | Eps => Never
  | Char c => if accepts c a then Eps else Never
  | Class cs => if existsb (fun c => accepts c a) cs then Eps else Never
  | Seq r1 r2 =>
      if nullable r1 then Alt (Seq (after a r1) r2) (after a r2)
      else Seq (after a r1) r2
  | Alt r1 r2 => Alt (after a r1) (after a r2)
  | Star r1 => Seq (after a r1) (Star r1)
  end.

(** [new RegExp('^(?:' + r + ')$', 'i').test(s)]. *)
Fixpoint test (r : RegExp) (s : string) : bool :=
  match s with
  | EmptyString => nullable r
  | String a s' => test (after a r) s'
  end.

(** The characters with a meaning of their own in a pattern. *)
Definition is_syntax_character (c : ascii) : bool :=
  existsb (Ascii.eqb c)
    ["^"; "$"; "\"; "."; "*"; "+"; "?"; "("; ")"; "["; "]"; "{"; "}"; "|"]%char.

(** The language of a pattern under the flag [i]. *)
Inductive matches : RegExp -> string -> Prop :=
| matches_Eps : matches Eps EmptyString
| matches_Char c a : accepts c a = true -> matches (Char c) (String a EmptyString)
| matches_Class cs c a :
    In c cs -> accepts c a = true -> matches (Class cs) (String a EmptyString)
| matches_Seq r1 r2 s1 s2 :
    matches r1 s1 -> matches r2 s2 -> matches (Seq r1 r2) (s1 ++ s2)%string
| matches_Alt_l r1 r2 s : matches r1 s -> matches (Alt r1 r2) s
| matches_Alt_r r1 r2 s : matches r2 s -> matches (Alt r1 r2) s
| matches_Star_nil r : matches (Star r) EmptyString
| matches_Star_cons r s1 s2 :
    matches r s1 -> matches (Star r) s2 -> matches (Star r) (s1 ++ s2)%string.

End Js.

(** ** Settings data (types/ext/settings.d.ts, as the controller uses it) *)
Module Settings.

Inductive DictionaryEntryType : Type := term | kanji.

Definition type_name (t : DictionaryEntryType) : string :=
  match t with term => "term" | kanji => "kanji" end.

(** One field of a card format: its template and its overwrite policy. *)
Record AnkiField : Type := { value : string; overwriteMode : string }.

(** A JavaScript object used as a map from field names to fields. *)
Definition AnkiFields : Type := Js.Object AnkiField.

Record AnkiCardFormat : Type := {
  name : string;
  type : DictionaryEntryType;
  deck : string;
  model : string;
  fields : AnkiFields;
  icon : string
}.

(** A component of a property path such as [anki.cardFormats[2].name]. *)
Inductive PathPart : Type := Key (k : string) | Index (i : Z).

(** The argument of [ObjectPropertyAccessor.getPathString]; the string it
    renders is a one-to-one name of the path and is not needed here. *)
Definition Path : Type := list PathPart.

End Settings.

(** ** The format-list controller: class [AnkiController] *)
Module AnkiController.
Import Settings.

(** *** The page elements the controller holds *)

(** An input or select element: [dataset.setting] and [dataset.icon]. *)
Record Element : Type := {
  dataset_setting : option Path;
  dataset_icon : option string
}.

(** [#anki-card-primary]: its dataset and the controls inside it, each
    under the selector that [querySelector] finds it by, in document order. *)
Record Panel : Type := {
  dataset_cardFormatIndex : option Z;
  dataset_ankiCardMenu : option string;
  controls : list (string * Element)
}.

(** One tab of [#anki-cards-tabs], as [_createCardFormatTab] fills it. *)
Record Tab : Type := {
  tab_value : string;
  tab_ankiCardMenu : string;
  tab_cardFormatIndex : Z;
  tab_label : string;
  tab_checked : bool
}.

(** A modal dialog: shown or hidden, and [node.dataset.cardFormatIndex].
    The dataset holds the decimal rendering of the index, which
    [Number.parseInt(_, 10)] reads back as the same integer; the integer is
    kept. *)
Record Modal : Type := {
  visible : bool;
  node_cardFormatIndex : option Z
}.

(** *** The state of the controller

    [settings_cardFormats] is [options.anki.cardFormats] inside the settings
    store, which [getOptions] reads and [modifyProfileSettings] writes;
    [_ankiOptions] is the copy of the options the controller took at its last
    reload, of which the card formats are kept here ([None]: no copy yet). *)
Record Controller : Type := {
  settings_cardFormats : list AnkiCardFormat;
  _ankiOptions : option (list AnkiCardFormat);
  _cardFormatIndex : Z;
  _ankiCardPrimary : option Panel;
  _ankiCardsTabs : list Tab;
  _ankiCardNameInput : Element;
  _cardFormatDeleteButton_disabled : bool;
  _cardFormatRemoveModal : option Modal;
  _cardFormatMaximumModal : option Modal;
  _cardFormatRemoveName : string
}.

Definition with_settings_cardFormats (v : list AnkiCardFormat) (c : Controller) : Controller :=
  {| settings_cardFormats := v; _ankiOptions := _ankiOptions c;
     _cardFormatIndex := _cardFormatIndex c; _ankiCardPrimary := _ankiCardPrimary c;
     _ankiCardsTabs := _ankiCardsTabs c; _ankiCardNameInput := _ankiCardNameInput c;
     _cardFormatDeleteButton_disabled := _cardFormatDeleteButton_disabled c;
     _cardFormatRemoveModal := _cardFormatRemoveModal c;
     _cardFormatMaximumModal := _cardFormatMaximumModal c;
     _cardFormatRemoveName := _cardFormatRemoveName c |}.

Definition with_ankiOptions (v : option (list AnkiCardFormat)) (c : Controller) : Controller :=
  {| settings_cardFormats := settings_cardFormats c; _ankiOptions := v;
     _cardFormatIndex := _cardFormatIndex c; _ankiCardPrimary := _ankiCardPrimary c;
     _ankiCardsTabs := _ankiCardsTabs c; _ankiCardNameInput := _ankiCardNameInput c;
     _cardFormatDeleteButton_disabled := _cardFormatDeleteButton_disabled c;
     _cardFormatRemoveModal := _cardFormatRemoveModal c;
     _cardFormatMaximumModal := _cardFormatMaximumModal c;
     _cardFormatRemoveName := _cardFormatRemoveName c |}.

Definition with_cardFormatIndex (v : Z) (c : Controller) : Controller :=
  {| settings_cardFormats := settings_cardFormats c; _ankiOptions := _ankiOptions c;
     _cardFormatIndex := v; _ankiCardPrimary := _ankiCardPrimary c;
     _ankiCardsTabs := _ankiCardsTabs c; _ankiCardNameInput := _ankiCardNameInput c;
     _cardFormatDeleteButton_disabled := _cardFormatDeleteButton_disabled c;
     _cardFormatRemoveModal := _cardFormatRemoveModal c;
     _cardFormatMaximumModal := _cardFormatMaximumModal c;
     _cardFormatRemoveName := _cardFormatRemoveName c |}.

Definition with_ankiCardPrimary (v : option Panel) (c : Controller) : Controller :=
  {| settings_cardFormats := settings_cardFormats c; _ankiOptions := _ankiOptions c;
     _cardFormatIndex := _cardFormatIndex c; _ankiCardPrimary := v;
     _ankiCardsTabs := _ankiCardsTabs c; _ankiCardNameInput := _ankiCardNameInput c;
     _cardFormatDeleteButton_disabled := _cardFormatDeleteButton_disabled c;
     _cardFormatRemoveModal := _cardFormatRemoveModal c;
     _cardFormatMaximumModal := _cardFormatMaximumModal c;
     _cardFormatRemoveName := _cardFormatRemoveName c |}.

Definition with_ankiCardsTabs (v : list Tab) (c : Controller) : Controller :=
  {| settings_cardFormats := settings_cardFormats c; _ankiOptions := _ankiOptions c;
     _cardFormatIndex := _cardFormatIndex c; _ankiCardPrimary := _ankiCardPrimary c;
     _ankiCardsTabs := v; _ankiCardNameInput := _ankiCardNameInput c;
     _cardFormatDeleteButton_disabled := _cardFormatDeleteButton_disabled c;
     _cardFormatRemoveModal := _cardFormatRemoveModal c;
     _cardFormatMaximumModal := _cardFormatMaximumModal c;
     _cardFormatRemoveName := _cardFormatRemoveName c |}.

Definition with_ankiCardNameInput (v : Element) (c : Controller) : Controller :=
  {| settings_cardFormats := settings_cardFormats c; _ankiOptions := _ankiOptions c;
     _cardFormatIndex := _cardFormatIndex c; _ankiCardPrimary := _ankiCardPrimary c;
     _ankiCardsTabs := _ankiCardsTabs c; _ankiCardNameInput := v;
     _cardFormatDeleteButton_disabled := _cardFormatDeleteButton_disabled c;
     _cardFormatRemoveModal := _cardFormatRemoveModal c;
     _cardFormatMaximumModal := _cardFormatMaximumModal c;
     _cardFormatRemoveName := _cardFormatRemoveName c |}.

Definition with_cardFormatDeleteButton_disabled (v : bool) (c : Controller) : Controller :=
  {| settings_cardFormats := settings_cardFormats c; _ankiOptions := _ankiOptions c;
     _cardFormatIndex := _cardFormatIndex c; _ankiCardPrimary := _ankiCardPrimary c;
     _ankiCardsTabs := _ankiCardsTabs c; _ankiCardNameInput := _ankiCardNameInput c;
     _cardFormatDeleteButton_disabled := v;
     _cardFormatRemoveModal := _cardFormatRemoveModal c;
     _cardFormatMaximumModal := _cardFormatMaximumModal c;
     _cardFormatRemoveName := _cardFormatRemoveName c |}.

Definition with_cardFormatRemoveModal (v : option Modal) (c : Controller) : Controller :=
  {| settings_cardFormats := settings_cardFormats c; _ankiOptions := _ankiOptions c;
     _cardFormatIndex := _cardFormatIndex c; _ankiCardPrimary := _ankiCardPrimary c;
     _ankiCardsTabs := _ankiCardsTabs c; _ankiCardNameInput := _ankiCardNameInput c;
     _cardFormatDeleteButton_disabled := _cardFormatDeleteButton_disabled c;
     _cardFormatRemoveModal := v;
     _cardFormatMaximumModal := _cardFormatMaximumModal c;
     _cardFormatRemoveName := _cardFormatRemoveName c |}.

Definition with_cardFormatMaximumModal (v : option Modal) (c : Controller) : Controller :=
  {| settings_cardFormats := settings_cardFormats c; _ankiOptions := _ankiOptions c;
     _cardFormatIndex := _cardFormatIndex c; _ankiCardPrimary := _ankiCardPrimary c;
     _ankiCardsTabs := _ankiCardsTabs c; _ankiCardNameInput := _ankiCardNameInput c;
     _cardFormatDeleteButton_disabled := _cardFormatDeleteButton_disabled c;
     _cardFormatRemoveModal := _cardFormatRemoveModal c;
     _cardFormatMaximumModal := v;
     _cardFormatRemoveName := _cardFormatRemoveName c |}.

Definition with_cardFormatRemoveName (v : string) (c : Controller) : Controller :=
  {| settings_cardFormats := settings_cardFormats c; _ankiOptions := _ankiOptions c;
     _cardFormatIndex := _cardFormatIndex c; _ankiCardPrimary := _ankiCardPrimary c;
     _ankiCardsTabs := _ankiCardsTabs c; _ankiCardNameInput := _ankiCardNameInput c;
     _cardFormatDeleteButton_disabled := _cardFormatDeleteButton_disabled c;
     _cardFormatRemoveModal := _cardFormatRemoveModal c;
     _cardFormatMaximumModal := _cardFormatMaximumModal c;
     _cardFormatRemoveName := v |}.

(** *** Methods: state passing with exceptions *)

Inductive Completion (A : Type) : Type :=
| Normal (result : A) (this : Controller)
| Throw (e : Js.Exception) (this : Controller).
Arguments Normal {A} result this.
Arguments Throw {A} e this.

Definition Method (A : Type) : Type := Controller -> Completion A.

Definition ret {A : Type} (a : A) : Method A := fun this => Normal a this.

Definition bind {A B : Type} (m : Method A) (k : A -> Method B) : Method B :=
  fun this =>
    match m this with
    | Normal a this' => k a this'
    | Throw e this' => Throw e this'
    end.

Definition throw {A : Type} (e : Js.Exception) : Method A := fun this => Throw e this.

Definition get {A : Type} (f : Controller -> A) : Method A := fun this => Normal (f this) this.

Definition set (f : Controller -> Controller) : Method unit := fun this => Normal tt (f this).

Notation "x <- m ;; k" := (bind m (fun x => k))
  (at level 61, m at next level, right associativity).
Notation "m ;; k" := (bind m (fun _ => k))
  (at level 61, right associativity).

(** The object after the call, however the call ended. *)
Definition final {A : Type} (c : Completion A) : Controller :=
  match c with Normal _ this => this | Throw _ this => this end.

(** *** Collaborators outside this file *)

(** Modelled from the spec: [getOptions()] of the settings store
    (pages/settings/settings-controller.js), which gives the current options;
    of these the controller reads [options.anki.cardFormats]. *)
Definition getOptions : Method (list AnkiCardFormat) := get settings_cardFormats.

(** Modelled from the spec: [modifyProfileSettings(patchList)] of the
    settings store with the one patch
    [{action: 'splice', path: 'anki.cardFormats', start, deleteCount, items}],
    which splices the array at that path. *)
Definition modifyProfileSettings_splice (start deleteCount : Z)
    (items : list AnkiCardFormat) : Method unit :=
  set (fun this => with_settings_cardFormats
         (Js.splice (settings_cardFormats this) start deleteCount items) this).

(** Modelled from the spec: [setVisible(value)] of a modal dialog
    (pages/settings/modal.js), which shows or hides it. *)
Definition setVisible (v : bool) (m : Modal) : Modal :=
  {| visible := v; node_cardFormatIndex := node_cardFormatIndex m |}.

(** *** DOM helpers *)

Definition querySelector (p : Panel) (selector : string) : option Element :=
  option_map snd (find (fun c => String.eqb (fst c) selector) (controls p)).

(** A write to the element [querySelector] returns. *)
Fixpoint update_first (selector : string) (f : Element -> Element)
    (cs : list (string * Element)) : list (string * Element) :=
  match cs with
  | [] => []
  | (s, e) :: cs' =>
      if String.eqb s selector then (s, f e) :: cs'
      else (s, e) :: update_first selector f cs'
  end.

Definition with_dataset (idx : option Z) (menu : option string) (p : Panel) : Panel :=
  {| dataset_cardFormatIndex := idx; dataset_ankiCardMenu := menu; controls := controls p |}.

Definition with_control (selector : string) (f : Element -> Element) (p : Panel) : Panel :=
  {| dataset_cardFormatIndex := dataset_cardFormatIndex p;
     dataset_ankiCardMenu := dataset_ankiCardMenu p;
     controls := update_first selector f (controls p) |}.

Definition with_setting (path : Path) (e : Element) : Element :=
  {| dataset_setting := Some path; dataset_icon := dataset_icon e |}.

Definition with_icon (i : string) (e : Element) : Element :=
  {| dataset_setting := dataset_setting e; dataset_icon := Some i |}.

(** Modelled from the spec: [querySelectorNotNull(element, selector)]
    (dom/query-selector.js), which raises an error when the expected node is
    missing; here on [this._ankiCardPrimary], followed by the writes [f] to
    the element found. *)
Definition on_control (selector : string) (f : Element -> Element) : Method unit :=
  primary <- get _ankiCardPrimary ;;
  match primary with
  | None => throw Js.TypeError
  | Some p =>
      match querySelector p selector with
      | None => throw (Js.NodeNotFound selector)
      | Some _ => set (with_ankiCardPrimary (Some (with_control selector f p)))
      end
  end.

Definition cardFormatPath (cardFormatIndex : Z) (property : string) : Path :=
  [Key "anki"; Key "cardFormats"; Index cardFormatIndex; Key property].

(** *** The methods of the class *)

(** [_setCardFormatIndex(cardFormatIndex, ankiCardMenu)]. *)
Definition _setCardFormatIndex (cardFormatIndex : Z) (ankiCardMenu : option string) : Method unit :=
  set (with_cardFormatIndex cardFormatIndex) ;;
  primary <- get _ankiCardPrimary ;;
  match primary with
  | None => throw (Js.Error "Anki card primary element not found")
  | Some p =>
      set (with_ankiCardPrimary (Some (with_dataset (Some cardFormatIndex) ankiCardMenu p))) ;;
      set (fun this => with_ankiCardNameInput
             (with_setting (cardFormatPath cardFormatIndex "name") (_ankiCardNameInput this)) this) ;;
      on_control ".anki-card-type" (with_setting (cardFormatPath cardFormatIndex "type")) ;;
      ankiOptions <- get _ankiOptions ;;
      let icon :=
        match ankiOptions with
        | None => "big-circle"%string
        | Some cardFormats =>
            match Js.item cardFormats cardFormatIndex with
            | None => "big-circle"%string
            | Some cardFormat => icon cardFormat
            end
        end in
      on_control ".anki-card-icon"
        (fun e => with_icon icon (with_setting (cardFormatPath cardFormatIndex "icon") e)) ;;
      on_control ".anki-card-deck" (with_setting (cardFormatPath cardFormatIndex "deck")) ;;
      on_control ".anki-card-model" (with_setting (cardFormatPath cardFormatIndex "model"))
  end.

(** [_onAnkiCardPrimaryTypeRadioChange(e)] on a tab that became checked: the
    tab's dataset carries its index and its menu. *)
Definition _onAnkiCardPrimaryTypeRadioChange (node : Tab) : Method unit :=
  if tab_checked node
  then _setCardFormatIndex (tab_cardFormatIndex node) (Some (tab_ankiCardMenu node))
  else ret tt.

(** [_createCardFormatTab(cardFormat, cardFormatIndex)]: the tab is appended
    to the strip; the template's radio input starts unchecked. *)
Definition _createCardFormatTab (cardFormat : AnkiCardFormat) (cardFormatIndex : Z) : Method unit :=
  let input :=
    {| tab_value := type_name (type cardFormat);
       tab_ankiCardMenu := ("anki-card-" ++ type_name (type cardFormat) ++ "-field-menu")%string;
       tab_cardFormatIndex := cardFormatIndex;
       tab_label := name cardFormat;
       tab_checked := false |} in
  set (fun this => with_ankiCardsTabs (_ankiCardsTabs this ++ [input]) this).

(** [input.checked = true] on the tab [_createCardFormatTab] just returned. *)
Definition check_last (tabs : list Tab) : list Tab :=
  match rev tabs with
  | [] => []
  | t :: before =>
      rev before ++ [{| tab_value := tab_value t; tab_ankiCardMenu := tab_ankiCardMenu t;
                        tab_cardFormatIndex := tab_cardFormatIndex t;
                        tab_label := tab_label t; tab_checked := true |}]
  end.

(** The [for] loop of [_setupTabs], from index [i] on. *)
Fixpoint _setupTabs_loop (cardFormats : list AnkiCardFormat) (i : Z) : Method unit :=
  match cardFormats with
  | [] => ret tt
  | cardFormat :: more =>
      _createCardFormatTab cardFormat i ;;
      selected <- get _cardFormatIndex ;;
      (if i =? selected
       then set (fun this => with_ankiCardsTabs (check_last (_ankiCardsTabs this)) this)
       else ret tt) ;;
      _setupTabs_loop more (i + 1)
  end.

(** [_setupTabs(ankiOptions)]: the reload step, with its two clamps. *)
Definition _setupTabs (cardFormats : list AnkiCardFormat) : Method unit :=
  set (with_ankiCardsTabs []) ;;
  set (fun this =>
         if _cardFormatIndex this >? Js.length cardFormats
         then with_cardFormatIndex (Js.length cardFormats - 1) this
         else this) ;;
  set (fun this =>
         if _cardFormatIndex this <? 0 then with_cardFormatIndex 0 this else this) ;;
  _setupTabs_loop cardFormats 0 ;;
  set (with_cardFormatDeleteButton_disabled (Js.length cardFormats <=? 1)) ;;
  selected <- get _cardFormatIndex ;;
  _setCardFormatIndex selected (Some "anki-card-term-field-menu"%string).

(** [_onOptionsChanged({options})], as far as the format list goes: the
    controller keeps the options it was given and rebuilds the tabs. *)
Definition _onOptionsChanged (cardFormats : list AnkiCardFormat) : Method unit :=
  set (with_ankiOptions (Some cardFormats)) ;;
  _setupTabs cardFormats.

(** [_updateOptions()]: read the settings store, then reload.  The call is
    taken as a whole, with nothing else running at its [await]; its steps
    among other calls are in [AnkiControllerAsync]. *)
Definition _updateOptions : Method unit :=
  cardFormats <- getOptions ;;
  _onOptionsChanged cardFormats.

(** [_addNewFormat()], taken as a whole, with nothing else running at its
    [await]s; its steps among other calls are in [AnkiControllerAsync]. *)
Definition _addNewFormat : Method unit :=
  cardFormats <- getOptions ;;
  let index := Js.length cardFormats in
  if index >=? 5 then
    set (fun this => with_cardFormatMaximumModal
           (option_map (setVisible true) (_cardFormatMaximumModal this)) this)
  else
    let newCardFormat :=
      {| name := ("Format " ++ Js.decimal (index + 1))%string;
         type := term;
         deck := ""%string;
         model := ""%string;
         fields := [];
         icon := "big-circle"%string |} in
    modifyProfileSettings_splice index 0 [newCardFormat] ;;
    _updateOptions.

(** [_getCardFormat(cardFormatIndex)]. *)
Definition _getCardFormat (cardFormatIndex : Z) : Method (option AnkiCardFormat) :=
  ankiOptions <- get _ankiOptions ;;
  match ankiOptions with
  | None => ret None
  | Some cardFormats =>
      if (cardFormatIndex <? 0) || (cardFormatIndex >=? Js.length cardFormats)
      then ret None
      else ret (Js.item cardFormats cardFormatIndex)
  end.

(** [openDeleteCardFormatModal(cardFormatIndex)]. *)
Definition openDeleteCardFormatModal (cardFormatIndex : Z) : Method unit :=
  cardFormat <- _getCardFormat cardFormatIndex ;;
  match cardFormat with
  | None => ret tt
  | Some cardFormat =>
      set (with_cardFormatRemoveName (name cardFormat)) ;;
      modal <- get _cardFormatRemoveModal ;;
      match modal with
      | None => throw Js.TypeError
      | Some m =>
          set (with_cardFormatRemoveModal
                 (Some {| visible := visible m; node_cardFormatIndex := Some cardFormatIndex |})) ;;
          set (fun this => with_cardFormatRemoveModal
                 (option_map (setVisible true) (_cardFormatRemoveModal this)) this)
      end
  end.

(** [_onCardFormatDeleteClick(e)]: the handler of the delete button. *)
Definition _onCardFormatDeleteClick : Method unit :=
  ankiOptions <- get _ankiOptions ;;
  let single :=
    match ankiOptions with
    | Some cardFormats => Js.length cardFormats =? 1
    | None => false
    end in
  if single then ret tt
  else
    selected <- get _cardFormatIndex ;;
    openDeleteCardFormatModal selected.

(** [_tryGetValidCardFormatIndex(stringValue)]. *)
Definition _tryGetValidCardFormatIndex (stringValue : option Z) : Method (option Z) :=
  match stringValue with
  | None => ret None
  | Some intValue =>
      ankiOptions <- get _ankiOptions ;;
      match ankiOptions with
      | None => ret None
      | Some cardFormats =>
          if (intValue >=? 0) && (intValue <? Js.length cardFormats)
          then ret (Some intValue)
          else ret None
      end
  end.

(** [deleteCardFormat(cardFormatIndex)], taken as a whole, with nothing else
    running at its [await]s; its steps among other calls are in
    [AnkiControllerAsync]. *)
Definition deleteCardFormat (cardFormatIndex : Z) : Method unit :=
  ankiOptions <- get _ankiOptions ;;
  match ankiOptions with
  | None => ret tt
  | Some cardFormats =>
      if (cardFormatIndex <? 0) || (cardFormatIndex >=? Js.length cardFormats)
      then ret tt
      else
        modifyProfileSettings_splice cardFormatIndex 1 [] ;;
        set (with_cardFormatIndex (cardFormatIndex - 1)) ;;
        _updateOptions
  end.

(** [_onCardFormatRemoveConfirm()]: the confirm button of the modal, with
    the [deleteCardFormat] it starts taken to its end. *)
Definition _onCardFormatRemoveConfirm : Method unit :=
  modal <- get _cardFormatRemoveModal ;;
  match modal with
  | None => throw Js.TypeError
  | Some m =>
      set (with_cardFormatRemoveModal (Some (setVisible false m))) ;;
      let cardFormatIndex := node_cardFormatIndex m in
      set (with_cardFormatRemoveModal
             (Some {| visible := false; node_cardFormatIndex := None |})) ;;
      validCardFormatIndex <- _tryGetValidCardFormatIndex cardFormatIndex ;;
      match validCardFormatIndex with
      | None => ret tt
      | Some i => deleteCardFormat i
      end
  end.



(** *** Sample page *)

Definition sample_element : Element := {| dataset_setting := None; dataset_icon := None |}.

Definition sample_panel : Panel :=
  {| dataset_cardFormatIndex := None;
     dataset_ankiCardMenu := None;
     controls := [(".anki-card-type"%string, sample_element);
                  (".anki-card-icon"%string, sample_element);
                  (".anki-card-deck"%string, sample_element);
                  (".anki-card-model"%string, sample_element)] |}.

Definition sample_format (n : string) : AnkiCardFormat :=
  {| name := n; type := term; deck := "Default"%string; model := "Basic"%string;
     fields := []; icon := "big-circle"%string |}.

Definition sample_modal : Modal := {| visible := false; node_cardFormatIndex := None |}.

(** A controller on a complete page, reloaded on [cardFormats] and with the
    cursor on [selected]. *)
Definition sample_controller (cardFormats : list AnkiCardFormat) (selected : Z) : Controller :=
  {| settings_cardFormats := cardFormats;
     _ankiOptions := Some cardFormats;
     _cardFormatIndex := selected;
     _ankiCardPrimary := Some sample_panel;
     _ankiCardsTabs := [];
     _ankiCardNameInput := sample_element;
     _cardFormatDeleteButton_disabled := Js.length cardFormats <=? 1;
     _cardFormatRemoveModal := Some sample_modal;
     _cardFormatMaximumModal := Some sample_modal;
     _cardFormatRemoveName := ""%string |}.

(** *** The status line and the remote note API

    The methods below read and write the status line only, which is kept
    apart from the rest of the controller's state. *)

(** An [Error] object: its [name] and its [message]. *)
Record JsError : Type := { error_name : string; message : string }.

(** [`${error}`] on an [Error] object: [Error.prototype.toString]. *)
Definition Error_toString (e : JsError) : string :=
  if String.eqb (error_name e) "" then message e
  else if String.eqb (message e) "" then error_name e
  else (error_name e ++ ": " ++ message e)%string.

(** The node [#anki-error-message] (its text and its class [danger-text]),
    the text it had when the page loaded, and the field [_ankiError]. *)
Record Status : Type := {
  _ankiErrorMessageNodeDefaultContent : string;
  _ankiError : option JsError;
  textContent : string;
  danger_text : bool
}.

(** [_setAnkiStatusChanging()]. *)
Definition _setAnkiStatusChanging (this : Status) : Status :=
  {| _ankiErrorMessageNodeDefaultContent := _ankiErrorMessageNodeDefaultContent this;
     _ankiError := _ankiError this;
     textContent := _ankiErrorMessageNodeDefaultContent this;
     danger_text := false |}.

(** [_hideAnkiError()]; [enabled] is [this._ankiConnect.enabled]. *)
Definition _hideAnkiError (enabled : bool) (this : Status) : Status :=
  {| _ankiErrorMessageNodeDefaultContent := _ankiErrorMessageNodeDefaultContent this;
     _ankiError := None;
     textContent := if enabled then "Enabled"%string else "Not enabled"%string;
     danger_text := false |}.

(** [_showAnkiError(error)]. *)
Definition _showAnkiError (error : JsError) (this : Status) : Status :=
  let errorString := message error in
  let errorString :=
    if String.eqb errorString "" then Error_toString error else errorString in
  let errorString :=
    if negb (Js.ends_with_one_of ["."; "!"; "?"]%char errorString)
    then (errorString ++ ".")%string else errorString in
  {| _ankiErrorMessageNodeDefaultContent := _ankiErrorMessageNodeDefaultContent this;
     _ankiError := Some error;
     textContent := errorString;
     danger_text := true |}.

(** The message with a period after it unless it ends in one of [.], [!]
    and [?] already.  Written from the specification, to be compared with
    [_showAnkiError]. *)
Definition spec_displayed (message : string) : string :=
  if Js.ends_with_one_of ["."; "!"; "?"]%char message then message
  else (message ++ ".")%string.

(** How an awaited call ends: with a value, or with what was thrown. *)
Inductive Outcome (T A : Type) : Type :=
| Fulfilled (a : A)
| Rejected (reason : T).
Arguments Fulfilled {T A} a.
Arguments Rejected {T A} reason.

(** [try { body } catch (e) { handler(e) }]. *)
Definition try_catch {T A : Type} (body : Outcome T A) (handler : T -> Outcome T A) : Outcome T A :=
  match body with
  | Fulfilled a => Fulfilled a
  | Rejected e => handler e
  end.

Definition and_then {T A B : Type} (o : Outcome T A) (k : A -> Outcome T B) : Outcome T B :=
  match o with
  | Fulfilled a => k a
  | Rejected e => Rejected e
  end.

Record AnkiData : Type := { deckNames : list string; modelNames : list string }.

Section RemoteApi.

(** What the remote API may throw, and two functions from outside this
    file: [toError] (core/to-error.js) and the sort by [Intl.Collator] that
    [_sortStringArray] performs. *)
Variable Thrown : Type.
Variable toError : Thrown -> JsError.
Variable _sortStringArray : list string -> list string.

(** [_getDeckNames()], given how [this._ankiConnect.getDeckNames()] ends. *)
Definition _getDeckNames (getDeckNames : Outcome Thrown (list string))
    : Outcome Thrown (list string * option JsError) :=
  try_catch
    (and_then getDeckNames (fun result => Fulfilled (_sortStringArray result, None)))
    (fun e => Fulfilled ([], Some (toError e))).

(** [_getModelNames()], given how [this._ankiConnect.getModelNames()] ends. *)
Definition _getModelNames (getModelNames : Outcome Thrown (list string))
    : Outcome Thrown (list string * option JsError) :=
  try_catch
    (and_then getModelNames (fun result => Fulfilled (_sortStringArray result, None)))
    (fun e => Fulfilled ([], Some (toError e))).

(** [_getAnkiData()]: the value it resolves to and the status line after
    it. *)
Definition _getAnkiData (getDeckNames getModelNames : Outcome Thrown (list string))
    (enabled : bool) (this : Status) : Outcome Thrown (AnkiData * Status) :=
  let this := _setAnkiStatusChanging this in
  and_then (_getDeckNames getDeckNames) (fun '(deckNames, getDeckNamesError) =>
  and_then (_getModelNames getModelNames) (fun '(modelNames, getModelNamesError) =>
    let this :=
      match getDeckNamesError, getModelNamesError with
      | Some error, _ => _showAnkiError error this
      | None, Some error => _showAnkiError error this
      | None, None => _hideAnkiError enabled this
      end in
    Fulfilled ({| deckNames := deckNames; modelNames := modelNames |}, this))).

(** [getAnkiData()] when no call is under way: it hands out the promise of
    [_getAnkiData()]. *)
Definition getAnkiData (getDeckNames getModelNames : Outcome Thrown (list string))
    (enabled : bool) (this : Status) : Outcome Thrown (AnkiData * Status) :=
  _getAnkiData getDeckNames getModelNames enabled this.

End RemoteApi.

Definition sample_status : Status :=
  {| _ankiErrorMessageNodeDefaultContent := "Connecting..."%string;
     _ankiError := None;
     textContent := "Connecting..."%string;
     danger_text := false |}.

(** *** What a reload leaves as it was *)

(** [frame a b]: [b] has the lists, the modals and the cursor of [a]; only
    the panel, the tab strip and the buttons may differ. *)
Definition frame (a b : Controller) : Prop :=
  settings_cardFormats b = settings_cardFormats a /\
  _ankiOptions b = _ankiOptions a /\
  _cardFormatIndex b = _cardFormatIndex a /\
  _cardFormatRemoveModal b = _cardFormatRemoveModal a /\
  _cardFormatMaximumModal b = _cardFormatMaximumModal a /\
  _cardFormatRemoveName b = _cardFormatRemoveName a.

(** A method that only writes outside the frame. *)
Definition keeps {A : Type} (m : Method A) : Prop :=
  forall this, frame this (final (m this)).

(** The cursor after the two clamps of [_setupTabs]. *)
Definition clamped (selected len : Z) : Z :=
  let s := if selected >? len then len - 1 else selected in
  if s <? 0 then 0 else s.

End AnkiController.

(** ** The field-set editor: class [AnkiCardController] *)
Module AnkiCardController.
Import Settings.

(** The value input of a field row: its text and the three dataset entries
    the controller writes ([None]: the entry is absent). *)
Record InputField : Type := {
  input_value : string;
  dataset_requiredPermission : option string;
  dataset_hasPermissions : option string;
  dataset_invalid : option string
}.

(** An element of [_fieldEntries]: the name the row was rendered with and
    its value input. *)
Record FieldEntry : Type := {
  fieldName : string;
  inputField : InputField
}.

(** The state of the editor.  [settings_fields] is
    [anki.cardFormats[i].fields] inside the settings store; [_fields] is the
    object the editor holds; [_fieldEntries] are the rows on the page. *)
Record CardController : Type := {
  settings_fields : AnkiFields;
  _fields : AnkiFields;
  _fieldEntries : list FieldEntry
}.

(** Modelled from the spec: [modifyProfileSettings(patchList)] of the
    settings store (pages/settings/settings-controller.js) with the one patch
    [{action: 'set', path, value}] on the path of the fields of this card
    format, which stores [value] there. *)
Definition modifyProfileSettings_set (value : AnkiFields) (this : CardController) : CardController :=
  {| settings_fields := value;
     _fields := _fields this;
     _fieldEntries := _fieldEntries this |}.

(** [this._fields = newFields]. *)
Definition with_fields (newFields : AnkiFields) (this : CardController) : CardController :=
  {| settings_fields := settings_fields this;
     _fields := newFields;
     _fieldEntries := _fieldEntries this |}.

Definition string_of_bool (b : bool) : string :=
  if b then "true"%string else "false"%string.

Definition is_string (o : option string) (s : string) : bool :=
  match o with Some s' => String.eqb s' s | None => false end.

(** The table [markerAliases] of [_getDefaultFieldValue], entry by entry. *)
Definition markerAliases : Js.Map string (list string) :=
  Js.Map_new
    [ ("expression", ["phrase"; "term"; "word"]);
      ("reading", ["expression-reading"; "term-reading"; "word-reading"]);
      ("furigana", ["expression-furigana"; "term-furigana"; "word-furigana"]);
      ("glossary", ["definition"; "meaning"]);
      ("audio", ["sound"; "word-audio"; "term-audio"; "expression-audio"]);
      ("dictionary", ["dict"]);
      ("pitch-accents", ["pitch"; "pitch-accent"; "pitch-pattern"]);
      ("sentence", ["example-sentence"]);
      ("frequency-harmonic-rank", ["freq"; "frequency"; "freq-sort"; "freqency-sort"]);
      ("popup-selection-text", ["selection"]);
      ("pitch-accent-positions", ["pitch-position"]);
      ("pitch-accent-categories", ["pitch-categories"]);
      ("popup-selection-text", ["selection-text"]) ]%string.

(** [name.replace(/-/g, '[-_ ]*')] read as a pattern.  A name with a syntax
    character would make some other pattern, or none: [None]. *)
Fixpoint name_pattern (name : string) : option Js.RegExp :=
  match name with
  | EmptyString => Some Js.Eps
  | String c name' =>
      match name_pattern name' with
      | None => None
      | Some r =>
          if Ascii.eqb c "-" then Some (Js.Seq (Js.Star (Js.Class ["-"; "_"; " "]%char)) r)
          else if Js.is_syntax_character c then None
          else Some (Js.Seq (Js.Char c) r)
      end
  end.

(** The alternatives of ['^(?:' + ... + ')$'], one per name, joined by [|]. *)
Fixpoint names_pattern (names : list string) : option Js.RegExp :=
  match names with
  | [] => Some Js.Never
  | name :: more =>
      match name_pattern name, names_pattern more with
      | Some r, Some rs => Some (Js.Alt r rs)
      | _, _ => None
      end
  end.

(** [names] of the loop body: the marker, then its aliases if it has any. *)
Definition names_of (marker : string) : list string :=
  marker :: match Js.Map_get markerAliases marker with
            | Some aliases => aliases
            | None => []
            end.

(** The [for (const marker of markers)] loop of [_getDefaultFieldValue]. *)
Fixpoint _getDefaultFieldValue_loop (markers : list string) (fieldName : string) : option string :=
  match markers with
  | [] => Some ""%string
  | marker :: more =>
      match names_pattern (names_of marker) with
      | None => None
      | Some patternRegExp =>
          if Js.test patternRegExp fieldName
          then Some ("{" ++ marker ++ "}")%string
          else _getDefaultFieldValue_loop more fieldName
      end
  end.

(** The loop of [_onAddFieldClick]: [name] is the candidate under test and
    [counter] the count of candidates rejected so far.  Every turn of the loop
    uses one unit of [fuel]. *)
Fixpoint unused_name (fields : AnkiFields) (fuel : nat) (name : string) (counter : Z) : option string :=
  if Js.hasOwnProperty fields name then
    match fuel with
    | O => None
    | S fuel' =>
        unused_name fields fuel' ("Field" ++ Js.decimal (counter + 1))%string (counter + 1)
    end
  else Some name.

Section Collaborators.

(** Functions of the extension that live outside this file. *)
Variable stringContainsAnyFieldMarker : string -> bool.            (* data/anki-util.js *)
Variable getRequiredPermissionsForAnkiFieldValue : string -> list string. (* data/permissions-util.js *)
Variable getStandardFieldMarkers : DictionaryEntryType -> list string.   (* data/anki-template-util.js *)
(** The answers of the browser to a permission check and to a permission
    request. *)
Variable hasPermissions : list string -> bool.
Variable setPermissionsGranted : list string -> bool.

(** [_validateField(node, index)]. *)
Definition _validateField (node : InputField) (index : Z) : InputField :=
  let valid := negb (is_string (dataset_hasPermissions node) "false") in
  let valid :=
    if valid && (index =? 0) && negb (stringContainsAnyFieldMarker (input_value node))
    then false else valid in
  {| input_value := input_value node;
     dataset_requiredPermission := dataset_requiredPermission node;
     dataset_hasPermissions := dataset_hasPermissions node;
     dataset_invalid := Some (string_of_bool (negb valid)) |}.

(** [_validateFieldPermissions(node, index, request)]. *)
Definition _validateFieldPermissions (node : InputField) (index : Z) (request : bool) : InputField :=
  let fieldValue := input_value node in
  let permissions := getRequiredPermissionsForAnkiFieldValue fieldValue in
  let node :=
    if Js.length permissions >? 0 then
      let hasPermissions2 :=
        if request then setPermissionsGranted permissions else hasPermissions permissions in
      {| input_value := input_value node;
         dataset_requiredPermission := Some (String.concat " " permissions);
         dataset_hasPermissions := Some (string_of_bool hasPermissions2);
         dataset_invalid := dataset_invalid node |}
    else
      {| input_value := input_value node;
         dataset_requiredPermission := None;
         dataset_hasPermissions := None;
         dataset_invalid := dataset_invalid node |} in
  _validateField node index.

(** The [for] loop of [_setupFields] over [Object.entries(this._fields)],
    from row [index] on.  The permission check a row starts is answered after
    the row has been validated, so its writes are the last ones. *)
Fixpoint _setupFields_loop (entries : list (string * AnkiField)) (index : Z) : list FieldEntry :=
  match entries with
  | [] => []
  | (fieldName, field) :: more =>
      let inputField :=
        {| input_value := value field;
           dataset_requiredPermission := None;
           dataset_hasPermissions := None;
           dataset_invalid := None |} in
      let inputField := _validateField inputField index in
      let inputField := _validateFieldPermissions inputField index false in
      {| fieldName := fieldName; inputField := inputField |}
        :: _setupFields_loop more (index + 1)
  end.

(** [_setupFields()]. *)
Definition _setupFields (this : CardController) : CardController :=
  {| settings_fields := settings_fields this;
     _fields := _fields this;
     _fieldEntries := _setupFields_loop (_fields this) 0 |}.

(** [_onAddFieldClick(_e)].  The loop is given as many turns as there are
    fields, which is all it can use; [None] would mean it wanted more. *)
Definition _onAddFieldClick (this : CardController) : option CardController :=
  match unused_name (_fields this) (List.length (_fields this)) "Field" 0 with
  | None => None
  | Some name =>
      let newField := {| value := ""%string; overwriteMode := "coalesce"%string |} in
      let newFields := Js.define (Js.spread [] (_fields this)) name newField in
      let this := modifyProfileSettings_set newFields this in
      let this := with_fields newFields this in
      Some (_setupFields this)
  end.

(** [_onFieldNameBlur(index, e)], given the text of the name input that lost
    focus; the result is the editor and the text of that input afterwards.
    [None]: the row names a field the object does not have, so [removed] is
    [undefined]; this does not happen between two [_setupFields]. *)
Definition _onFieldNameBlur (index : Z) (node_value : string) (this : CardController)
    : option (CardController * string) :=
  let newName := Js.trim node_value in
  match Js.item (_fieldEntries this) index with
  | None => Some (this, node_value)
  | Some entry =>
      let oldName := fieldName entry in
      if String.eqb newName oldName then Some (this, node_value)
      else if String.eqb newName "" then Some (this, oldName)
      else if Js.hasOwnProperty (_fields this) newName then Some (this, oldName)
      else
        match Js.get (_fields this) oldName with
        | None => None
        | Some removed =>
            let rest := Js.rest (_fields this) oldName in
            let newFields := Js.define (Js.spread [] rest) newName removed in
            let this := modifyProfileSettings_set newFields this in
            let this := with_fields newFields this in
            Some (_setupFields this, node_value)
        end
  end.

(** [_getDefaultFieldValue(fieldName, index, dictionaryEntryType, oldFields)].
    [None]: a marker name is outside the patterns of [name_pattern]. *)
Definition _getDefaultFieldValue (fieldName : string) (index : Z)
    (dictionaryEntryType : DictionaryEntryType) (oldFields : option AnkiFields) : option string :=
  let old :=
    match oldFields with
    | Some o => Js.get o fieldName
    | None => None
    end in
  match old with
  | Some field => Some (value field)
  | None =>
      if index =? 0 then
        Some (match dictionaryEntryType with
              | kanji => "{character}"
              | term => "{expression}"
              end)%string
      else _getDefaultFieldValue_loop (getStandardFieldMarkers dictionaryEntryType) fieldName
  end.


End Collaborators.

(** [name] read as a pattern and tested on [fieldName]. *)
Definition name_test (name fieldName : string) : bool :=
  match name_pattern name with
  | Some r => Js.test r fieldName
  | None => false
  end.

(** Some name of the marker, read as a pattern, passes the test. *)
Definition marker_test (marker fieldName : string) : bool :=
  existsb (fun name => name_test name fieldName) (names_of marker).

(** A name without syntax characters. *)
Fixpoint plain_name (name : string) : bool :=
  match name with
  | EmptyString => true
  | String c name' => negb (Js.is_syntax_character c) && plain_name name'
  end.

Definition is_separator (c : ascii) : bool :=
  Ascii.eqb c "-" || Ascii.eqb c "_" || Ascii.eqb c " ".

(** The comparison of the specification between a marker name or alias and a
    field name: letter by letter without regard to case, a hyphen of the name
    standing for any run of hyphens, underscores and spaces, the empty run
    included.  Written from the specification, to be compared with the
    pattern of [_getDefaultFieldValue]. *)
Inductive spec_name_matches : string -> string -> Prop :=
| spec_name_end : spec_name_matches EmptyString EmptyString
| spec_name_letter c a name fieldName :
    c <> "-"%char -> Js.accepts c a = true ->
    spec_name_matches name fieldName ->
    spec_name_matches (String c name) (String a fieldName)
| spec_name_run_end name fieldName :
    spec_name_matches name fieldName ->
    spec_name_matches (String "-" name) fieldName
| spec_name_run a name fieldName :
    is_separator a = true ->
    spec_name_matches (String "-" name) fieldName ->
    spec_name_matches (String "-" name) (String a fieldName).

(** A marker matches when its name or one of its aliases does. *)
Definition spec_marker_matches (marker fieldName : string) : Prop :=
  exists name, In name (names_of marker) /\ spec_name_matches name fieldName.

(** The default of the specification: the first marker of the table that
    matches, in braces; the empty string when none does.  Written from the
    specification, to be compared with [_getDefaultFieldValue]. *)
Inductive spec_default : list string -> string -> string -> Prop :=
| spec_default_none fieldName : spec_default [] fieldName EmptyString
| spec_default_first marker more fieldName :
    spec_marker_matches marker fieldName ->
    spec_default (marker :: more) fieldName ("{" ++ marker ++ "}")%string
| spec_default_next marker more fieldName v :
    ~ spec_marker_matches marker fieldName ->
    spec_default more fieldName v ->
    spec_default (marker :: more) fieldName v.

(** A table of markers to try the lookup on; the table of the extension is
    in data/anki-template-util.js. *)
Definition sample_markers (t : DictionaryEntryType) : list string :=
  match t with
  | term => ["audio"; "dictionary"; "expression"; "furigana"; "glossary"; "reading";
             "sentence"; "pitch-accents"; "frequency-harmonic-rank"]%string
  | kanji => ["character"; "glossary"; "kunyomi"; "onyomi"; "sentence"]%string
  end.

(** The names of the specification, in order: [Field], [Field1], [Field2],
    and so on.  Written from the specification, to be compared with
    [unused_name]. *)
Definition candidate (k : Z) : string :=
  if k =? 0 then "Field"%string else ("Field" ++ Js.decimal k)%string.

(** The new name ends the list of keys: the renamed field is the last row.
    Written from the specification, to be compared with [_onFieldNameBlur]. *)
Definition spec_renamed_last (this : CardController) (newName : string) : Prop :=
  last (Js.keys (_fields this)) EmptyString = newName.

(** *** Sample editor *)

Definition sample_contains_marker (s : string) : bool :=
  match s with
  | String "{" _ => true
  | _ => false
  end.

Definition sample_permissions (s : string) : list string :=
  if String.eqb s "{clipboard-text}" then ["clipboardRead"%string] else [].

Definition sample_granted (permissions : list string) : bool := false.

Definition sample_request (permissions : list string) : bool := true.

Definition sample_fields : AnkiFields :=
  [ ("Front"%string, {| value := "{expression}"%string; overwriteMode := "coalesce"%string |});
    ("Back"%string, {| value := "{glossary}"%string; overwriteMode := "overwrite"%string |}) ].

Definition sample_editor (fields : AnkiFields) : CardController :=
  _setupFields sample_contains_marker sample_permissions sample_granted sample_request
    {| settings_fields := fields; _fields := fields; _fieldEntries := [] |}.

(** The rows show the fields of the object, in its order. *)
Definition rendered (this : CardController) : Prop :=
  List.map fieldName (_fieldEntries this) = Js.keys (_fields this).

End AnkiCardController.

(** ** The format-list controller: the page as a whole

    The tab strip a reload builds, the events of the page and their
    handlers, and the state a page keeps when its handlers do not overlap. *)
Module AnkiControllerEvents.
Import Settings AnkiController.

(** The tab [_createCardFormatTab] makes for the format at position [i],
    checked when [i] is the cursor. *)
Definition tab_of (selected i : Z) (cardFormat : AnkiCardFormat) : Tab :=
  {| tab_value := type_name (type cardFormat);
     tab_ankiCardMenu := ("anki-card-" ++ type_name (type cardFormat) ++ "-field-menu")%string;
     tab_cardFormatIndex := i;
     tab_label := name cardFormat;
     tab_checked := i =? selected |}.

(** One tab per format, numbered from [i] on. *)
Fixpoint tabs_from (selected i : Z) (cardFormats : list AnkiCardFormat) : list Tab :=
  match cardFormats with
  | [] => []
  | cardFormat :: more => tab_of selected i cardFormat :: tabs_from selected (i + 1) more
  end.

(** The four controls [_setCardFormatIndex] looks up in the panel, in the
    order it looks them up, each with the property its setting is bound to. *)
Definition bound_controls : list (string * string) :=
  [ (".anki-card-type", "type"); (".anki-card-icon", "icon");
    (".anki-card-deck", "deck"); (".anki-card-model", "model") ]%string.

(** The panel has all four controls. *)
Definition complete (p : Panel) : bool :=
  forallb (fun c => match querySelector p (fst c) with Some _ => true | None => false end)
          bound_controls.

(** The first of the four controls the panel lacks. *)
Definition first_missing (p : Panel) : option string :=
  option_map fst
    (find (fun c => match querySelector p (fst c) with Some _ => false | None => true end)
          bound_controls).

(** The panel after the writes of [_setCardFormatIndex], when it has its
    four controls. *)
Definition bound_panel (cardFormatIndex : Z) (ankiCardMenu : option string)
    (icon : string) (p : Panel) : Panel :=
  with_control ".anki-card-model" (with_setting (cardFormatPath cardFormatIndex "model"))
    (with_control ".anki-card-deck" (with_setting (cardFormatPath cardFormatIndex "deck"))
       (with_control ".anki-card-icon"
          (fun e => with_icon icon (with_setting (cardFormatPath cardFormatIndex "icon") e))
          (with_control ".anki-card-type"
             (with_setting (cardFormatPath cardFormatIndex "type"))
             (with_dataset (Some cardFormatIndex) ankiCardMenu p)))).

(** [this._ankiOptions?.cardFormats[cardFormatIndex]?.icon ?? 'big-circle']. *)
Definition icon_at (ankiOptions : option (list AnkiCardFormat)) (cardFormatIndex : Z) : string :=
  match ankiOptions with
  | None => "big-circle"%string
  | Some cardFormats =>
      match Js.item cardFormats cardFormatIndex with
      | None => "big-circle"%string
      | Some cardFormat => icon cardFormat
      end
  end.

(** [arr[i] = x] on an index of the array. *)
Fixpoint assign {A : Type} (arr : list A) (i : nat) (x : A) : list A :=
  match arr, i with
  | [], _ => []
  | _ :: more, O => x :: more
  | a :: more, S i' => a :: assign more i' x
  end.

Definition with_format_icon (newIcon : string) (cardFormat : AnkiCardFormat) : AnkiCardFormat :=
  {| name := name cardFormat; type := type cardFormat; deck := deck cardFormat;
     model := model cardFormat; fields := fields cardFormat; icon := newIcon |}.

(** [_onIconSelectChange()], given the value of the icon select.  The select
    is looked up with [querySelector] and used without a check; the icon is
    written into the copy of the options that the controller holds. *)
Definition _onIconSelectChange (newIcon : string) : Method unit :=
  primary <- get _ankiCardPrimary ;;
  match primary with
  | None => throw Js.TypeError
  | Some p =>
      match querySelector p ".anki-card-icon" with
      | None => throw Js.TypeError
      | Some _ =>
          set (with_ankiCardPrimary (Some (with_control ".anki-card-icon" (with_icon newIcon) p))) ;;
          ankiOptions <- get _ankiOptions ;;
          match ankiOptions with
          | None => ret tt
          | Some cardFormats =>
              selected <- get _cardFormatIndex ;;
              match Js.item cardFormats selected with
              | None => throw Js.TypeError
              | Some cardFormat =>
                  set (with_ankiOptions
                         (Some (assign cardFormats (Z.to_nat selected)
                                  (with_format_icon newIcon cardFormat))))
              end
          end
      end
  end.

(** The user picks the tab at position [k] of the strip: the browser checks
    its radio input, unchecks the others and sends the change event to
    [_onAnkiCardPrimaryTypeRadioChange]. *)
Fixpoint pick_from (k i : nat) (tabs : list Tab) : list Tab :=
  match tabs with
  | [] => []
  | t :: more =>
      {| tab_value := tab_value t; tab_ankiCardMenu := tab_ankiCardMenu t;
         tab_cardFormatIndex := tab_cardFormatIndex t; tab_label := tab_label t;
         tab_checked := Nat.eqb i k |} :: pick_from k (S i) more
  end.

Definition pick (k : nat) (tabs : list Tab) : list Tab := pick_from k 0 tabs.

(** What the user can do on the page, and a reload with the store as it is
    (the enable checkbox or the entry of the settings page was used). *)
Inductive Event : Type :=
| NewFormatButtonClick
| CardFormatDeleteClick
| CardFormatRemoveConfirm
| TabChange (k : nat)
| Reload.

(** The handler of an event with the call it starts taken to its end, as
    when nothing else happens before the call is over. *)
Definition handle (e : Event) : Method unit :=
  match e with
  | NewFormatButtonClick => _addNewFormat
  | CardFormatDeleteClick => _onCardFormatDeleteClick
  | CardFormatRemoveConfirm => _onCardFormatRemoveConfirm
  | TabChange k =>
      tabs <- get _ankiCardsTabs ;;
      match nth_error (pick k tabs) k with
      | None => ret tt
      | Some node =>
          set (with_ankiCardsTabs (pick k tabs)) ;;
          _onAnkiCardPrimaryTypeRadioChange node
      end
  | Reload => _updateOptions
  end.



(** The lists, the cursor, the modals, the strip and the delete button are
    the same. *)
Definition same_view (a b : Controller) : Prop :=
  frame a b /\
  _ankiCardsTabs b = _ankiCardsTabs a /\
  _cardFormatDeleteButton_disabled b = _cardFormatDeleteButton_disabled a.

(** The panel is still there and its dataset is the same. *)
Definition same_dataset (a b : Controller) : Prop :=
  forall p, _ankiCardPrimary a = Some p ->
    exists p', _ankiCardPrimary b = Some p' /\
      dataset_cardFormatIndex p' = dataset_cardFormatIndex p /\
      dataset_ankiCardMenu p' = dataset_ankiCardMenu p.

(** A method whose writes all stay within a relation between the state
    before and the state after. *)
Definition preserves (R : Controller -> Controller -> Prop) {A : Type} (m : Method A) : Prop :=
  forall this, R this (final (m this)).


End AnkiControllerEvents.

(** ** The field-set editor: its life cycle and its events

    The editor is made for a node of the page, prepared from the options,
    fed the events of its rows and cleaned up when the node goes or when the
    editor is stale. *)
Module AnkiCardControllerEvents.
Import Settings AnkiCardController.

(** [str.split(' ')]: the pieces between the separators; the empty string
    has the one piece [""]. *)
Fixpoint split (separator : ascii) (s : string) : list string :=
  match s with
  | EmptyString => [EmptyString]
  | String c s' =>
      if Ascii.eqb c separator then EmptyString :: split separator s'
      else
        match split separator s' with
        | piece :: pieces => String c piece :: pieces
        | [] => [String c EmptyString]
        end
  end.

(** The separator does not occur in the string. *)
Fixpoint free_of (separator : ascii) (s : string) : bool :=
  match s with
  | EmptyString => true
  | String c s' => negb (Ascii.eqb c separator) && free_of separator s'
  end.

(** [defaultValue.slice(0, -1)] paired with the last character. *)
Fixpoint strip_last (s : string) : option (string * ascii) :=
  match s with
  | EmptyString => None
  | String c s' =>
      match strip_last s' with
      | None => Some (EmptyString, c)
      | Some (body, last) => Some (String c body, last)
      end
  end.

(** [/^\{([\w\W]+)\}$/.exec(s)], the group when there is a match: the text
    is an opening brace, one character or more of any kind, and a closing
    brace, and the group is what stands between the braces. *)
Definition exec_braces (s : string) : option string :=
  match s with
  | String "{" rest =>
      match strip_last rest with
      | Some (String c body, "}"%char) => Some (String c body)
      | _ => None
      end
  | _ => None
  end.

(** The state of an [AnkiCardController]: the fields of the constructor
    that the methods below read or write, with the field set of
    [AnkiCardController.CardController]. *)
Record Editor : Type := {
  _cardFormat : option AnkiCardFormat;
  _cardFormatIndex : Z;
  _cardMenu : option string;
  _cleaned : bool;
  fieldset : CardController
}.

Definition with_fieldset (c : CardController) (this : Editor) : Editor :=
  {| _cardFormat := _cardFormat this; _cardFormatIndex := _cardFormatIndex this;
     _cardMenu := _cardMenu this; _cleaned := _cleaned this; fieldset := c |}.

(** [new AnkiCardController(settingsController, ankiController, node)], given
    the dataset of the node and the fields the settings store has for the
    format of the node. *)
Definition constructor (node : AnkiController.Panel) (stored : AnkiFields)
    : Editor + Js.Exception :=
  match AnkiController.dataset_cardFormatIndex node with
  | None => inr (Js.Error "Undefined anki card type in node dataset")
  | Some cardFormatIndex =>
      inl {| _cardFormat := None;
             _cardFormatIndex := cardFormatIndex;
             _cardMenu := AnkiController.dataset_ankiCardMenu node;
             _cleaned := false;
             fieldset := {| settings_fields := stored; _fields := []; _fieldEntries := [] |} |}
  end.

(** [isStale()], given the dataset of the node as it is now. *)
Definition isStale (node : AnkiController.Panel) (this : Editor) : bool :=
  match AnkiController.dataset_cardFormatIndex node with
  | None => true
  | Some datasetCardFormatIndex =>
      negb (_cardFormatIndex this =? datasetCardFormatIndex) ||
      negb (match _cardMenu this, AnkiController.dataset_ankiCardMenu node with
            | Some a, Some b => String.eqb a b
            | None, None => true
            | _, _ => false
            end)
  end.


(** [_getCardFormat(ankiOptions, cardFormatIndex)] of the editor. *)
Definition _getCardFormat (ankiOptions : list AnkiCardFormat) (cardFormatIndex : Z)
    : AnkiCardFormat + Js.Exception :=
  match Js.item ankiOptions cardFormatIndex with
  | None => inr (Js.Error "Invalid card format index")
  | Some cardFormat => inl cardFormat
  end.

(** [cardFormatType]. *)
Definition cardFormatType (this : Editor) : DictionaryEntryType + Js.Exception :=
  match _cardFormat this with
  | None => inr (Js.Error "Card format not initialized")
  | Some cardFormat => inl (type cardFormat)
  end.

Section Collaborators.

Variable stringContainsAnyFieldMarker : string -> bool.
Variable getRequiredPermissionsForAnkiFieldValue : string -> list string.
Variable getStandardFieldMarkers : DictionaryEntryType -> list string.
Variable hasPermissions : list string -> bool.
Variable setPermissionsGranted : list string -> bool.

(** [prepare()], given the card formats [getOptions()] resolved to: the
    editor afterwards, paired with the error when it threw. *)
Definition prepare (ankiOptions : list AnkiCardFormat) (this : Editor)
    : Editor * option Js.Exception :=
  if _cleaned this then (this, None)
  else
    match _getCardFormat ankiOptions (_cardFormatIndex this) with
    | inr e => (this, Some e)
    | inl cardFormat =>
        let this :=
          {| _cardFormat := Some cardFormat; _cardFormatIndex := _cardFormatIndex this;
             _cardMenu := _cardMenu this; _cleaned := _cleaned this;
             fieldset := with_fields (fields cardFormat) (fieldset this) |} in
        (with_fieldset
           (_setupFields stringContainsAnyFieldMarker getRequiredPermissionsForAnkiFieldValue
              hasPermissions setPermissionsGranted (fieldset this)) this,
         None)
    end.

(** The body of the loop of [_onPermissionsChanged] on the row [i]. *)
Definition _onPermissionsChanged_row (permissions : list string) (i : Z) (entry : FieldEntry)
    : FieldEntry :=
  let inputField := inputField entry in
  match dataset_requiredPermission inputField with
  | None => entry
  | Some requiredPermission =>
      let requiredPermissionArray :=
        if String.eqb requiredPermission "" then [] else split " " requiredPermission in
      let hasPermissions2 :=
        forallb (fun permission => existsb (String.eqb permission) permissions)
                requiredPermissionArray in
      {| fieldName := fieldName entry;
         inputField :=
           _validateField stringContainsAnyFieldMarker
             {| input_value := input_value inputField;
                dataset_requiredPermission := dataset_requiredPermission inputField;
                dataset_hasPermissions := Some (string_of_bool hasPermissions2);
                dataset_invalid := dataset_invalid inputField |} i |}
  end.

Fixpoint _onPermissionsChanged_loop (permissions : list string) (i : Z)
    (entries : list FieldEntry) : list FieldEntry :=
  match entries with
  | [] => []
  | entry :: more =>
      _onPermissionsChanged_row permissions i entry
        :: _onPermissionsChanged_loop permissions (i + 1) more
  end.

(** [_onPermissionsChanged({permissions: {permissions}})]. *)
Definition _onPermissionsChanged (permissions : list string) (this : CardController)
    : CardController :=
  {| settings_fields := settings_fields this;
     _fields := _fields this;
     _fieldEntries := _onPermissionsChanged_loop permissions 0 (_fieldEntries this) |}.

(** [_onFieldMenuOpen(event)], given the dataset of the menu button: the
    marker whose menu item the handler looks up to make it bold, or no marker
    when it returns before the lookup, or the error it throws.  [None]: a
    marker name is outside the patterns of [name_pattern]. *)
Definition _onFieldMenuOpen (index : option Z) (fieldName : option string) (this : Editor)
    : option (option string + Js.Exception) :=
  let indexNumber := match index with Some i => i | None => 0 end in
  match fieldName with
  | None => Some (inl None)
  | Some fieldName =>
      match cardFormatType this with
      | inr e => Some (inr e)
      | inl dictionaryEntryType =>
          match _getDefaultFieldValue getStandardFieldMarkers fieldName indexNumber
                  dictionaryEntryType None with
          | None => None
          | Some defaultValue =>
              if String.eqb defaultValue "" then Some (inl None)
              else Some (inl (exec_braces defaultValue))
          end
      end
  end.

(** The events of the rows of an editor and of its add-field button. *)
Inductive Event : Type :=
| AddFieldClick
| FieldNameBlur (index : Z) (node_value : string)
| PermissionsChanged (permissions : list string).

End Collaborators.

(** *** Sample editor *)

Definition sample_card_format : AnkiCardFormat :=
  {| name := "Format 1"; type := term; deck := "Default"; model := "Basic";
     fields := sample_fields; icon := "big-circle" |}.

(** The node of the sample page once the first format is selected. *)
Definition sample_node : AnkiController.Panel :=
  AnkiController.with_dataset (Some 0) (Some "anki-card-term-field-menu"%string)
    AnkiController.sample_panel.

(** The editor the constructor makes for [sample_node]. *)
Definition sample_fresh : Editor :=
  {| _cardFormat := None;
     _cardFormatIndex := 0;
     _cardMenu := Some "anki-card-term-field-menu"%string;
     _cleaned := false;
     fieldset := {| settings_fields := sample_fields; _fields := []; _fieldEntries := [] |} |}.

(** What the editor keeps between two events: the object is a well-formed
    object, the settings store has it, and the rows show it. *)
Definition settled (this : CardController) : Prop :=
  Js.well_formed (_fields this) /\
  settings_fields this = _fields this /\
  rendered this.

End AnkiCardControllerEvents.

(** ** The format-list controller: handlers that overlap

    [_addNewFormat], [deleteCardFormat] and [_updateOptions] are [async]:
    each stops at every [await] and goes on when the settings backend has
    answered, and the handlers that call them do not wait ([void]).  Here
    a call in flight is recorded by the [await] it stands at; the backend
    serves a request and the continuation of a call runs as steps of their
    own, in any order, between the events of the page. *)
Module AnkiControllerAsync.
Import Settings AnkiController AnkiControllerEvents.

(** What a reload meets outside the controller.  The fragment that
    [instantiateTemplateFragment('anki-card-type-tab')] gives (a function of
    pages/settings/settings-controller.js) has an [input] or not, and a
    [.tab-label] or not.  The pass of [this._selectorObserver.observe(...)]
    over the page (dom/selector-observer.js), which makes the editors of the
    nodes it finds, returns or throws. *)
Record Surroundings : Type := {
  has_input : bool;
  has_tab_label : bool;
  observe_error : option Js.Exception
}.

(** [_createCardFormatTab(cardFormat, cardFormatIndex)] with its two
    lookups in the fragment; the tab joins the strip after both. *)
Definition _createCardFormatTab (around : Surroundings) (cardFormat : AnkiCardFormat)
    (cardFormatIndex : Z) : Method unit :=
  if negb (has_input around) then throw (Js.NodeNotFound "input")
  else if negb (has_tab_label around) then throw (Js.NodeNotFound ".tab-label")
  else AnkiController._createCardFormatTab cardFormat cardFormatIndex.

(** The [for] loop of [_setupTabs], from index [i] on. *)
Fixpoint _setupTabs_loop (around : Surroundings) (cardFormats : list AnkiCardFormat) (i : Z)
    : Method unit :=
  match cardFormats with
  | [] => ret tt
  | cardFormat :: more =>
      _createCardFormatTab around cardFormat i ;;
      selected <- get _cardFormatIndex ;;
      (if i =? selected
       then set (fun this => with_ankiCardsTabs (check_last (_ankiCardsTabs this)) this)
       else ret tt) ;;
      _setupTabs_loop around more (i + 1)
  end.

(** [_setupTabs(ankiOptions)]. *)
Definition _setupTabs (around : Surroundings) (cardFormats : list AnkiCardFormat) : Method unit :=
  set (with_ankiCardsTabs []) ;;
  set (fun this =>
         if _cardFormatIndex this >? Js.length cardFormats
         then with_cardFormatIndex (Js.length cardFormats - 1) this
         else this) ;;
  set (fun this =>
         if _cardFormatIndex this <? 0 then with_cardFormatIndex 0 this else this) ;;
  _setupTabs_loop around cardFormats 0 ;;
  set (with_cardFormatDeleteButton_disabled (Js.length cardFormats <=? 1)) ;;
  selected <- get _cardFormatIndex ;;
  _setCardFormatIndex selected (Some "anki-card-term-field-menu"%string).

(** [_onOptionsChanged({options})], as far as the format list goes: the
    pass of the selector observer, the copy of the options, the tabs. *)
Definition _onOptionsChanged (around : Surroundings) (cardFormats : list AnkiCardFormat)
    : Method unit :=
  match observe_error around with
  | Some e => throw e
  | None =>
      set (with_ankiOptions (Some cardFormats)) ;;
      _setupTabs around cardFormats
  end.

(** The format [_addNewFormat] makes for a list of [index] formats. *)
Definition newCardFormat (index : Z) : AnkiCardFormat :=
  {| name := ("Format " ++ Js.decimal (index + 1))%string;
     type := term;
     deck := ""%string;
     model := ""%string;
     fields := [];
     icon := "big-circle"%string |}.

(** [deleteCardFormat(cardFormatIndex)] up to its first [await]: whether it
    sends the splice. *)
Definition deleteCardFormat_begin (cardFormatIndex : Z) : Method bool :=
  ankiOptions <- get _ankiOptions ;;
  match ankiOptions with
  | None => ret false
  | Some cardFormats =>
      if (cardFormatIndex <? 0) || (cardFormatIndex >=? Js.length cardFormats)
      then ret false
      else ret true
  end.

(** [_onCardFormatRemoveConfirm()] up to the first [await] of the
    [deleteCardFormat] it starts: the index whose splice was sent, if any. *)
Definition _onCardFormatRemoveConfirm_begin : Method (option Z) :=
  modal <- get _cardFormatRemoveModal ;;
  match modal with
  | None => throw Js.TypeError
  | Some m =>
      set (with_cardFormatRemoveModal (Some (setVisible false m))) ;;
      let cardFormatIndex := node_cardFormatIndex m in
      set (with_cardFormatRemoveModal
             (Some {| visible := false; node_cardFormatIndex := None |})) ;;
      validCardFormatIndex <- _tryGetValidCardFormatIndex cardFormatIndex ;;
      match validCardFormatIndex with
      | None => ret None
      | Some i =>
          sent <- deleteCardFormat_begin i ;;
          ret (if sent then Some i else None)
      end
  end.

(** A call in flight, by the [await] it stands at.  A call is first waiting
    for the backend to serve its request, then waiting to go on. *)
Inductive Call : Type :=
| AddAwaitsOptions                                 (* _addNewFormat: getOptions sent *)
| AddHasOptions (options : list AnkiCardFormat)    (* ... and answered *)
| AddAwaitsSplice (index : Z)                      (* _addNewFormat: splice sent *)
| AddSpliced                                       (* ... and applied *)
| DeleteAwaitsSplice (cardFormatIndex : Z)         (* deleteCardFormat: splice sent *)
| DeleteSpliced (cardFormatIndex : Z)              (* ... and applied *)
| ReloadAwaitsOptions                              (* _updateOptions: getOptions sent *)
| ReloadHasOptions (options : list AnkiCardFormat). (* ... and answered *)

(** The page: the controller with the settings store, the calls in flight,
    and the errors that were thrown by a handler or left a call rejected. *)
Record Page : Type := {
  controller : Controller;
  pending : list Call;
  uncaught : list Js.Exception
}.

Definition start (this : Controller) : Page :=
  {| controller := this; pending := []; uncaught := [] |}.

Fixpoint remove_at {A : Type} (k : nat) (l : list A) : list A :=
  match l, k with
  | [], _ => []
  | _ :: more, O => more
  | a :: more, S k' => a :: remove_at k' more
  end.

(** The page after a synchronous piece of code ran on the controller, with
    [calls] in flight. *)
Definition after {A : Type} (r : Completion A) (calls : list Call) (page : Page) : Page :=
  {| controller := final r;
     pending := calls;
     uncaught := match r with
                 | Normal _ _ => uncaught page
                 | Throw e _ => uncaught page ++ [e]
                 end |}.

(** An event of the page: its handler runs up to the first [await]. *)
Definition user (e : Event) (page : Page) : Page :=
  let this := controller page in
  match e with
  | NewFormatButtonClick =>
      after (ret tt this) (pending page ++ [AddAwaitsOptions]) page
  | CardFormatDeleteClick =>
      after (_onCardFormatDeleteClick this) (pending page) page
  | CardFormatRemoveConfirm =>
      let r := _onCardFormatRemoveConfirm_begin this in
      after r
        (match r with
         | Normal (Some i) _ => pending page ++ [DeleteAwaitsSplice i]
         | _ => pending page
         end) page
  | TabChange k =>
      after (handle (TabChange k) this) (pending page) page
  | Reload =>
      after (ret tt this) (pending page ++ [ReloadAwaitsOptions]) page
  end.

(** The settings backend serves the request of the call at position [k]:
    it answers [getOptions] with the list it holds, or applies the splice.
    It is taken to do so without an error. *)
Definition backend (k : nat) (page : Page) : Page :=
  let this := controller page in
  match nth_error (pending page) k with
  | Some AddAwaitsOptions =>
      after (ret tt this)
        (assign (pending page) k (AddHasOptions (settings_cardFormats this))) page
  | Some (AddAwaitsSplice index) =>
      after (modifyProfileSettings_splice index 0 [newCardFormat index] this)
        (assign (pending page) k AddSpliced) page
  | Some (DeleteAwaitsSplice cardFormatIndex) =>
      after (modifyProfileSettings_splice cardFormatIndex 1 [] this)
        (assign (pending page) k (DeleteSpliced cardFormatIndex)) page
  | Some ReloadAwaitsOptions =>
      after (ret tt this)
        (assign (pending page) k (ReloadHasOptions (settings_cardFormats this))) page
  | _ => page
  end.

(** The call at position [k], whose request was served, goes on up to its
    next [await] or to its end. *)
Definition resume (around : Surroundings) (k : nat) (page : Page) : Page :=
  let this := controller page in
  match nth_error (pending page) k with
  | Some (AddHasOptions options) =>
      let index := Js.length options in
      if index >=? 5 then
        after (set (fun this => with_cardFormatMaximumModal
                      (option_map (setVisible true) (_cardFormatMaximumModal this)) this)
                 this)
          (remove_at k (pending page)) page
      else
        after (ret tt this) (assign (pending page) k (AddAwaitsSplice index)) page
  | Some AddSpliced =>
      after (ret tt this) (assign (pending page) k ReloadAwaitsOptions) page
  | Some (DeleteSpliced cardFormatIndex) =>
      after (set (with_cardFormatIndex (cardFormatIndex - 1)) this)
        (assign (pending page) k ReloadAwaitsOptions) page
  | Some (ReloadHasOptions options) =>
      after (_onOptionsChanged around options this) (remove_at k (pending page)) page
  | _ => page
  end.

(** What happens next on the page.  A step that names a call that is not
    there, or not at that point, changes nothing. *)
Inductive Step : Type :=
| User (e : Event)
| Backend (k : nat)
| Resume (k : nat).

Definition step (around : Surroundings) (s : Step) (page : Page) : Page :=
  match s with
  | User e => user e page
  | Backend k => backend k page
  | Resume k => resume around k page
  end.

Fixpoint exec (around : Surroundings) (steps : list Step) (page : Page) : Page :=
  match steps with
  | [] => page
  | s :: more => exec around more (step around s page)
  end.






Definition sample_surroundings : Surroundings :=
  {| has_input := true; has_tab_label := true; observe_error := None |}.

End AnkiControllerAsync.

(** ** The field-set editor: handlers that overlap

    [_onAddFieldClick] and [_onFieldNameBlur] are [async]: each builds the
    new object from [this._fields], sends it to the settings store, stops at
    the [await], and only afterwards assigns [this._fields] and renders the
    rows.  A call in flight is recorded with what it sent; the backend storing the object and
    the call going on are steps of their own, in any order, between the
    events of the rows. *)
Module AnkiCardControllerAsync.
Import Settings AnkiCardController AnkiCardControllerEvents.

Section Collaborators.

Variable stringContainsAnyFieldMarker : string -> bool.
Variable getRequiredPermissionsForAnkiFieldValue : string -> list string.
Variable hasPermissions : list string -> bool.
Variable setPermissionsGranted : list string -> bool.

(** [_onAddFieldClick(_e)] up to its [await]: the object it sends.  [None]:
    the loop wanted more turns than there are fields. *)
Definition _onAddFieldClick_begin (this : CardController) : option AnkiFields :=
  match unused_name (_fields this) (List.length (_fields this)) "Field" 0 with
  | None => None
  | Some name =>
      let newField := {| value := ""%string; overwriteMode := "coalesce"%string |} in
      Some (Js.define (Js.spread [] (_fields this)) name newField)
  end.

(** [_onFieldNameBlur(index, e)] up to its [await], given the text of the
    name input: the object it sends, if it sends one, and the text of the
    input afterwards.  [None]: the row names a field the object does not
    have, so [removed] is [undefined]. *)
Definition _onFieldNameBlur_begin (index : Z) (node_value : string) (this : CardController)
    : option (option AnkiFields * string) :=
  let newName := Js.trim node_value in
  match Js.item (_fieldEntries this) index with
  | None => Some (None, node_value)
  | Some entry =>
      let oldName := fieldName entry in
      if String.eqb newName oldName then Some (None, node_value)
      else if String.eqb newName "" then Some (None, oldName)
      else if Js.hasOwnProperty (_fields this) newName then Some (None, oldName)
      else
        match Js.get (_fields this) oldName with
        | None => None
        | Some removed =>
            let rest := Js.rest (_fields this) oldName in
            Some (Some (Js.define (Js.spread [] rest) newName removed), node_value)
        end
  end.

(** What either handler does after its [await]:
    [this._fields = newFields; this._setupFields()]. *)
Definition assign_and_render (newFields : AnkiFields) (this : CardController) : CardController :=
  _setupFields stringContainsAnyFieldMarker getRequiredPermissionsForAnkiFieldValue
    hasPermissions setPermissionsGranted (with_fields newFields this).

(** A call in flight: the object it sent, and whether the store has it. *)
Inductive Call : Type :=
| SetSent (newFields : AnkiFields)
| SetStored (newFields : AnkiFields).

Record Page : Type := {
  editor : CardController;
  pending : list Call
}.

Definition start (this : CardController) : Page := {| editor := this; pending := [] |}.

(** What happens next: an event of the rows, the backend storing the object
    of the call at position [k], or that call going on.  A step that names a
    call that is not there, or not at that point, changes nothing. *)
Inductive Step : Type :=
| User (e : Event)
| Backend (k : nat)
| Resume (k : nat).

Definition step (s : Step) (page : Page) : option Page :=
  let this := editor page in
  match s with
  | User AddFieldClick =>
      match _onAddFieldClick_begin this with
      | None => None
      | Some newFields =>
          Some {| editor := this; pending := pending page ++ [SetSent newFields] |}
      end
  | User (FieldNameBlur index node_value) =>
      match _onFieldNameBlur_begin index node_value this with
      | None => None
      | Some (None, _) => Some page
      | Some (Some newFields, _) =>
          Some {| editor := this; pending := pending page ++ [SetSent newFields] |}
      end
  | User (PermissionsChanged permissions) =>
      Some {| editor := _onPermissionsChanged stringContainsAnyFieldMarker permissions this;
              pending := pending page |}
  | Backend k =>
      match nth_error (pending page) k with
      | Some (SetSent newFields) =>
          Some {| editor := modifyProfileSettings_set newFields this;
                  pending := AnkiControllerEvents.assign (pending page) k (SetStored newFields) |}
      | _ => Some page
      end
  | Resume k =>
      match nth_error (pending page) k with
      | Some (SetStored newFields) =>
          Some {| editor := assign_and_render newFields this;
                  pending := AnkiControllerAsync.remove_at k (pending page) |}
      | _ => Some page
      end
  end.

Fixpoint exec (steps : list Step) (page : Page) : option Page :=
  match steps with
  | [] => Some page
  | s :: more =>
      match step s page with
      | Some page' => exec more page'
      | None => None
      end
  end.

End Collaborators.

(** The object a call sent. *)
Definition sent (t : Call) : AnkiFields :=
  match t with SetSent newFields => newFields | SetStored newFields => newFields end.

(** What the editor keeps however its handlers overlap: the object it
    holds is a well-formed object and the rows show it, and the object in
    the settings store and the objects under way are well formed. *)
Definition sound (page : Page) : Prop :=
  Js.well_formed (_fields (editor page)) /\
  rendered (editor page) /\
  Js.well_formed (settings_fields (editor page)) /\
  Forall (fun t => Js.well_formed (sent t)) (pending page).

End AnkiCardControllerAsync.

(** * Properties of the JavaScript primitives *)
Module JsTheory.






Lemma item_remove_before {A : Type} (l : list A) (n : nat) (j : Z) :
  (n < List.length l)%nat -> j < Z.of_nat n ->
  Js.item (firstn n l ++ skipn (S n) l) j = Js.item l j.
Proof.
  intros Hn Hj. unfold Js.item. destruct (Z.ltb_spec j 0) as [E|E]; [reflexivity|].
  assert (Hlt : (Z.to_nat j < n)%nat) by lia.
  rewrite nth_error_app1 by (rewrite List.length_firstn; lia).
  rewrite nth_error_firstn.
  destruct (Z.to_nat j <? n)%nat eqn:F; [reflexivity|].
  apply Nat.ltb_ge in F; lia.
Qed.

Lemma item_remove_after {A : Type} (l : list A) (n : nat) (j : Z) :
  (n < List.length l)%nat -> Z.of_nat n <= j ->
  Js.item (firstn n l ++ skipn (S n) l) j = Js.item l (j + 1).
Proof.
  intros Hn Hj. unfold Js.item.
  destruct (Z.ltb_spec j 0) as [E|E]; [lia|]. destruct (Z.ltb_spec (j + 1) 0) as [E'|E']; [lia|].
  rewrite nth_error_app2 by (rewrite List.length_firstn; lia).
  rewrite List.length_firstn, Nat.min_l by lia.
  rewrite nth_error_skipn. f_equal. lia.
Qed.


(** *** Objects *)

Lemma array_index_canonical k n :
  Js.array_index k = Some n -> k = NilEmpty.string_of_uint (N.to_uint n).
Proof.
  unfold Js.array_index. destruct (NilEmpty.uint_of_string k) as [d|]; [|discriminate].
  cbv zeta.
  destruct (String.eqb_spec (NilEmpty.string_of_uint (N.to_uint (N.of_uint d))) k) as [E|E];
    [|discriminate].
  destruct (N.of_uint d <? 4294967295)%N; [|discriminate].
  cbn [andb]. intros H; injection H as <-. symmetry; exact E.
Qed.

Lemma array_index_inj k k' n :
  Js.array_index k = Some n -> Js.array_index k' = Some n -> k = k'.
Proof.
  intros H H'. rewrite (array_index_canonical _ _ H), (array_index_canonical _ _ H').
  reflexivity.
Qed.

Lemma hasOwnProperty_true {V : Type} (o : Js.Object V) k :
  Js.hasOwnProperty o k = true <-> In k (Js.keys o).
Proof.
  unfold Js.hasOwnProperty. rewrite existsb_exists. split.
  - intros (x & Hin & E). apply String.eqb_eq in E. subst x. exact Hin.
  - intros Hin. exists k. split; [exact Hin | apply String.eqb_refl].
Qed.

Lemma hasOwnProperty_false {V : Type} (o : Js.Object V) k :
  Js.hasOwnProperty o k = false <-> ~ In k (Js.keys o).
Proof.
  rewrite <- hasOwnProperty_true. destruct (Js.hasOwnProperty o k); split; intros H;
    congruence || (exfalso; apply H; reflexivity).
Qed.

Lemma distinct_cons k ks :
  Js.distinct (k :: ks) = true <-> ~ In k ks /\ Js.distinct ks = true.
Proof.
  cbn [Js.distinct]. rewrite andb_true_iff, negb_true_iff. split; intros (H1 & H2); split; trivial.
  - intros Hin. assert (existsb (String.eqb k) ks = true); [|congruence].
    apply existsb_exists. exists k. split; [exact Hin | apply String.eqb_refl].
  - destruct (existsb (String.eqb k) ks) eqn:E; [|reflexivity].
    apply existsb_exists in E. destruct E as (x & Hin & E).
    apply String.eqb_eq in E. subst x. contradiction.
Qed.


Lemma well_formed_cons {V : Type} k (v : V) (o : Js.Object V) :
  Js.well_formed ((k, v) :: o) <->
  ~ In k (Js.keys o) /\
  (forall k', In k' (Js.keys o) -> Js.may_precede k k' = true) /\
  Js.well_formed o.
Proof.
  unfold Js.well_formed. cbn [Js.keys List.map fst Js.indices_first].
  rewrite !andb_true_iff, distinct_cons, forallb_forall. tauto.
Qed.

Lemma well_formed_nil {V : Type} : Js.well_formed (@nil (string * V)).
Proof. reflexivity. Qed.

Lemma keys_app {V : Type} (o1 o2 : Js.Object V) :
  Js.keys (o1 ++ o2) = Js.keys o1 ++ Js.keys o2.
Proof. apply List.map_app. Qed.

(** In a well-formed list every key may precede every later key, and
    differs from it. *)
Lemma well_formed_app {V : Type} (p s : Js.Object V) :
  Js.well_formed (p ++ s) <->
  Js.well_formed p /\ Js.well_formed s /\
  (forall k k', In k (Js.keys p) -> In k' (Js.keys s) ->
                k <> k' /\ Js.may_precede k k' = true).
Proof.
  induction p as [|(k0, v0) p IH]; cbn [app].
  - split.
    + intros H. split; [apply well_formed_nil|]. split; [exact H|]. intros k k' [].
    + intros (_ & H & _). exact H.
  - rewrite !well_formed_cons, IH, keys_app. split.
    + intros (Hn & Hp & Hwp & Hws & Hps). repeat split.
      * intros Hin. apply Hn. apply in_or_app. left; exact Hin.
      * intros k' Hin. apply Hp. apply in_or_app. left; exact Hin.
      * exact Hwp.
      * exact Hws.
      * destruct H as [<-|H]; [|apply (Hps _ _ H H0)].
        intros <-. apply Hn. apply in_or_app. right; exact H0.
      * destruct H as [<-|H]; [|apply (Hps _ _ H H0)].
        apply Hp. apply in_or_app. right; exact H0.
    + intros ((Hn & Hp & Hwp) & Hws & Hps). repeat split.
      * intros Hin. apply in_app_or in Hin. destruct Hin as [Hin|Hin]; [contradiction|].
        destruct (Hps k0 k0 (or_introl eq_refl) Hin) as (Hne & _). congruence.
      * intros k' Hin. apply in_app_or in Hin. destruct Hin as [Hin|Hin]; [apply Hp; exact Hin|].
        apply (Hps k0 k' (or_introl eq_refl) Hin).
      * exact Hwp.
      * exact Hws.
      * apply (Hps k k'); [right; exact H | exact H0].
      * apply (Hps k k'); [right; exact H | exact H0].
Qed.


Lemma insert_index_append {V : Type} (o : Js.Object V) n k v :
  Js.array_index k = Some n ->
  (forall k', In k' (Js.keys o) -> Js.may_precede k' k = true) ->
  Js.insert_index o n k v = o ++ [(k, v)].
Proof.
  intros Hk. induction o as [|(k0, v0) o IH]; intros Hp; cbn [Js.insert_index app].
  - reflexivity.
  - assert (H0 := Hp k0 (or_introl eq_refl)). unfold Js.may_precede in H0. rewrite Hk in H0.
    destruct (Js.array_index k0) as [n0|]; [|discriminate].
    rewrite H0. f_equal. apply IH. intros k' Hin. apply Hp. right; exact Hin.
Qed.

(** A new key that may come last is added at the end. *)
Lemma define_append {V : Type} (o : Js.Object V) k v :
  ~ In k (Js.keys o) ->
  (forall k', In k' (Js.keys o) -> Js.may_precede k' k = true) ->
  Js.define o k v = o ++ [(k, v)].
Proof.
  intros Hn Hp. unfold Js.define.
  apply hasOwnProperty_false in Hn. rewrite Hn.
  destruct (Js.array_index k) as [n|] eqn:E; [|reflexivity].
  apply insert_index_append; assumption.
Qed.

(** A key that is no array index goes to the end. *)
Lemma define_fresh_name {V : Type} (o : Js.Object V) k v :
  ~ In k (Js.keys o) -> Js.array_index k = None -> Js.define o k v = o ++ [(k, v)].
Proof.
  intros Hn Hk. unfold Js.define. apply hasOwnProperty_false in Hn. rewrite Hn, Hk. reflexivity.
Qed.

Lemma spread_app {V : Type} (s : Js.Object V) : forall p,
  Js.well_formed (p ++ s) -> Js.spread p s = p ++ s.
Proof.
  induction s as [|(k, v) s IH]; intros p Hwf; cbn [Js.spread fold_left fst snd].
  - rewrite app_nil_r. reflexivity.
  - fold (Js.spread (Js.define p k v) s).
    assert (Hd : Js.define p k v = p ++ [(k, v)]).
    { apply well_formed_app in Hwf. destruct Hwf as (_ & _ & Hps).
      apply define_append.
      - intros Hin. destruct (Hps k k Hin (or_introl eq_refl)) as (Hne & _). congruence.
      - intros k' Hin. apply (Hps k' k Hin (or_introl eq_refl)). }
    rewrite Hd. rewrite IH.
    + rewrite <- app_assoc. reflexivity.
    + rewrite <- app_assoc. exact Hwf.
Qed.

(** Spreading an object into a fresh literal copies it as it is. *)
Lemma spread_copy {V : Type} (o : Js.Object V) :
  Js.well_formed o -> Js.spread [] o = o.
Proof. intros H. apply (spread_app o []). exact H. Qed.

Lemma keys_filter_in {V : Type} (f : string * V -> bool) (o : Js.Object V) k :
  In k (Js.keys (filter f o)) -> In k (Js.keys o).
Proof.
  unfold Js.keys. rewrite !in_map_iff. intros (x & E & Hin).
  apply filter_In in Hin. exists x. tauto.
Qed.

Lemma well_formed_filter {V : Type} (f : string * V -> bool) (o : Js.Object V) :
  Js.well_formed o -> Js.well_formed (filter f o).
Proof.
  induction o as [|(k, v) o IH]; intros Hwf; cbn [filter]; [exact Hwf|].
  apply well_formed_cons in Hwf. destruct Hwf as (Hn & Hp & Hwf).
  destruct (f (k, v)); [|apply IH; exact Hwf].
  apply well_formed_cons. repeat split.
  - intros Hin. apply Hn. eapply keys_filter_in; exact Hin.
  - intros k' Hin. apply Hp. eapply keys_filter_in; exact Hin.
  - apply IH; exact Hwf.
Qed.

(** The rest of a destructuring is the object without the excluded key. *)
Lemma rest_filter {V : Type} (o : Js.Object V) excluded :
  Js.well_formed o ->
  Js.rest o excluded = filter (fun kv => negb (String.eqb (fst kv) excluded)) o.
Proof. intros H. unfold Js.rest. apply spread_copy. apply well_formed_filter. exact H. Qed.

Lemma keys_rest {V : Type} (o : Js.Object V) excluded k :
  Js.well_formed o ->
  (In k (Js.keys (Js.rest o excluded)) <-> In k (Js.keys o) /\ k <> excluded).
Proof.
  intros H. rewrite rest_filter by exact H. unfold Js.keys. rewrite !in_map_iff. split.
  - intros ((k0, v0) & E & Hin). cbn in E. subst k0. apply filter_In in Hin.
    destruct Hin as (Hin & Hf). cbn in Hf. apply negb_true_iff, String.eqb_neq in Hf.
    split; [exists (k, v0); split; [reflexivity | exact Hin] | exact Hf].
  - intros (((k0, v0) & E & Hin) & Hne). cbn in E. subst k0.
    exists (k, v0). split; [reflexivity|]. apply filter_In. split; [exact Hin|].
    cbn. apply negb_true_iff, String.eqb_neq. exact Hne.
Qed.

Lemma get_filter_other {V : Type} (o : Js.Object V) excluded k :
  k <> excluded ->
  Js.get (filter (fun kv => negb (String.eqb (fst kv) excluded)) o) k = Js.get o k.
Proof.
  intros Hne. induction o as [|(k0, v0) o IH]; cbn [filter Js.get fst]; [reflexivity|].
  destruct (String.eqb_spec k0 excluded) as [E|E]; cbn [negb Js.get].
  - subst k0. destruct (String.eqb_spec excluded k); [congruence | exact IH].
  - rewrite IH. reflexivity.
Qed.

Lemma get_None {V : Type} (o : Js.Object V) k :
  Js.get o k = None <-> ~ In k (Js.keys o).
Proof.
  induction o as [|(k0, v0) o IH]; cbn [Js.get Js.keys List.map fst In].
  - tauto.
  - destruct (String.eqb_spec k0 k) as [E|E].
    + split; [discriminate | intros H; exfalso; apply H; left; exact E].
    + fold (Js.keys o). rewrite IH. tauto.
Qed.

Lemma get_Some_In {V : Type} (o : Js.Object V) k :
  In k (Js.keys o) -> exists v, Js.get o k = Some v.
Proof.
  intros Hin. destruct (Js.get o k) as [v|] eqn:E; [eauto|].
  apply get_None in E. contradiction.
Qed.


Lemma keys_insert_index {V : Type} (o : Js.Object V) n k v x :
  In x (Js.keys (Js.insert_index o n k v)) <-> x = k \/ In x (Js.keys o).
Proof.
  induction o as [|(k0, v0) o IH]; cbn [Js.insert_index].
  - cbn. intuition congruence.
  - destruct (Js.array_index k0) as [n0|]; [destruct (n0 <? n)%N|];
      cbn [Js.keys List.map fst In] in *; fold (Js.keys o) in *;
      fold (Js.keys (Js.insert_index o n k v)) in *; try rewrite IH; intuition congruence.
Qed.

Lemma filter_keep_all {V : Type} (o : Js.Object V) k :
  ~ In k (Js.keys o) -> filter (fun kv => negb (String.eqb (fst kv) k)) o = o.
Proof.
  intros Hn. apply forallb_filter_id. apply forallb_forall. intros (k0, v0) Hin. cbn.
  apply negb_true_iff, String.eqb_neq. intros ->. apply Hn.
  unfold Js.keys. apply in_map_iff. exists (k, v0). split; [reflexivity | exact Hin].
Qed.

Lemma filter_insert_index {V : Type} (o : Js.Object V) n k v :
  ~ In k (Js.keys o) ->
  filter (fun kv => negb (String.eqb (fst kv) k)) (Js.insert_index o n k v) = o.
Proof.
  induction o as [|(k0, v0) o IH]; intros Hn; cbn [Js.insert_index].
  - cbn. rewrite String.eqb_refl. reflexivity.
  - assert (Hne : k0 <> k) by (intros ->; apply Hn; left; reflexivity).
    assert (Hn' : ~ In k (Js.keys o)) by (intros H; apply Hn; right; exact H).
    assert (Hhead : filter (fun kv => negb (String.eqb (fst kv) k)) ((k, v) :: (k0, v0) :: o)
                    = (k0, v0) :: o).
    { cbn [filter fst]. rewrite String.eqb_refl. cbn [negb].
      apply (filter_keep_all ((k0, v0) :: o)). exact Hn. }
    destruct (Js.array_index k0) as [n0|]; [destruct (n0 <? n)%N|]; try exact Hhead.
    cbn [filter fst]. apply String.eqb_neq in Hne. rewrite Hne. cbn [negb].
    rewrite IH by exact Hn'. reflexivity.
Qed.

(** Defining a new key leaves the other properties as they were, in the
    order they were in. *)
Lemma filter_define_fresh {V : Type} (o : Js.Object V) k v :
  ~ In k (Js.keys o) ->
  filter (fun kv => negb (String.eqb (fst kv) k)) (Js.define o k v) = o.
Proof.
  intros Hn. unfold Js.define. rewrite (proj2 (hasOwnProperty_false o k) Hn).
  destruct (Js.array_index k) as [n|].
  - apply filter_insert_index. exact Hn.
  - rewrite filter_app. cbn [filter fst]. rewrite String.eqb_refl. cbn [negb].
    rewrite app_nil_r. apply filter_keep_all. exact Hn.
Qed.

Lemma keys_define_fresh {V : Type} (o : Js.Object V) k v x :
  ~ In k (Js.keys o) ->
  (In x (Js.keys (Js.define o k v)) <-> x = k \/ In x (Js.keys o)).
Proof.
  intros Hn. unfold Js.define. rewrite (proj2 (hasOwnProperty_false o k) Hn).
  destruct (Js.array_index k) as [n|].
  - apply keys_insert_index.
  - rewrite keys_app, in_app_iff. cbn. intuition congruence.
Qed.

Lemma get_define_fresh_other {V : Type} (o : Js.Object V) k v k' :
  ~ In k (Js.keys o) -> k' <> k -> Js.get (Js.define o k v) k' = Js.get o k'.
Proof.
  intros Hn Hne.
  rewrite <- (get_filter_other (Js.define o k v) k k' Hne).
  rewrite filter_define_fresh by exact Hn. reflexivity.
Qed.

Lemma get_insert_index_same {V : Type} (o : Js.Object V) n k v :
  ~ In k (Js.keys o) -> Js.get (Js.insert_index o n k v) k = Some v.
Proof.
  induction o as [|(k0, v0) o IH]; intros Hn; cbn [Js.insert_index].
  - cbn. rewrite String.eqb_refl. reflexivity.
  - assert (Hne : k0 <> k) by (intros ->; apply Hn; left; reflexivity).
    assert (Hn' : ~ In k (Js.keys o)) by (intros H; apply Hn; right; exact H).
    destruct (Js.array_index k0) as [n0|]; [destruct (n0 <? n)%N|];
      cbn [Js.get]; rewrite ?String.eqb_refl; try reflexivity.
    apply String.eqb_neq in Hne. rewrite Hne. apply IH. exact Hn'.
Qed.

Lemma get_app_last {V : Type} (o : Js.Object V) k v :
  ~ In k (Js.keys o) -> Js.get (o ++ [(k, v)]) k = Some v.
Proof.
  induction o as [|(k0, v0) o IH]; intros Hn; cbn [app Js.get].
  - rewrite String.eqb_refl. reflexivity.
  - destruct (String.eqb_spec k0 k) as [E|E].
    + exfalso. apply Hn. left; exact E.
    + apply IH. intros H; apply Hn; right; exact H.
Qed.

Lemma get_define_fresh_same {V : Type} (o : Js.Object V) k v :
  ~ In k (Js.keys o) -> Js.get (Js.define o k v) k = Some v.
Proof.
  intros Hn. unfold Js.define. rewrite (proj2 (hasOwnProperty_false o k) Hn).
  destruct (Js.array_index k) as [n|].
  - apply get_insert_index_same. exact Hn.
  - apply get_app_last. exact Hn.
Qed.

Lemma may_precede_trans_index k0 k x n0 n :
  Js.array_index k0 = Some n0 -> Js.array_index k = Some n -> (n < n0)%N ->
  Js.may_precede k0 x = true -> Js.may_precede k x = true.
Proof.
  unfold Js.may_precede. intros -> -> Hlt.
  destruct (Js.array_index x) as [nx|]; [|reflexivity].
  rewrite !N.ltb_lt. lia.
Qed.

Lemma insert_index_well_formed {V : Type} (o : Js.Object V) n k v :
  Js.array_index k = Some n -> ~ In k (Js.keys o) ->
  Js.well_formed o -> Js.well_formed (Js.insert_index o n k v).
Proof.
  intros Hk. induction o as [|(k0, v0) o IH]; intros Hn Hwf; cbn [Js.insert_index].
  - reflexivity.
  - assert (Hne : k0 <> k) by (intros ->; apply Hn; left; reflexivity).
    assert (Hn' : ~ In k (Js.keys o)) by (intros H; apply Hn; right; exact H).
    pose proof Hwf as Hwf0.
    apply well_formed_cons in Hwf. destruct Hwf as (Hn0 & Hp0 & Hwo).
    destruct (Js.array_index k0) as [n0|] eqn:E0.
    + destruct (N.ltb_spec n0 n) as [Hlt|Hge].
      * apply well_formed_cons. repeat split.
        -- rewrite keys_insert_index. intros [H|H]; [congruence | contradiction].
        -- intros k' Hin. apply keys_insert_index in Hin. destruct Hin as [->|Hin].
           ++ unfold Js.may_precede. rewrite E0, Hk. apply N.ltb_lt. exact Hlt.
           ++ apply Hp0. exact Hin.
        -- apply IH; assumption.
      * assert (Hlt : (n < n0)%N).
        { destruct (N.eq_dec n n0) as [<-|]; [|lia].
          exfalso. apply Hne. apply (array_index_inj _ _ n); assumption. }
        apply well_formed_cons. repeat split; [exact Hn| |exact Hwf0].
        intros k' Hin; cbn [Js.keys List.map fst In] in Hin; destruct Hin as [<-|Hin].
        -- unfold Js.may_precede. rewrite E0, Hk. apply N.ltb_lt. exact Hlt.
        -- apply (may_precede_trans_index k0 k k' n0 n E0 Hk Hlt). apply Hp0. exact Hin.
    + apply well_formed_cons. repeat split; [exact Hn| |exact Hwf0].
      intros k' Hin; cbn [Js.keys List.map fst In] in Hin; destruct Hin as [<-|Hin].
      * unfold Js.may_precede. rewrite E0, Hk. reflexivity.
      * specialize (Hp0 k' Hin). unfold Js.may_precede in *. rewrite E0 in Hp0. rewrite Hk.
        destruct (Js.array_index k'); [discriminate | reflexivity].
Qed.

Lemma append_name_well_formed {V : Type} (o : Js.Object V) k v :
  Js.array_index k = None -> ~ In k (Js.keys o) ->
  Js.well_formed o -> Js.well_formed (o ++ [(k, v)]).
Proof.
  intros Hk Hn Hwf. apply well_formed_app. repeat split.
  - exact Hwf.
  - intros <-. cbn in H0. destruct H0 as [<-|[]]. contradiction.
  - cbn in H0. destruct H0 as [<-|[]]. unfold Js.may_precede. rewrite Hk.
    destruct (Js.array_index k0); reflexivity.
Qed.

(** Defining a new key on an object gives an object. *)
Lemma define_fresh_well_formed {V : Type} (o : Js.Object V) k v :
  ~ In k (Js.keys o) -> Js.well_formed o -> Js.well_formed (Js.define o k v).
Proof.
  intros Hn Hwf. unfold Js.define. rewrite (proj2 (hasOwnProperty_false o k) Hn).
  destruct (Js.array_index k) as [n|] eqn:E.
  - apply insert_index_well_formed; assumption.
  - apply append_name_well_formed; assumption.
Qed.


(** *** Decimal numerals *)

Lemma decimal_inj a b : Js.decimal a = Js.decimal b -> a = b.
Proof.
  unfold Js.decimal. intros H. apply DecimalZ.to_int_inj.
  assert (E : Some (Z.to_int a) = Some (Z.to_int b))
    by (rewrite <- !NilEmpty.isi, H; reflexivity).
  injection E as E. exact E.
Qed.

Lemma decimal_nonempty a : Js.decimal a <> EmptyString.
Proof.
  unfold Js.decimal. intros H.
  pose proof (NilEmpty.isi (Z.to_int a)) as E. rewrite H in E. cbn in E.
  injection E as E.
  assert (Ha : a = 0) by (rewrite <- (DecimalZ.of_to a), <- E; reflexivity).
  subst a. discriminate E.
Qed.

(** A name that starts with a letter is no array index. *)
Lemma array_index_Field s : Js.array_index ("Field" ++ s) = None.
Proof.
  unfold Js.array_index. cbn [append NilEmpty.uint_of_string].
  destruct (NilEmpty.uint_of_string s); reflexivity.
Qed.


(** *** Regular expressions: [test] decides the language of the pattern *)

Lemma append_empty (s1 s2 : string) :
  (s1 ++ s2)%string = EmptyString -> s1 = EmptyString /\ s2 = EmptyString.
Proof. destruct s1; cbn; [tauto | discriminate]. Qed.

Lemma nullable_matches r : Js.nullable r = true <-> Js.matches r EmptyString.
Proof.
  split.
  - induction r; cbn [Js.nullable]; intros H; try discriminate.
    + constructor.
    + apply andb_true_iff in H. destruct H as (H1 & H2).
      change EmptyString with (EmptyString ++ EmptyString)%string.
      constructor; [apply IHr1 | apply IHr2]; assumption.
    + apply orb_true_iff in H. destruct H as [H|H].
      * apply Js.matches_Alt_l. apply IHr1; exact H.
      * apply Js.matches_Alt_r. apply IHr2; exact H.
    + constructor.
  - intros H. remember EmptyString as s eqn:Es.
    induction H; cbn [Js.nullable]; try discriminate; try reflexivity.
    + apply append_empty in Es. destruct Es as (E1 & E2).
      rewrite IHmatches1, IHmatches2 by assumption. reflexivity.
    + rewrite IHmatches by assumption. reflexivity.
    + rewrite IHmatches by assumption. apply orb_true_r.
Qed.

Lemma after_sound a r : forall s, Js.matches (Js.after a r) s -> Js.matches r (String a s).
Proof.
  induction r; cbn [Js.after]; intros s H.
  - inversion H.
  - inversion H.
  - destruct (Js.accepts c a) eqn:E; inversion H; subst. constructor. exact E.
  - destruct (existsb (fun c => Js.accepts c a) cs) eqn:E; inversion H; subst.
    apply existsb_exists in E. destruct E as (c & Hin & Hc).
    econstructor; eassumption.
  - assert (Hseq : forall s, Js.matches (Js.Seq (Js.after a r1) r2) s ->
                             Js.matches (Js.Seq r1 r2) (String a s)).
    { intros s0 H0. inversion H0; subst.
      change (String a (s1 ++ s2)) with (String a s1 ++ s2)%string.
      constructor; [apply IHr1; assumption | assumption]. }
    destruct (Js.nullable r1) eqn:En.
    + inversion H; subst.
      * apply Hseq; assumption.
      * change (String a s) with (EmptyString ++ String a s)%string.
        constructor; [apply nullable_matches; exact En | apply IHr2; assumption].
    + apply Hseq; exact H.
  - inversion H; subst.
    + apply Js.matches_Alt_l. apply IHr1; assumption.
    + apply Js.matches_Alt_r. apply IHr2; assumption.
  - inversion H; subst.
    change (String a (s1 ++ s2)) with (String a s1 ++ s2)%string.
    constructor; [apply IHr; assumption | assumption].
Qed.

Lemma after_complete a r s0 :
  Js.matches r s0 -> forall s, s0 = String a s -> Js.matches (Js.after a r) s.
Proof.
  induction 1 as [ | c b Hc | cs c b Hin Hc | r1 r2 s1 s2 H1 IH1 H2 IH2
                 | r1 r2 s0 H1 IH1 | r1 r2 s0 H2 IH2 | r | r s1 s2 H1 IH1 H2 IH2 ];
    intros s E; cbn [Js.after].
  - discriminate.
  - injection E as <- <-. rewrite Hc. constructor.
  - injection E as <- <-.
    replace (existsb (fun c0 => Js.accepts c0 b) cs) with true; [constructor|].
    symmetry. apply existsb_exists. exists c. split; assumption.
  - destruct s1 as [|b s1']; cbn in E.
    + assert (En : Js.nullable r1 = true) by (apply nullable_matches; exact H1).
      rewrite En. apply Js.matches_Alt_r. apply IH2. exact E.
    + injection E as -> <-.
      assert (Hs : Js.matches (Js.Seq (Js.after a r1) r2) (s1' ++ s2)%string)
        by (constructor; [apply IH1; reflexivity | exact H2]).
      destruct (Js.nullable r1); [apply Js.matches_Alt_l|]; exact Hs.
  - apply Js.matches_Alt_l. apply IH1. exact E.
  - apply Js.matches_Alt_r. apply IH2. exact E.
  - discriminate.
  - destruct s1 as [|b s1']; cbn in E.
    + apply IH2. exact E.
    + injection E as -> <-. constructor; [apply IH1; reflexivity | exact H2].
Qed.

(** [test] answers whether the whole string is in the language. *)
Theorem test_matches s : forall r, Js.test r s = true <-> Js.matches r s.
Proof.
  induction s as [|a s IH]; intros r; cbn [Js.test].
  - apply nullable_matches.
  - rewrite IH. split.
    + apply after_sound.
    + intros H. eapply after_complete; [exact H | reflexivity].
Qed.

End JsTheory.

(** * Properties of the format-list controller *)
Module AnkiControllerTheory.
Import Settings AnkiController.

Lemma frame_refl a : frame a a.
Proof. repeat split. Qed.

Lemma frame_trans a b c : frame a b -> frame b c -> frame a c.
Proof.
  unfold frame; intros (H1 & H2 & H3 & H4 & H5 & H6) (K1 & K2 & K3 & K4 & K5 & K6).
  repeat split; congruence.
Qed.

Lemma keeps_ret {A : Type} (a : A) : keeps (ret a).
Proof. intro; apply frame_refl. Qed.

Lemma keeps_throw {A : Type} e : keeps (@throw A e).
Proof. intro; apply frame_refl. Qed.

Lemma keeps_get {A : Type} (f : Controller -> A) : keeps (get f).
Proof. intro; apply frame_refl. Qed.

Lemma keeps_set f : (forall this, frame this (f this)) -> keeps (set f).
Proof. intros H this; apply H. Qed.

Lemma keeps_bind {A B : Type} (m : Method A) (k : A -> Method B) :
  keeps m -> (forall a, keeps (k a)) -> keeps (bind m k).
Proof.
  intros Hm Hk this. unfold bind. specialize (Hm this).
  destruct (m this) as [a this'|e this']; simpl in *.
  - eapply frame_trans; [exact Hm | apply Hk].
  - exact Hm.
Qed.

Lemma final_bind {A B : Type} (m : Method A) (k : A -> Method B) this :
  final (bind m k this) =
  match m this with
  | Normal a this' => final (k a this')
  | Throw _ this' => this'
  end.
Proof. unfold bind; destruct (m this); reflexivity. Qed.

Lemma keeps_on_control selector f : keeps (on_control selector f).
Proof.
  unfold on_control. apply keeps_bind; [apply keeps_get|]. intros [p|].
  - destruct (querySelector p selector).
    + apply keeps_set; intro; repeat split.
    + apply keeps_throw.
  - apply keeps_throw.
Qed.

Ltac keeps_step :=
  first [ apply keeps_on_control | apply keeps_get | apply keeps_ret | apply keeps_throw
        | solve [apply keeps_set; intro; repeat split]
        | apply keeps_bind; [|intro] ].

Lemma frame_after_set {B : Type} f (k : unit -> Method B) this :
  keeps (k tt) -> frame (f this) (final (bind (set f) k this)).
Proof. intros Hk. unfold bind, set. apply Hk. Qed.

Lemma _setCardFormatIndex_frame i menu this :
  frame (with_cardFormatIndex i this) (final (_setCardFormatIndex i menu this)).
Proof.
  unfold _setCardFormatIndex. apply frame_after_set.
  apply keeps_bind; [apply keeps_get|]. intros [p|]; [|apply keeps_throw].
  repeat keeps_step.
Qed.

Lemma _setCardFormatIndex_index i menu this :
  _cardFormatIndex (final (_setCardFormatIndex i menu this)) = i.
Proof. apply (_setCardFormatIndex_frame i menu this). Qed.

Lemma _setupTabs_loop_normal cardFormats : forall i this,
  exists this', _setupTabs_loop cardFormats i this = Normal tt this' /\ frame this this'.
Proof.
  induction cardFormats as [|cardFormat more IH]; intros i this; simpl.
  - exists this; split; [reflexivity | apply frame_refl].
  - unfold bind at 1. unfold _createCardFormatTab at 1. unfold set at 1.
    unfold bind at 1. unfold get at 1. unfold bind at 1.
    cbn [_cardFormatIndex with_ankiCardsTabs].
    destruct (i =? _cardFormatIndex this);
      [unfold set at 1 | unfold ret at 1];
      match goal with
      | |- context [_setupTabs_loop more (i + 1) ?s] =>
          destruct (IH (i + 1) s) as (this' & E & F)
      end;
      exists this'; (split; [exact E|]);
      (eapply frame_trans; [|exact F]); repeat split.
Qed.

Lemma _setupTabs_frame cardFormats this :
  frame (with_cardFormatIndex (clamped (_cardFormatIndex this) (Js.length cardFormats)) this)
        (final (_setupTabs cardFormats this)).
Proof.
  unfold _setupTabs.
  unfold bind at 1, set at 1. unfold bind at 1, set at 1. unfold bind at 1, set at 1.
  unfold bind at 1.
  match goal with
  | |- context [_setupTabs_loop cardFormats 0 ?s] =>
      destruct (_setupTabs_loop_normal cardFormats 0 s) as (this' & E & F); rewrite E
  end.
  unfold bind at 1, set at 1. unfold bind at 1, get at 1.
  eapply frame_trans; [|apply _setCardFormatIndex_frame].
  cbn [_cardFormatIndex with_cardFormatDeleteButton_disabled with_cardFormatIndex].
  destruct F as (F1 & F2 & F3 & F4 & F5 & F6).
  unfold clamped.
  repeat split; cbn; try congruence.
  all: rewrite ?F1, ?F2, ?F3, ?F4, ?F5, ?F6; cbn.
  all: destruct (_cardFormatIndex this >? Js.length cardFormats); cbn;
       match goal with |- context [if ?c then _ else _] => destruct c end; reflexivity.
Qed.

(** The reload reads the store, keeps a copy and clamps the cursor. *)
Lemma _updateOptions_final this :
  let this' := final (_updateOptions this) in
  settings_cardFormats this' = settings_cardFormats this /\
  _ankiOptions this' = Some (settings_cardFormats this) /\
  _cardFormatIndex this' =
    clamped (_cardFormatIndex this) (Js.length (settings_cardFormats this)) /\
  _cardFormatRemoveModal this' = _cardFormatRemoveModal this /\
  _cardFormatMaximumModal this' = _cardFormatMaximumModal this.
Proof.
  unfold _updateOptions, _onOptionsChanged, getOptions.
  unfold bind at 1, get at 1. unfold bind at 1, set at 1.
  destruct (_setupTabs_frame (settings_cardFormats this)
              (with_ankiOptions (Some (settings_cardFormats this)) this))
    as (F1 & F2 & F3 & F4 & F5 & F6).
  cbv zeta. repeat split; [exact F1 | exact F2 | exact F3 | exact F4 | exact F5].
Qed.







(** The first clamp of [_setupTabs] lets a cursor equal to the length pass:
    a reload on a list that has become shorter can leave the cursor one past
    the end. *)
Remark clamped_at_length len : 0 <= len -> clamped len len = len.
Proof.
  intros H. unfold clamped.
  destruct (Z.gtb_spec len len); [lia|]. destruct (Z.ltb_spec len 0); [lia | reflexivity].
Qed.



(** *** Deleting a card format *)





(** The guard against deleting the last format is in the button handler;
    [deleteCardFormat] has none of its own and, called on a list of one,
    empties it. *)
Remark deleteCardFormat_has_no_guard :
  settings_cardFormats
    (final (deleteCardFormat 0 (sample_controller [sample_format "A"] 0))) = [].
Proof. reflexivity. Qed.


(** *** The cursor after an insert or a delete *)




(** *** Selecting a card format *)

(** C4, where the code departs from it.  Without the panel element the call
    does not return: it throws. *)
Lemma setSelectedFormat_absent_panel_counterexample :
  ~ exists this',
      _setCardFormatIndex 1 None
        (with_ankiCardPrimary None
           (sample_controller [sample_format "A"; sample_format "B"] 0)) = Normal tt this'.
Proof. intros (this' & H). vm_compute in H. discriminate H. Qed.

(** C4, as the code has it.  [_setCardFormatIndex] leaves the cursor on the
    index it was given, however it ends; and when the panel element is absent
    it throws the error "Anki card primary element not found", the cursor
    being the only part of the controller it has changed by then. *)
Theorem setSelectedFormat_sets_index_then_throws :
  (forall i menu this, _cardFormatIndex (final (_setCardFormatIndex i menu this)) = i) /\
  (forall i menu this,
      _ankiCardPrimary this = None ->
      _setCardFormatIndex i menu this =
      Throw (Js.Error "Anki card primary element not found") (with_cardFormatIndex i this)).
Proof.
  split; [exact _setCardFormatIndex_index|].
  intros i menu this Hp. unfold _setCardFormatIndex, bind, set, get, throw.
  cbn [_ankiCardPrimary with_cardFormatIndex]. rewrite Hp. reflexivity.
Qed.

Lemma setSelectedFormat_sets_index_then_throws_witness :
  _setCardFormatIndex 1 None
    (with_ankiCardPrimary None (sample_controller [sample_format "A"; sample_format "B"] 0)) =
  Throw (Js.Error "Anki card primary element not found")
    (with_cardFormatIndex 1
       (with_ankiCardPrimary None (sample_controller [sample_format "A"; sample_format "B"] 0))).
Proof.
  apply (proj2 setSelectedFormat_sets_index_then_throws). reflexivity.
Defined.


(** *** Errors of the remote note API *)

(** C9, where the code departs from it.  An error with an empty message is
    shown as the rendering of the whole error object, here [Error.], not as
    the empty message with a period after it. *)
Lemma displayed_error_counterexample :
  textContent (_showAnkiError {| error_name := "Error"; message := "" |} sample_status)
    = "Error."%string /\
  textContent (_showAnkiError {| error_name := "Error"; message := "" |} sample_status)
    <> spec_displayed (message {| error_name := "Error"; message := "" |}).
Proof. split; [reflexivity | vm_compute; discriminate]. Qed.

Section RemoteApi.

Variable Thrown : Type.
Variable toError : Thrown -> JsError.
Variable _sortStringArray : list string -> list string.

(** C9, as the code has it.  What the remote API throws during the fetch of
    the deck names or of the model names is caught where the call is made:
    the helper resolves to the empty list of names paired with the error.
    [_getAnkiData], and with it [getAnkiData], always resolves, whatever the
    two calls did, and when a call threw the status line shows that error and
    takes the class [danger-text].  The text shown for an error whose message
    is not empty is the message, with a period after it unless it ends in
    [.], [!] or [?]; for an empty message it is the rendering of the error
    object under the same rule. *)
Theorem remote_errors_caught_and_displayed :
  (forall reason,
      _getDeckNames Thrown toError _sortStringArray (Rejected reason)
        = Fulfilled ([], Some (toError reason)) /\
      _getModelNames Thrown toError _sortStringArray (Rejected reason)
        = Fulfilled ([], Some (toError reason))) /\
  (forall getDeckNames getModelNames enabled this,
      exists data this',
        getAnkiData Thrown toError _sortStringArray getDeckNames getModelNames enabled this
          = Fulfilled (data, this')) /\
  (forall reason getModelNames enabled this,
      exists data this',
        getAnkiData Thrown toError _sortStringArray (Rejected reason) getModelNames enabled this
          = Fulfilled (data, this') /\
        deckNames data = [] /\
        this' = _showAnkiError (toError reason) (_setAnkiStatusChanging this)) /\
  (forall names reason enabled this,
      exists data this',
        getAnkiData Thrown toError _sortStringArray (Fulfilled names) (Rejected reason)
          enabled this = Fulfilled (data, this') /\
        modelNames data = [] /\
        this' = _showAnkiError (toError reason) (_setAnkiStatusChanging this)) /\
  (forall error this,
      message error <> EmptyString ->
      textContent (_showAnkiError error this) = spec_displayed (message error)) /\
  (forall error this,
      message error = EmptyString ->
      textContent (_showAnkiError error this) = spec_displayed (Error_toString error)) /\
  (forall error this,
      _ankiError (_showAnkiError error this) = Some error /\
      danger_text (_showAnkiError error this) = true).
Proof.
  split; [intros reason; split; reflexivity|].
  split.
  { intros [deck|e1] [model|e2] enabled this; eexists; eexists; reflexivity. }
  split.
  { intros reason [model|e2] enabled this; eexists; eexists;
      (split; [reflexivity|split; reflexivity]). }
  split.
  { intros names reason enabled this; eexists; eexists;
      (split; [reflexivity|split; reflexivity]). }
  split; [|split].
  - intros error this Hm. unfold _showAnkiError, spec_displayed. cbn [textContent].
    rewrite (proj2 (String.eqb_neq _ _) Hm).
    destruct (Js.ends_with_one_of _ (message error)); reflexivity.
  - intros error this Hm. unfold _showAnkiError, spec_displayed. cbn [textContent].
    rewrite Hm. cbn [String.eqb].
    destruct (Js.ends_with_one_of _ (Error_toString error)); reflexivity.
  - intros error this. split; reflexivity.
Qed.

End RemoteApi.

Lemma remote_errors_caught_and_displayed_witness :
  textContent
    (_showAnkiError {| error_name := "Error"; message := "Anki connection failure" |}
       sample_status) = "Anki connection failure."%string.
Proof.
  rewrite (proj1 (proj2 (proj2 (proj2 (proj2
             (remote_errors_caught_and_displayed JsError (fun e => e) (fun l => l))))))).
  - reflexivity.
  - discriminate.
Defined.

End AnkiControllerTheory.

(** * Properties of the field-set editor *)
Module AnkiCardControllerTheory.
Import Settings AnkiCardController.

Section Editor.

Variable stringContainsAnyFieldMarker : string -> bool.
Variable getRequiredPermissionsForAnkiFieldValue : string -> list string.
Variable hasPermissions : list string -> bool.
Variable setPermissionsGranted : list string -> bool.

Local Abbreviation setupFields :=
  (_setupFields stringContainsAnyFieldMarker getRequiredPermissionsForAnkiFieldValue
     hasPermissions setPermissionsGranted).
Local Abbreviation onFieldNameBlur :=
  (_onFieldNameBlur stringContainsAnyFieldMarker getRequiredPermissionsForAnkiFieldValue
     hasPermissions setPermissionsGranted).
Local Abbreviation onAddFieldClick :=
  (_onAddFieldClick stringContainsAnyFieldMarker getRequiredPermissionsForAnkiFieldValue
     hasPermissions setPermissionsGranted).

Lemma _setupFields_loop_names entries : forall index,
  List.map fieldName
    (_setupFields_loop stringContainsAnyFieldMarker getRequiredPermissionsForAnkiFieldValue
       hasPermissions setPermissionsGranted entries index) = Js.keys entries.
Proof.
  induction entries as [|(k, f) entries IH]; intros index; cbn; [reflexivity|].
  f_equal. apply IH.
Qed.

(** After [_setupFields] the rows are the fields of the object. *)
Lemma _setupFields_rendered this : rendered (setupFields this).
Proof. unfold rendered. cbn. apply _setupFields_loop_names. Qed.

Lemma entry_is_key this index entry :
  rendered this -> Js.item (_fieldEntries this) index = Some entry ->
  In (fieldName entry) (Js.keys (_fields this)).
Proof.
  unfold rendered, Js.item. intros Hr Hi. rewrite <- Hr.
  destruct (index <? 0); [discriminate|].
  apply in_map. eapply nth_error_In. exact Hi.
Qed.

(** What a rename that goes through does to the object. *)
Lemma rename_object (fields : AnkiFields) oldName newName removed :
  Js.well_formed fields ->
  Js.get fields oldName = Some removed ->
  newName <> oldName -> ~ In newName (Js.keys fields) ->
  let newFields := Js.define (Js.spread [] (Js.rest fields oldName)) newName removed in
  Js.well_formed newFields /\
  Js.get newFields newName = Some removed /\
  Js.get newFields oldName = None /\
  (forall k, k <> newName -> k <> oldName -> Js.get newFields k = Js.get fields k) /\
  filter (fun kv => negb (String.eqb (fst kv) newName)) newFields =
    filter (fun kv => negb (String.eqb (fst kv) oldName)) fields /\
  (forall k, In k (Js.keys newFields) <-> k = newName \/ (In k (Js.keys fields) /\ k <> oldName)).
Proof.
  intros Hwf Hget Hne Hfresh newFields.
  assert (Hrest : Js.rest fields oldName
                  = filter (fun kv => negb (String.eqb (fst kv) oldName)) fields)
    by (apply JsTheory.rest_filter; exact Hwf).
  assert (Hwr : Js.well_formed (Js.rest fields oldName))
    by (rewrite Hrest; apply JsTheory.well_formed_filter; exact Hwf).
  assert (Hcopy : Js.spread [] (Js.rest fields oldName) = Js.rest fields oldName)
    by (apply JsTheory.spread_copy; exact Hwr).
  assert (Hfr : ~ In newName (Js.keys (Js.rest fields oldName))).
  { rewrite JsTheory.keys_rest by exact Hwf. tauto. }
  subst newFields. rewrite Hcopy. repeat split.
  - apply JsTheory.define_fresh_well_formed; assumption.
  - apply JsTheory.get_define_fresh_same; exact Hfr.
  - rewrite JsTheory.get_define_fresh_other by (exact Hfr || congruence).
    apply JsTheory.get_None. rewrite JsTheory.keys_rest by exact Hwf. tauto.
  - intros k Hk1 Hk2. rewrite JsTheory.get_define_fresh_other by assumption.
    rewrite Hrest. apply JsTheory.get_filter_other. exact Hk2.
  - rewrite JsTheory.filter_define_fresh by exact Hfr. exact Hrest.
  - intros H. apply JsTheory.keys_define_fresh in H; [|exact Hfr].
    rewrite JsTheory.keys_rest in H by exact Hwf. exact H.
  - intros H. apply JsTheory.keys_define_fresh; [exact Hfr|].
    rewrite JsTheory.keys_rest by exact Hwf. exact H.
Qed.

(** C5.  [_onFieldNameBlur] trims the text of the name input.  A row index
    with no row, or a trimmed name equal to the row's name, changes nothing.
    A trimmed name that is empty or is a key of the object changes nothing
    in the editor and puts the old name back in the input.  Any other name
    re-keys the object: the new key has the field the old key had, value
    and overwrite mode alike, the old key is gone, every other key has the
    field it had, and the other properties are in the order they were in;
    the settings store receives the same object and the rows are rendered
    again from it. *)
Theorem renameField_rekeys this index node_value :
  Js.well_formed (_fields this) -> rendered this ->
  let newName := Js.trim node_value in
  (Js.item (_fieldEntries this) index = None ->
   onFieldNameBlur index node_value this = Some (this, node_value)) /\
  (forall entry, Js.item (_fieldEntries this) index = Some entry ->
     let oldName := fieldName entry in
     (newName = oldName ->
      onFieldNameBlur index node_value this = Some (this, node_value)) /\
     (newName <> oldName ->
      newName = EmptyString \/ In newName (Js.keys (_fields this)) ->
      onFieldNameBlur index node_value this = Some (this, oldName)) /\
     (newName <> oldName -> newName <> EmptyString ->
      ~ In newName (Js.keys (_fields this)) ->
      exists this' field,
        onFieldNameBlur index node_value this = Some (this', node_value) /\
        Js.get (_fields this) oldName = Some field /\
        Js.get (_fields this') newName = Some field /\
        Js.get (_fields this') oldName = None /\
        (forall k, k <> newName -> k <> oldName ->
                   Js.get (_fields this') k = Js.get (_fields this) k) /\
        filter (fun kv => negb (String.eqb (fst kv) newName)) (_fields this') =
          filter (fun kv => negb (String.eqb (fst kv) oldName)) (_fields this) /\
        settings_fields this' = _fields this' /\
        Js.well_formed (_fields this') /\ rendered this')).
Proof.
  intros Hwf Hr newName. split.
  - intros Hi. unfold _onFieldNameBlur. rewrite Hi. reflexivity.
  - intros entry Hi oldName.
    pose proof (entry_is_key this index entry Hr Hi) as Hin. fold oldName in Hin.
    unfold _onFieldNameBlur. rewrite Hi. fold newName. fold oldName.
    split; [|split].
    + intros E. rewrite (proj2 (String.eqb_eq _ _) E). reflexivity.
    + intros Hne Hbad. rewrite (proj2 (String.eqb_neq _ _) Hne).
      destruct Hbad as [E|Hk].
      * rewrite E. reflexivity.
      * destruct (String.eqb newName ""); [reflexivity|].
        rewrite (proj2 (JsTheory.hasOwnProperty_true _ _) Hk). reflexivity.
    + intros Hne Hnonempty Hfresh.
      rewrite (proj2 (String.eqb_neq _ _) Hne), (proj2 (String.eqb_neq _ _) Hnonempty).
      rewrite (proj2 (JsTheory.hasOwnProperty_false _ _) Hfresh).
      destruct (JsTheory.get_Some_In _ _ Hin) as (removed & Hget). rewrite Hget.
      destruct (rename_object (_fields this) oldName newName removed Hwf Hget Hne Hfresh)
        as (R1 & R2 & R3 & R4 & R5 & _).
      eexists. exists removed. split; [reflexivity|].
      cbn [_fields settings_fields _setupFields].
      repeat split; try assumption. apply _setupFields_rendered.
Qed.

(** C10, as the code has it.  A rename that goes through, to a name that
    is not an array index, leaves the renamed field as the last property of
    the object, and so as the last row. *)
Theorem renamed_field_last this index node_value entry :
  Js.well_formed (_fields this) -> rendered this ->
  Js.item (_fieldEntries this) index = Some entry ->
  Js.trim node_value <> fieldName entry ->
  Js.trim node_value <> EmptyString ->
  ~ In (Js.trim node_value) (Js.keys (_fields this)) ->
  Js.array_index (Js.trim node_value) = None ->
  exists this',
    onFieldNameBlur index node_value this = Some (this', node_value) /\
    spec_renamed_last this' (Js.trim node_value) /\
    last (List.map fieldName (_fieldEntries this')) EmptyString = Js.trim node_value.
Proof.
  intros Hwf Hr Hi Hne Hnonempty Hfresh Hname.
  pose proof (entry_is_key this index entry Hr Hi) as Hin.
  destruct (JsTheory.get_Some_In _ _ Hin) as (removed & Hget).
  unfold _onFieldNameBlur. rewrite Hi.
  rewrite (proj2 (String.eqb_neq _ _) Hne), (proj2 (String.eqb_neq _ _) Hnonempty).
  rewrite (proj2 (JsTheory.hasOwnProperty_false _ _) Hfresh), Hget.
  eexists. split; [reflexivity|].
  assert (Hwr : Js.well_formed (Js.rest (_fields this) (fieldName entry))).
  { rewrite JsTheory.rest_filter by exact Hwf. apply JsTheory.well_formed_filter. exact Hwf. }
  assert (Hlast : last (Js.keys (Js.define (Js.spread [] (Js.rest (_fields this) (fieldName entry)))
                                   (Js.trim node_value) removed)) EmptyString
                  = Js.trim node_value).
  { rewrite JsTheory.spread_copy by exact Hwr.
    rewrite JsTheory.define_fresh_name.
    - rewrite JsTheory.keys_app. apply last_last.
    - rewrite JsTheory.keys_rest by exact Hwf. tauto.
    - exact Hname. }
  split; [exact Hlast|].
  cbn [_fieldEntries _setupFields _fields]. rewrite _setupFields_loop_names. exact Hlast.
Qed.

(** *** Adding a field *)

Lemma candidate_succ k :
  0 <= k -> candidate (k + 1) = ("Field" ++ Js.decimal (k + 1))%string.
Proof. intros H. unfold candidate. destruct (Z.eqb_spec (k + 1) 0); [lia | reflexivity]. Qed.

Lemma candidate_inj a b : candidate a = candidate b -> a = b.
Proof.
  unfold candidate.
  destruct (Z.eqb_spec a 0) as [Ea|Ea]; destruct (Z.eqb_spec b 0) as [Eb|Eb]; intros H.
  - congruence.
  - exfalso. injection H as H. symmetry in H. exact (JsTheory.decimal_nonempty b H).
  - exfalso. injection H as H. exact (JsTheory.decimal_nonempty a H).
  - injection H as H. apply JsTheory.decimal_inj. exact H.
Qed.

Lemma array_index_candidate k : Js.array_index (candidate k) = None.
Proof.
  unfold candidate. destruct (k =? 0).
  - reflexivity.
  - apply JsTheory.array_index_Field.
Qed.

(** No more candidates are keys than there are keys. *)
Lemma candidates_bounded (ks : list string) k :
  0 <= k -> (forall j, 0 <= j < k -> In (candidate j) ks) ->
  (Z.to_nat k <= List.length ks)%nat.
Proof.
  intros Hk Hin.
  set (cs := List.map (fun j => candidate (Z.of_nat j)) (seq 0 (Z.to_nat k))).
  assert (Hlen : List.length cs = Z.to_nat k)
    by (subst cs; rewrite List.length_map, List.length_seq; reflexivity).
  rewrite <- Hlen. apply NoDup_incl_length.
  - subst cs. apply Injective_map_NoDup_in; [|apply seq_NoDup].
    intros x y _ _ E. apply candidate_inj in E. lia.
  - intros c Hc. subst cs. apply in_map_iff in Hc. destruct Hc as (j & <- & Hj).
    apply in_seq in Hj. apply Hin. lia.
Qed.

(** The loop of [_onAddFieldClick] ends within its fuel, on the first
    candidate that is not a key. *)
Lemma unused_name_first (fields : AnkiFields) : forall fuel k,
  0 <= k ->
  (forall j, 0 <= j < k -> In (candidate j) (Js.keys fields)) ->
  (List.length fields <= Z.to_nat k + fuel)%nat ->
  exists k',
    k <= k' /\
    unused_name fields fuel (candidate k) k = Some (candidate k') /\
    ~ In (candidate k') (Js.keys fields) /\
    (forall j, 0 <= j < k' -> In (candidate j) (Js.keys fields)).
Proof.
  induction fuel as [|fuel IH]; intros k Hk Hbelow Hfuel; cbn [unused_name];
    destruct (Js.hasOwnProperty fields (candidate k)) eqn:E.
  - exfalso. apply JsTheory.hasOwnProperty_true in E.
    assert (Hb : (Z.to_nat (k + 1) <= List.length (Js.keys fields))%nat).
    { apply candidates_bounded; [lia|]. intros j Hj.
      destruct (Z.eq_dec j k) as [->|]; [exact E | apply Hbelow; lia]. }
    unfold Js.keys in Hb. rewrite List.length_map in Hb. lia.
  - exists k. apply JsTheory.hasOwnProperty_false in E. repeat split; try assumption; lia.
  - apply JsTheory.hasOwnProperty_true in E.
    rewrite <- candidate_succ by exact Hk.
    destruct (IH (k + 1)) as (k' & H1 & H2 & H3 & H4).
    + lia.
    + intros j Hj. destruct (Z.eq_dec j k) as [->|]; [exact E | apply Hbelow; lia].
    + lia.
    + exists k'. repeat split; try assumption; lia.
  - exists k. apply JsTheory.hasOwnProperty_false in E. repeat split; try assumption; lia.
Qed.

Lemma _onAddFieldClick_first this :
  Js.well_formed (_fields this) ->
  exists k this',
    0 <= k /\
    onAddFieldClick this = Some this' /\
    ~ In (candidate k) (Js.keys (_fields this)) /\
    (forall j, 0 <= j < k -> In (candidate j) (Js.keys (_fields this))) /\
    _fields this' =
      _fields this ++ [(candidate k, {| value := ""%string; overwriteMode := "coalesce"%string |})] /\
    settings_fields this' = _fields this' /\
    Js.well_formed (_fields this') /\ rendered this'.
Proof.
  intros Hwf.
  destruct (unused_name_first (_fields this) (List.length (_fields this)) 0)
    as (k & Hk & Hrun & Hfresh & Hbelow); [lia | intros j Hj; lia | lia |].
  change (candidate 0) with "Field"%string in Hrun.
  exists k. unfold _onAddFieldClick. rewrite Hrun.
  rewrite JsTheory.spread_copy by exact Hwf.
  rewrite JsTheory.define_fresh_name by (exact Hfresh || apply array_index_candidate).
  eexists. split; [exact Hk|]. split; [reflexivity|].
  cbn [_fields settings_fields _setupFields].
  repeat split; try assumption.
  - apply JsTheory.append_name_well_formed;
      [apply array_index_candidate | exact Hfresh | exact Hwf].
  - apply _setupFields_rendered.
Qed.


(** *** Validating a row *)

Lemma is_string_true o s : is_string o s = true <-> o = Some s.
Proof.
  unfold is_string. destruct o as [s'|].
  - rewrite String.eqb_eq. split; congruence.
  - split; discriminate.
Qed.

(** C8.  [_validateField] writes the flag [dataset.invalid] of the row and
    nothing else, and the flag is ["true"] or ["false"].  It is ["true"]
    exactly when the row's [dataset.hasPermissions] is ["false"], or the row
    is row 0 and its text holds no field marker.  After
    [_validateFieldPermissions] that is: exactly when the text requires
    permissions and the browser did not grant them, or the row is row 0 and
    its text holds no field marker. *)
Theorem validateRow_flag node index :
  let node' := _validateField stringContainsAnyFieldMarker node index in
  (dataset_invalid node' = Some "true"%string \/ dataset_invalid node' = Some "false"%string) /\
  (dataset_invalid node' = Some "true"%string <->
     dataset_hasPermissions node = Some "false"%string \/
     (index = 0 /\ stringContainsAnyFieldMarker (input_value node) = false)) /\
  input_value node' = input_value node /\
  dataset_requiredPermission node' = dataset_requiredPermission node /\
  dataset_hasPermissions node' = dataset_hasPermissions node /\
  (forall request : bool,
     let permissions := getRequiredPermissionsForAnkiFieldValue (input_value node) in
     let granted :=
       if request then setPermissionsGranted permissions else hasPermissions permissions in
     dataset_invalid
       (_validateFieldPermissions stringContainsAnyFieldMarker
          getRequiredPermissionsForAnkiFieldValue hasPermissions setPermissionsGranted
          node index request) = Some "true"%string <->
     (permissions <> [] /\ granted = false) \/
     (index = 0 /\ stringContainsAnyFieldMarker (input_value node) = false)).
Proof.
  assert (Hflag : forall n,
    dataset_invalid (_validateField stringContainsAnyFieldMarker n index) = Some "true"%string <->
    dataset_hasPermissions n = Some "false"%string \/
    (index = 0 /\ stringContainsAnyFieldMarker (input_value n) = false)).
  { intros n. unfold _validateField. cbn [dataset_invalid].
    destruct (is_string (dataset_hasPermissions n) "false") eqn:Ep; cbn [negb andb].
    - apply is_string_true in Ep. cbn. tauto.
    - assert (Hp : dataset_hasPermissions n <> Some "false"%string)
        by (intros H; apply is_string_true in H; congruence).
      destruct (Z.eqb_spec index 0) as [E|E]; cbn [andb];
        destruct (stringContainsAnyFieldMarker (input_value n)); cbn;
        intuition congruence. }
  cbv zeta. split; [|split; [apply Hflag|]].
  - unfold _validateField. cbn [dataset_invalid].
    match goal with |- context [string_of_bool ?b] => destruct b end; cbn; tauto.
  - split; [reflexivity|]. split; [reflexivity|]. split; [reflexivity|].
    intros request. unfold _validateFieldPermissions. cbv zeta. rewrite Hflag.
    destruct (getRequiredPermissionsForAnkiFieldValue (input_value node)) as [|p ps] eqn:Ep.
    + cbn. intuition congruence.
    + replace (Js.length (p :: ps) >? 0) with true
        by (symmetry; apply Z.gtb_lt; unfold Js.length; cbn [List.length]; lia).
      cbn [dataset_hasPermissions input_value].
      destruct (if request then setPermissionsGranted (p :: ps) else hasPermissions (p :: ps));
        cbn; intuition congruence.
Qed.

End Editor.

Lemma renameField_rekeys_witness :
  exists this',
    _onFieldNameBlur sample_contains_marker sample_permissions sample_granted sample_request
      0 " Word "%string (sample_editor sample_fields) = Some (this', " Word "%string) /\
    Js.get (_fields this') "Word"%string = Js.get sample_fields "Front"%string.
Proof.
  assert (Hwf : Js.well_formed (_fields (sample_editor sample_fields))) by reflexivity.
  assert (Hr : rendered (sample_editor sample_fields)) by reflexivity.
  destruct (proj2 (renameField_rekeys sample_contains_marker sample_permissions sample_granted
                     sample_request (sample_editor sample_fields) 0 " Word "%string Hwf Hr)
              _ eq_refl) as (_ & _ & H).
  destruct H as (this' & field & H1 & H2 & H3 & _).
  - vm_compute. discriminate.
  - vm_compute. discriminate.
  - vm_compute. intuition discriminate.
  - exists this'. split; [exact H1|].
    transitivity (Some field); [exact H3 | symmetry; exact H2].
Defined.



(** C10, where the code departs from it.  Renaming the first field to ["1"]
    goes through, and the renamed field is the first property of the new
    object, not the last: an array-index key comes before every other key. *)
Lemma renamed_field_last_counterexample :
  exists this',
    _onFieldNameBlur sample_contains_marker sample_permissions sample_granted sample_request
      0 "1"%string (sample_editor sample_fields) = Some (this', "1"%string) /\
    Js.keys (_fields this') = ["1"; "Back"]%string /\
    ~ spec_renamed_last this' "1"%string.
Proof.
  eexists. split; [vm_compute; reflexivity|]. split; [reflexivity|].
  vm_compute. discriminate.
Qed.

Lemma renamed_field_last_witness :
  exists this',
    _onFieldNameBlur sample_contains_marker sample_permissions sample_granted sample_request
      0 " Word "%string (sample_editor sample_fields) = Some (this', " Word "%string) /\
    Js.keys (_fields this') = ["Back"; "Word"]%string.
Proof.
  destruct (renamed_field_last sample_contains_marker sample_permissions sample_granted
              sample_request (sample_editor sample_fields) 0 " Word "%string
              {| fieldName := "Front"%string;
                 inputField := {| input_value := "{expression}"%string;
                                  dataset_requiredPermission := None;
                                  dataset_hasPermissions := None;
                                  dataset_invalid := Some "false"%string |} |})
    as (this' & H1 & H2 & _);
    [ reflexivity | reflexivity | reflexivity | vm_compute; discriminate
    | vm_compute; discriminate | vm_compute; intuition discriminate | reflexivity | ].
  exists this'. split; [exact H1|].
  clear H2. vm_compute in H1. injection H1 as <-. reflexivity.
Defined.




(** *** The default marker of a field *)

Lemma class_is_separator a :
  existsb (fun c => Js.accepts c a) ["-"; "_"; " "]%char = is_separator a.
Proof. destruct a as [[] [] [] [] [] [] [] []]; reflexivity. Qed.

Lemma matches_Eps_inv s : Js.matches Js.Eps s -> s = EmptyString.
Proof. intros H; inversion H; reflexivity. Qed.

Lemma matches_Char_inv c s :
  Js.matches (Js.Char c) s -> exists a, s = String a EmptyString /\ Js.accepts c a = true.
Proof. intros H; inversion H; subst; eauto. Qed.

Lemma matches_separator_inv s :
  Js.matches (Js.Class ["-"; "_"; " "]%char) s ->
  exists a, s = String a EmptyString /\ is_separator a = true.
Proof.
  intros H; inversion H; subst. exists a. split; [reflexivity|].
  rewrite <- class_is_separator. apply existsb_exists. eauto.
Qed.

Lemma matches_separator a :
  is_separator a = true -> Js.matches (Js.Class ["-"; "_"; " "]%char) (String a EmptyString).
Proof.
  intros H. rewrite <- class_is_separator in H. apply existsb_exists in H.
  destruct H as (c & Hin & Hc). econstructor; eassumption.
Qed.

Lemma matches_Seq_inv r1 r2 s :
  Js.matches (Js.Seq r1 r2) s ->
  exists s1 s2, s = (s1 ++ s2)%string /\ Js.matches r1 s1 /\ Js.matches r2 s2.
Proof. intros H; inversion H; subst; eauto. Qed.

(** A run of separators before a field name the rest of the name matches. *)
Lemma run_then_name r s1 :
  Js.matches r s1 -> r = Js.Star (Js.Class ["-"; "_"; " "]%char) ->
  forall name s2,
    spec_name_matches (String "-" name) s2 ->
    spec_name_matches (String "-" name) (s1 ++ s2)%string.
Proof.
  induction 1 as [ | | | | | | r0 | r0 t1 t2 H1 _ H2 IH2 ]; intros E name rest Hs;
    try discriminate.
  - exact Hs.
  - injection E as ->.
    apply matches_separator_inv in H1. destruct H1 as (a & -> & Ha).
    cbn [append]. apply spec_name_run; [exact Ha|]. apply IH2; [reflexivity | exact Hs].
Qed.

Lemma pattern_sound name : forall r fieldName,
  name_pattern name = Some r -> Js.matches r fieldName -> spec_name_matches name fieldName.
Proof.
  induction name as [|c name IH]; intros r fieldName Hp Hm; cbn [name_pattern] in Hp.
  - injection Hp as <-. apply matches_Eps_inv in Hm. subst. constructor.
  - destruct (name_pattern name) as [r'|]; [|discriminate].
    destruct (Ascii.eqb_spec c "-") as [->|Hc].
    + injection Hp as <-. apply matches_Seq_inv in Hm.
      destruct Hm as (s1 & s2 & -> & H1 & H2).
      eapply run_then_name; [exact H1 | reflexivity|].
      apply spec_name_run_end. eapply IH; [reflexivity | exact H2].
    + destruct (Js.is_syntax_character c); [discriminate|].
      injection Hp as <-. apply matches_Seq_inv in Hm.
      destruct Hm as (s1 & s2 & -> & H1 & H2).
      apply matches_Char_inv in H1. destruct H1 as (a & -> & Ha).
      cbn [append]. apply spec_name_letter; [exact Hc | exact Ha|].
      eapply IH; [reflexivity | exact H2].
Qed.

Lemma pattern_complete name fieldName :
  spec_name_matches name fieldName ->
  forall r, name_pattern name = Some r -> Js.matches r fieldName.
Proof.
  induction 1 as [ | c a name fieldName Hc Ha Hs IH | name fieldName Hs IH
                 | a name fieldName Ha Hs IH ]; intros r Hp; cbn [name_pattern] in Hp.
  - injection Hp as <-. constructor.
  - destruct (name_pattern name) as [r'|]; [|discriminate].
    destruct (Ascii.eqb_spec c "-") as [E|_]; [contradiction|].
    destruct (Js.is_syntax_character c); [discriminate|].
    injection Hp as <-.
    change (String a fieldName) with (String a EmptyString ++ fieldName)%string.
    constructor; [constructor; exact Ha | apply IH; reflexivity].
  - destruct (name_pattern name) as [r'|]; [|discriminate].
    cbn in Hp. injection Hp as <-.
    change fieldName with (EmptyString ++ fieldName)%string.
    constructor; [constructor | apply IH; reflexivity].
  - pose proof (IH r Hp) as Hm.
    destruct (name_pattern name) as [r'|]; [|discriminate].
    cbn in Hp. injection Hp as <-.
    apply matches_Seq_inv in Hm. destruct Hm as (s1 & s2 & -> & H1 & H2).
    change (String a (s1 ++ s2)) with ((String a EmptyString ++ s1) ++ s2)%string.
    constructor; [|exact H2].
    constructor; [apply matches_separator; exact Ha | exact H1].
Qed.

(** The pattern of a name tests the comparison of the specification. *)
Lemma name_test_spec name fieldName :
  plain_name name = true ->
  (name_test name fieldName = true <-> spec_name_matches name fieldName).
Proof.
  intros Hplain. unfold name_test.
  assert (Hr : exists r, name_pattern name = Some r).
  { induction name as [|c name IH]; cbn [name_pattern]; [eauto|].
    cbn [plain_name] in Hplain. apply andb_true_iff in Hplain. destruct Hplain as (Hc & Hn).
    destruct (IH Hn) as (r' & ->). apply negb_true_iff in Hc. rewrite Hc.
    destruct (Ascii.eqb c "-"); eauto. }
  destruct Hr as (r & Hr). rewrite Hr, JsTheory.test_matches. split.
  - apply pattern_sound. exact Hr.
  - intros H. eapply pattern_complete; [exact H | exact Hr].
Qed.


Lemma test_Never s : Js.test Js.Never s = false.
Proof. induction s; cbn; [reflexivity | assumption]. Qed.

Lemma test_Alt s : forall r1 r2, Js.test (Js.Alt r1 r2) s = Js.test r1 s || Js.test r2 s.
Proof. induction s as [|a s IH]; intros r1 r2; cbn; [reflexivity | apply IH]. Qed.

Lemma plain_name_pattern name :
  plain_name name = true -> exists r, name_pattern name = Some r.
Proof.
  induction name as [|c name IH]; cbn [name_pattern plain_name]; intros H; [eauto|].
  apply andb_true_iff in H. destruct H as (Hc & Hn).
  destruct (IH Hn) as (r' & ->). apply negb_true_iff in Hc. rewrite Hc.
  destruct (Ascii.eqb c "-"); eauto.
Qed.

(** The alternation of the names passes the test when one of them does. *)
Lemma names_pattern_test names :
  forallb plain_name names = true ->
  exists r, names_pattern names = Some r /\
            forall fieldName,
              Js.test r fieldName = existsb (fun name => name_test name fieldName) names.
Proof.
  induction names as [|name names IH]; cbn [forallb names_pattern existsb]; intros H.
  - exists Js.Never. split; [reflexivity | apply test_Never].
  - apply andb_true_iff in H. destruct H as (Hn & Hs).
    destruct (plain_name_pattern name Hn) as (r & Hr).
    destruct (IH Hs) as (rs & Hrs & Ht).
    rewrite Hr, Hrs. exists (Js.Alt r rs). split; [reflexivity|].
    intros fieldName. rewrite test_Alt, Ht. unfold name_test at 2. rewrite Hr. reflexivity.
Qed.

Lemma Map_get_In {V : Type} (m : Js.Map string V) k v :
  Js.Map_get m k = Some v -> In v (List.map snd m).
Proof.
  induction m as [|(k0, v0) m IH]; cbn [Js.Map_get List.map snd In]; [discriminate|].
  destruct (String.eqb k0 k).
  - intros H; injection H as <-. left; reflexivity.
  - intros H. right. apply IH. exact H.
Qed.

Lemma Map_get_entry {V : Type} (m : Js.Map string V) k v :
  Js.Map_get m k = Some v -> In (k, v) m.
Proof.
  induction m as [|(k0, v0) m IH]; cbn [Js.Map_get In]; [discriminate|].
  destruct (String.eqb_spec k0 k) as [->|_].
  - intros H; injection H as <-. left; reflexivity.
  - intros H. right. apply IH. exact H.
Qed.

Lemma names_of_plain marker :
  plain_name marker = true -> forallb plain_name (names_of marker) = true.
Proof.
  intros Hm. unfold names_of. cbn [forallb]. rewrite Hm. cbn [andb].
  destruct (Js.Map_get markerAliases marker) as [aliases|] eqn:E; [|reflexivity].
  apply Map_get_In in E.
  assert (Hall : forallb (forallb plain_name) (List.map snd markerAliases) = true)
    by (vm_compute; reflexivity).
  rewrite forallb_forall in Hall. apply Hall. exact E.
Qed.

Lemma marker_test_spec marker fieldName :
  plain_name marker = true ->
  (marker_test marker fieldName = true <-> spec_marker_matches marker fieldName).
Proof.
  intros Hm. pose proof (names_of_plain marker Hm) as Hp. rewrite forallb_forall in Hp.
  unfold marker_test, spec_marker_matches. rewrite existsb_exists.
  split; intros (name & Hin & H); exists name; (split; [exact Hin|]);
    apply (name_test_spec name fieldName (Hp name Hin)); exact H.
Qed.

(** One turn of the loop of [_getDefaultFieldValue]. *)
Lemma _getDefaultFieldValue_loop_cons marker more fieldName :
  plain_name marker = true ->
  _getDefaultFieldValue_loop (marker :: more) fieldName =
  if marker_test marker fieldName then Some ("{" ++ marker ++ "}")%string
  else _getDefaultFieldValue_loop more fieldName.
Proof.
  intros Hm. cbn [_getDefaultFieldValue_loop].
  destruct (names_pattern_test (names_of marker) (names_of_plain marker Hm)) as (r & -> & Ht).
  rewrite Ht. reflexivity.
Qed.

Lemma _getDefaultFieldValue_loop_spec markers fieldName :
  forallb plain_name markers = true ->
  exists v, _getDefaultFieldValue_loop markers fieldName = Some v /\
            spec_default markers fieldName v.
Proof.
  induction markers as [|marker more IH]; cbn [forallb]; intros H.
  - exists EmptyString. split; [reflexivity | constructor].
  - apply andb_true_iff in H. destruct H as (Hm & Hs).
    rewrite (_getDefaultFieldValue_loop_cons marker more fieldName Hm).
    destruct (marker_test marker fieldName) eqn:E.
    + eexists. split; [reflexivity|]. apply spec_default_first.
      apply marker_test_spec; assumption.
    + destruct (IH Hs) as (v & Hv & Hd). exists v. split; [exact Hv|].
      apply spec_default_next; [|exact Hd].
      intros Hc. apply (marker_test_spec marker fieldName Hm) in Hc. congruence.
Qed.

Lemma _getDefaultFieldValue_loop_none markers fieldName :
  forallb plain_name markers = true ->
  (forall m, In m markers -> marker_test m fieldName = false) ->
  _getDefaultFieldValue_loop markers fieldName = Some EmptyString.
Proof.
  induction markers as [|marker more IH]; cbn [forallb]; intros H Hno; [reflexivity|].
  apply andb_true_iff in H. destruct H as (Hm & Hs).
  rewrite (_getDefaultFieldValue_loop_cons marker more fieldName Hm).
  rewrite (Hno marker (or_introl eq_refl)). apply IH; [exact Hs|].
  intros m Hin. apply Hno. right; exact Hin.
Qed.

Lemma _getDefaultFieldValue_loop_only markers fieldName target :
  forallb plain_name markers = true ->
  In target markers ->
  marker_test target fieldName = true ->
  (forall m, In m markers -> m <> target -> marker_test m fieldName = false) ->
  _getDefaultFieldValue_loop markers fieldName = Some ("{" ++ target ++ "}")%string.
Proof.
  induction markers as [|marker more IH]; cbn [forallb]; intros H Hin Ht Hno; [destruct Hin|].
  apply andb_true_iff in H. destruct H as (Hm & Hs).
  rewrite (_getDefaultFieldValue_loop_cons marker more fieldName Hm).
  destruct (string_dec marker target) as [->|Hne].
  - rewrite Ht. reflexivity.
  - rewrite (Hno marker (or_introl eq_refl) Hne).
    apply IH; [exact Hs | | exact Ht |].
    + destruct Hin as [E|Hin]; [contradiction | exact Hin].
    + intros m Hm' Hne'. apply Hno; [right; exact Hm' | exact Hne'].
Qed.

(** When no alias of a marker outside [skip] passes the test, a marker
    outside [skip] passes it by its own name only. *)
Lemma marker_test_own_name fieldName (skip : string -> bool) m :
  forallb (fun kv => skip (fst kv)
                     || negb (existsb (fun name => name_test name fieldName) (snd kv)))
          markerAliases = true ->
  skip m = false -> marker_test m fieldName = name_test m fieldName.
Proof.
  intros Htable Hm. unfold marker_test, names_of. cbn [existsb].
  destruct (Js.Map_get markerAliases m) as [aliases|] eqn:E; [|apply orb_false_r].
  apply Map_get_entry in E. rewrite forallb_forall in Htable.
  specialize (Htable _ E). cbn [fst snd] in Htable.
  rewrite Hm in Htable. cbn [orb] in Htable.
  apply negb_true_iff in Htable. rewrite Htable. apply orb_false_r.
Qed.

(** The default of the specification is determined by the table and the
    field name. *)
Lemma spec_default_functional markers fieldName v :
  spec_default markers fieldName v ->
  forall v', spec_default markers fieldName v' -> v = v'.
Proof.
  induction 1 as [ f | marker more f Hm | marker more f v0 Hn Hd IH ];
    intros v' H'; inversion H'; subst; try reflexivity; try contradiction.
  apply IH. assumption.
Qed.

(** The table names [popup-selection-text] twice, and a [Map] keeps the
    value it was given last: [selection-text] is an alias of that marker and
    [selection] is not. *)
Remark popup_selection_text_aliases :
  names_of "popup-selection-text" = ["popup-selection-text"; "selection-text"]%string.
Proof. reflexivity. Qed.

Section MarkerTable.

Variable getStandardFieldMarkers : DictionaryEntryType -> list string.

(** C7.  For a row other than the first and no old fields,
    [_getDefaultFieldValue] goes through the markers of the table in order
    and compares the field name with the marker's name and with each of its
    aliases, without regard to case and with any run of hyphens, underscores
    and spaces, the empty run included, where the name has a hyphen.  The
    first marker that matches is the answer, in braces; when none matches
    the answer is the empty string.  With [reading] in the table and no
    marker spelled like the field name itself, [Term-Reading] gives
    [{reading}] and [unknown-field] gives the empty string.  The marker names
    of the table are taken to be free of pattern syntax characters. *)
Theorem default_marker_lookup :
  (forall fieldName index t,
      index <> 0 ->
      forallb plain_name (getStandardFieldMarkers t) = true ->
      exists v,
        _getDefaultFieldValue getStandardFieldMarkers fieldName index t None = Some v /\
        spec_default (getStandardFieldMarkers t) fieldName v) /\
  (forall index t,
      index <> 0 ->
      forallb plain_name (getStandardFieldMarkers t) = true ->
      In "reading"%string (getStandardFieldMarkers t) ->
      forallb (fun m => negb (name_test m "Term-Reading")) (getStandardFieldMarkers t) = true ->
      _getDefaultFieldValue getStandardFieldMarkers "Term-Reading" index t None
        = Some "{reading}"%string) /\
  (forall index t,
      index <> 0 ->
      forallb plain_name (getStandardFieldMarkers t) = true ->
      forallb (fun m => negb (name_test m "unknown-field")) (getStandardFieldMarkers t) = true ->
      _getDefaultFieldValue getStandardFieldMarkers "unknown-field" index t None
        = Some EmptyString).
Proof.
  assert (Hstep : forall fieldName index t,
            index <> 0 ->
            _getDefaultFieldValue getStandardFieldMarkers fieldName index t None =
            _getDefaultFieldValue_loop (getStandardFieldMarkers t) fieldName).
  { intros fieldName index t Hi. unfold _getDefaultFieldValue.
    destruct (Z.eqb_spec index 0); [contradiction | reflexivity]. }
  split; [|split].
  - intros fieldName index t Hi Hp. rewrite (Hstep _ _ _ Hi).
    apply _getDefaultFieldValue_loop_spec. exact Hp.
  - intros index t Hi Hp Hin Hown. rewrite (Hstep _ _ _ Hi).
    apply (_getDefaultFieldValue_loop_only _ "Term-Reading" "reading");
      [exact Hp | exact Hin | vm_compute; reflexivity|].
    intros m Hm Hne.
    rewrite (marker_test_own_name "Term-Reading" (fun k => String.eqb k "reading") m);
      [|vm_compute; reflexivity | apply String.eqb_neq; exact Hne].
    rewrite forallb_forall in Hown. apply negb_true_iff. apply Hown. exact Hm.
  - intros index t Hi Hp Hown. rewrite (Hstep _ _ _ Hi).
    apply _getDefaultFieldValue_loop_none; [exact Hp|].
    intros m Hm.
    rewrite (marker_test_own_name "unknown-field" (fun _ => false) m);
      [|vm_compute; reflexivity | reflexivity].
    rewrite forallb_forall in Hown. apply negb_true_iff. apply Hown. exact Hm.
Qed.

End MarkerTable.

Lemma default_marker_lookup_witness :
  _getDefaultFieldValue sample_markers "Term-Reading" 1 term None = Some "{reading}"%string /\
  _getDefaultFieldValue sample_markers "unknown-field" 2 term None = Some EmptyString /\
  exists v, _getDefaultFieldValue sample_markers "Word" 1 term None = Some v /\
            spec_default (sample_markers term) "Word" v.
Proof.
  destruct (default_marker_lookup sample_markers) as (H1 & H2 & H3).
  split; [|split].
  - apply H2; [discriminate | reflexivity | vm_compute; tauto | reflexivity].
  - apply H3; [discriminate | reflexivity | reflexivity].
  - apply H1; [discriminate | reflexivity].
Defined.


Lemma validateRow_flag_witness :
  dataset_invalid
    (_validateField sample_contains_marker
       {| input_value := "no marker here"; dataset_requiredPermission := None;
          dataset_hasPermissions := None; dataset_invalid := None |} 0)
    = Some "true"%string.
Proof.
  apply (proj1 (proj2 (validateRow_flag sample_contains_marker sample_permissions
                         sample_granted sample_request
                         {| input_value := "no marker here"; dataset_requiredPermission := None;
                            dataset_hasPermissions := None; dataset_invalid := None |} 0))).
  right. split; reflexivity.
Defined.

End AnkiCardControllerTheory.

(** * Properties of the page of the format-list controller *)
Module AnkiControllerEventsTheory.
Import Settings AnkiController AnkiControllerEvents.

Section Preserves.

Variable R : Controller -> Controller -> Prop.
Hypothesis R_refl : forall a, R a a.
Hypothesis R_trans : forall a b c, R a b -> R b c -> R a c.

Lemma preserves_ret {A : Type} (a : A) : preserves R (ret a).
Proof. intro; apply R_refl. Qed.

Lemma preserves_throw {A : Type} e : preserves R (@throw A e).
Proof. intro; apply R_refl. Qed.

Lemma preserves_get {A : Type} (f : Controller -> A) : preserves R (get f).
Proof. intro; apply R_refl. Qed.

Lemma preserves_bind {A B : Type} (m : Method A) (k : A -> Method B) :
  preserves R m -> (forall a, preserves R (k a)) -> preserves R (bind m k).
Proof.
  intros Hm Hk this. unfold bind. specialize (Hm this).
  destruct (m this) as [a this'|e this']; cbn [final] in *.
  - eapply R_trans; [exact Hm | apply Hk].
  - exact Hm.
Qed.

End Preserves.

Lemma same_view_refl a : same_view a a.
Proof. repeat split. Qed.

Lemma same_view_trans a b c : same_view a b -> same_view b c -> same_view a c.
Proof.
  unfold same_view, frame.
  intros ((H1 & H2 & H3 & H4 & H5 & H6) & H7 & H8) ((K1 & K2 & K3 & K4 & K5 & K6) & K7 & K8).
  repeat split; congruence.
Qed.

Lemma preserves_view_set f :
  (forall this, same_view this (f this)) -> preserves same_view (set f).
Proof. intros H this; apply H. Qed.

Lemma preserves_view_on_control selector f : preserves same_view (on_control selector f).
Proof.
  unfold on_control.
  apply (preserves_bind _ same_view_trans); [apply (preserves_get _ same_view_refl)|].
  intros [p|]; [|apply (preserves_throw _ same_view_refl)].
  destruct (querySelector p selector).
  - apply preserves_view_set; intro; repeat split.
  - apply (preserves_throw _ same_view_refl).
Qed.

Ltac view_step :=
  first [ apply preserves_view_on_control
        | apply (preserves_get _ same_view_refl)
        | apply (preserves_ret _ same_view_refl)
        | apply (preserves_throw _ same_view_refl)
        | solve [apply preserves_view_set; intro; repeat split]
        | apply (preserves_bind _ same_view_trans); [|intro] ].

Lemma view_after_set {B : Type} f (k : unit -> Method B) this :
  preserves same_view (k tt) -> same_view (f this) (final (bind (set f) k this)).
Proof. intros Hk. unfold bind, set. apply Hk. Qed.

(** [_setCardFormatIndex] moves the cursor and writes to the panel and to the
    name input; it leaves the lists, the modals, the strip and the delete
    button alone. *)
Lemma _setCardFormatIndex_view i menu this :
  same_view (with_cardFormatIndex i this) (final (_setCardFormatIndex i menu this)).
Proof.
  unfold _setCardFormatIndex. apply view_after_set.
  apply (preserves_bind _ same_view_trans); [apply (preserves_get _ same_view_refl)|].
  intros [p|]; [|apply (preserves_throw _ same_view_refl)].
  repeat view_step.
Qed.


(** *** The tab strip *)

Lemma check_last_app tabs t :
  check_last (tabs ++ [t]) =
  tabs ++ [{| tab_value := tab_value t; tab_ankiCardMenu := tab_ankiCardMenu t;
              tab_cardFormatIndex := tab_cardFormatIndex t;
              tab_label := tab_label t; tab_checked := true |}].
Proof. unfold check_last. rewrite rev_app_distr. cbn. rewrite rev_involutive. reflexivity. Qed.

(** The loop of [_setupTabs] appends one tab per format and checks the one
    at the cursor. *)
Lemma _setupTabs_loop_tabs cardFormats : forall i this,
  _setupTabs_loop cardFormats i this =
  Normal tt (with_ankiCardsTabs
               (_ankiCardsTabs this ++ tabs_from (_cardFormatIndex this) i cardFormats) this).
Proof.
  induction cardFormats as [|cardFormat more IH]; intros i this.
  - cbn. rewrite app_nil_r. destruct this; reflexivity.
  - cbn [_setupTabs_loop tabs_from].
    unfold bind at 1. unfold _createCardFormatTab at 1. unfold set at 1.
    unfold bind at 1. unfold get at 1. unfold bind at 1.
    cbn [_cardFormatIndex with_ankiCardsTabs].
    destruct (i =? _cardFormatIndex this) eqn:E.
    + unfold set at 1. rewrite IH. cbn [_ankiCardsTabs with_ankiCardsTabs _cardFormatIndex].
      rewrite check_last_app. unfold tab_of. rewrite E. cbn.
      rewrite <- app_assoc. reflexivity.
    + unfold ret at 1. rewrite IH. cbn [_ankiCardsTabs with_ankiCardsTabs _cardFormatIndex].
      unfold tab_of. rewrite E. rewrite <- app_assoc. reflexivity.
Qed.

(** [_setupTabs] comes down to one call of [_setCardFormatIndex], on the
    clamped cursor and with the strip rebuilt. *)
Lemma _setupTabs_unfold cardFormats this :
  let c := clamped (_cardFormatIndex this) (Js.length cardFormats) in
  _setupTabs cardFormats this =
  _setCardFormatIndex c (Some "anki-card-term-field-menu"%string)
    (with_cardFormatDeleteButton_disabled (Js.length cardFormats <=? 1)
       (with_ankiCardsTabs (tabs_from c 0 cardFormats) (with_cardFormatIndex c this))).
Proof.
  unfold _setupTabs, bind, set, get. rewrite _setupTabs_loop_tabs. unfold clamped.
  destruct this as [s o c p tabs input disabled rm mm rn].
  cbv [_cardFormatIndex _ankiCardsTabs with_ankiCardsTabs with_cardFormatIndex
       with_cardFormatDeleteButton_disabled].
  destruct (c >? Js.length cardFormats); cbv beta iota.
  - destruct (Js.length cardFormats - 1 <? 0); reflexivity.
  - destruct (c <? 0); reflexivity.
Qed.

Lemma _setupTabs_view cardFormats this :
  let this' := final (_setupTabs cardFormats this) in
  _ankiCardsTabs this' =
    tabs_from (clamped (_cardFormatIndex this) (Js.length cardFormats)) 0 cardFormats /\
  _cardFormatDeleteButton_disabled this' = (Js.length cardFormats <=? 1).
Proof.
  cbv zeta. rewrite _setupTabs_unfold. cbv zeta.
  match goal with
  | |- context [_setCardFormatIndex ?i ?menu ?s] =>
      destruct (_setCardFormatIndex_view i menu s) as (_ & V1 & V2)
  end.
  rewrite V1, V2. split; reflexivity.
Qed.

(** A reload rebuilds the strip from the store's list. *)
Lemma _updateOptions_view this :
  let this' := final (_updateOptions this) in
  _ankiCardsTabs this' =
    tabs_from (_cardFormatIndex this') 0 (settings_cardFormats this') /\
  _cardFormatDeleteButton_disabled this' = (Js.length (settings_cardFormats this') <=? 1).
Proof.
  destruct (AnkiControllerTheory._updateOptions_final this) as (U1 & _ & U3 & _).
  cbv zeta. rewrite U1, U3. clear U1 U3.
  assert (E : _updateOptions this =
              _setupTabs (settings_cardFormats this)
                (with_ankiOptions (Some (settings_cardFormats this)) this)) by reflexivity.
  rewrite E.
  apply (_setupTabs_view (settings_cardFormats this)
           (with_ankiOptions (Some (settings_cardFormats this)) this)).
Qed.

(** *** The panel *)

Lemma querySelector_with_dataset idx menu p selector :
  querySelector (with_dataset idx menu p) selector = querySelector p selector.
Proof. reflexivity. Qed.

Lemma find_update_first selector selector' f cs :
  find (fun c => String.eqb (fst c) selector') (update_first selector f cs) =
  if String.eqb selector selector'
  then option_map (fun c => (fst c, f (snd c)))
         (find (fun c => String.eqb (fst c) selector') cs)
  else find (fun c => String.eqb (fst c) selector') cs.
Proof.
  induction cs as [|(s, e) cs IH]; cbn [update_first find fst].
  - destruct (String.eqb selector selector'); reflexivity.
  - destruct (String.eqb s selector) eqn:Hs; cbn [find fst snd option_map].
    + apply String.eqb_eq in Hs. subst s.
      destruct (String.eqb selector selector'); reflexivity.
    + destruct (String.eqb s selector') eqn:Hs'; [|exact IH].
      apply String.eqb_eq in Hs'. subst s. rewrite String.eqb_sym, Hs.
      reflexivity.
Qed.

Lemma querySelector_with_control selector selector' f p :
  querySelector (with_control selector f p) selector' =
  if String.eqb selector selector'
  then option_map f (querySelector p selector')
  else querySelector p selector'.
Proof.
  unfold querySelector, with_control. cbn [controls]. rewrite find_update_first.
  destruct (String.eqb selector selector'); [|reflexivity].
  destruct (find _ (controls p)); reflexivity.
Qed.

Lemma complete_controls p :
  complete p = true ->
  exists t i d m,
    querySelector p ".anki-card-type" = Some t /\
    querySelector p ".anki-card-icon" = Some i /\
    querySelector p ".anki-card-deck" = Some d /\
    querySelector p ".anki-card-model" = Some m.
Proof.
  unfold complete, bound_controls. cbn [forallb fst].
  destruct (querySelector p ".anki-card-type") as [t|]; [|discriminate].
  destruct (querySelector p ".anki-card-icon") as [i|]; [|discriminate].
  destruct (querySelector p ".anki-card-deck") as [d|]; [|discriminate].
  destruct (querySelector p ".anki-card-model") as [m|]; [|discriminate].
  intros _. exists t, i, d, m. repeat split.
Qed.

(** On a panel with its four controls [_setCardFormatIndex] returns. *)
Lemma _setCardFormatIndex_complete i menu this p :
  _ankiCardPrimary this = Some p -> complete p = true ->
  _setCardFormatIndex i menu this =
  Normal tt
    (with_ankiCardPrimary (Some (bound_panel i menu (icon_at (_ankiOptions this) i) p))
       (with_ankiCardNameInput
          (with_setting (cardFormatPath i "name") (_ankiCardNameInput this))
          (with_cardFormatIndex i this))).
Proof.
  intros Hp Hc. destruct (complete_controls p Hc) as (t & ic & d & m & Ht & Hi & Hd & Hm).
  unfold _setCardFormatIndex, on_control, bind, set, get, throw.
  cbn [_ankiCardPrimary with_cardFormatIndex with_ankiCardPrimary with_ankiCardNameInput
       _ankiOptions _ankiCardNameInput].
  rewrite Hp. cbv beta iota.
  rewrite querySelector_with_dataset, Ht.
  cbn [_ankiCardPrimary with_cardFormatIndex with_ankiCardPrimary with_ankiCardNameInput
       _ankiOptions _ankiCardNameInput].
  rewrite querySelector_with_control, querySelector_with_dataset, Hi.
  cbn [String.eqb Ascii.eqb Bool.eqb].
  cbn [_ankiCardPrimary with_cardFormatIndex with_ankiCardPrimary with_ankiCardNameInput
       _ankiOptions _ankiCardNameInput].
  rewrite !querySelector_with_control, querySelector_with_dataset, Hd.
  cbn [String.eqb Ascii.eqb Bool.eqb].
  cbn [_ankiCardPrimary with_cardFormatIndex with_ankiCardPrimary with_ankiCardNameInput
       _ankiOptions _ankiCardNameInput].
  rewrite !querySelector_with_control, querySelector_with_dataset, Hm.
  cbn [String.eqb Ascii.eqb Bool.eqb].
  destruct this; reflexivity.
Qed.

(** *** The strip, tab by tab *)

Lemma tabs_from_length selected cardFormats : forall i,
  List.length (tabs_from selected i cardFormats) = List.length cardFormats.
Proof.
  induction cardFormats as [|cardFormat more IH]; intros i; cbn [tabs_from List.length].
  - reflexivity.
  - rewrite IH. reflexivity.
Qed.

Lemma tabs_from_nth selected cardFormats : forall i k,
  nth_error (tabs_from selected i cardFormats) k =
  option_map (tab_of selected (i + Z.of_nat k)) (nth_error cardFormats k).
Proof.
  induction cardFormats as [|cardFormat more IH]; intros i k; cbn [tabs_from].
  - destruct k; reflexivity.
  - destruct k as [|k]; cbn [nth_error option_map].
    + rewrite Z.add_0_r. reflexivity.
    + rewrite IH. replace (i + 1 + Z.of_nat k) with (i + Z.of_nat (S k)) by lia.
      reflexivity.
Qed.

Lemma tabs_from_unchecked selected cardFormats : forall i,
  selected < i -> filter tab_checked (tabs_from selected i cardFormats) = [].
Proof.
  induction cardFormats as [|cardFormat more IH]; intros i Hi; cbn [tabs_from filter].
  - reflexivity.
  - cbn [tab_of tab_checked]. destruct (Z.eqb_spec i selected); [lia|].
    apply IH. lia.
Qed.

(** The checked tabs: the one of the cursor when the cursor is on a format,
    none otherwise. *)
Lemma tabs_from_checked selected cardFormats : forall i,
  i <= selected ->
  List.length (filter tab_checked (tabs_from selected i cardFormats)) =
  if selected <? i + Js.length cardFormats then 1%nat else 0%nat.
Proof.
  unfold Js.length.
  induction cardFormats as [|cardFormat more IH]; intros i Hi; cbn [tabs_from filter].
  - cbn [List.length]. destruct (Z.ltb_spec selected (i + Z.of_nat 0)); [lia|reflexivity].
  - cbn [tab_of tab_checked]. destruct (Z.eqb_spec i selected) as [->|Hne].
    + cbn [List.length]. rewrite tabs_from_unchecked by lia.
      destruct (Z.ltb_spec selected (selected + Z.of_nat (S (List.length more))));
        [reflexivity|lia].
    + rewrite IH by lia.
      destruct (Z.ltb_spec selected (i + 1 + Z.of_nat (List.length more)));
        destruct (Z.ltb_spec selected (i + Z.of_nat (List.length (cardFormat :: more))));
        cbn [List.length] in *; try reflexivity; lia.
Qed.

(** X1.  A reload rebuilds the tab strip from the list of the store: one
    tab per format and in the order of the list, the tab at position [k]
    carrying the format's type as its value, the field menu of that type,
    the index [k] and the format's name as its label.  The tab is checked
    exactly when [k] is the cursor the reload ends on, so one tab is checked
    when that cursor is on a format and none otherwise.  The delete button
    is disabled exactly when the list has at most one format. *)
Theorem reload_rebuilds_tab_strip this :
  let this' := final (_updateOptions this) in
  let cardFormats := settings_cardFormats this in
  let selected := _cardFormatIndex this' in
  List.length (_ankiCardsTabs this') = List.length cardFormats /\
  (forall k,
      nth_error (_ankiCardsTabs this') k =
      option_map
        (fun cardFormat =>
           {| tab_value := type_name (type cardFormat);
              tab_ankiCardMenu := ("anki-card-" ++ type_name (type cardFormat) ++ "-field-menu")%string;
              tab_cardFormatIndex := Z.of_nat k;
              tab_label := name cardFormat;
              tab_checked := Z.of_nat k =? selected |})
        (nth_error cardFormats k)) /\
  List.length (filter tab_checked (_ankiCardsTabs this')) =
    (if (0 <=? selected) && (selected <? Js.length cardFormats) then 1%nat else 0%nat) /\
  _cardFormatDeleteButton_disabled this' = (Js.length cardFormats <=? 1).
Proof.
  cbv zeta.
  destruct (_updateOptions_view this) as (V1 & V2).
  destruct (AnkiControllerTheory._updateOptions_final this) as (U1 & _ & U3 & _).
  rewrite V1, V2, U1. clear V1 V2.
  split; [apply tabs_from_length|].
  split; [intros k; rewrite tabs_from_nth; reflexivity|].
  split; [|reflexivity].
  destruct (Z.leb_spec 0 (_cardFormatIndex (final (_updateOptions this)))) as [Hs|Hs];
    cbn [andb].
  - rewrite tabs_from_checked by exact Hs. reflexivity.
  - rewrite tabs_from_unchecked by exact Hs. reflexivity.
Qed.

(** *** Selecting a format *)

Lemma bound_panel_controls i menu ic p t e d m :
  querySelector p ".anki-card-type" = Some t ->
  querySelector p ".anki-card-icon" = Some e ->
  querySelector p ".anki-card-deck" = Some d ->
  querySelector p ".anki-card-model" = Some m ->
  querySelector (bound_panel i menu ic p) ".anki-card-type"
    = Some (with_setting (cardFormatPath i "type") t) /\
  querySelector (bound_panel i menu ic p) ".anki-card-icon"
    = Some (with_icon ic (with_setting (cardFormatPath i "icon") e)) /\
  querySelector (bound_panel i menu ic p) ".anki-card-deck"
    = Some (with_setting (cardFormatPath i "deck") d) /\
  querySelector (bound_panel i menu ic p) ".anki-card-model"
    = Some (with_setting (cardFormatPath i "model") m).
Proof.
  intros Ht He Hd Hm. unfold bound_panel.
  rewrite !querySelector_with_control, !querySelector_with_dataset, Ht, He, Hd, Hm.
  repeat split.
Qed.


Lemma update_first_selectors selector f cs :
  List.map fst (update_first selector f cs) = List.map fst cs.
Proof.
  induction cs as [|(s, e) cs IH]; cbn [update_first List.map fst]; [reflexivity|].
  destruct (String.eqb s selector); cbn [List.map fst]; [reflexivity|].
  rewrite IH. reflexivity.
Qed.

Lemma bound_panel_selectors i menu ic p :
  List.map fst (controls (bound_panel i menu ic p)) = List.map fst (controls p).
Proof.
  unfold bound_panel, with_control, with_dataset. cbn [controls].
  rewrite !update_first_selectors. reflexivity.
Qed.

(** X2.  On a panel that has its four controls, selecting the format at
    [cardFormatIndex] returns and leaves the page bound to that format: the
    cursor and the panel's dataset carry the index, the panel carries the
    menu it was given, the name input and the type, icon, deck and model
    controls are bound to the settings paths of that same index, and the
    icon control shows the icon of the format at the index in the
    controller's copy of the options, or [big-circle] when there is none.
    No control is added to the panel or removed from it. *)
Theorem selecting_binds_controls cardFormatIndex ankiCardMenu this p :
  _ankiCardPrimary this = Some p -> complete p = true ->
  exists this' p',
    _setCardFormatIndex cardFormatIndex ankiCardMenu this = Normal tt this' /\
    _cardFormatIndex this' = cardFormatIndex /\
    _ankiCardPrimary this' = Some p' /\
    dataset_cardFormatIndex p' = Some cardFormatIndex /\
    dataset_ankiCardMenu p' = ankiCardMenu /\
    dataset_setting (_ankiCardNameInput this') = Some (cardFormatPath cardFormatIndex "name") /\
    (forall selector property,
        In (selector, property) bound_controls ->
        option_map dataset_setting (querySelector p' selector)
          = Some (Some (cardFormatPath cardFormatIndex property))) /\
    option_map dataset_icon (querySelector p' ".anki-card-icon")
      = Some (Some (match _ankiOptions this with
                    | Some cardFormats =>
                        match Js.item cardFormats cardFormatIndex with
                        | Some cardFormat => icon cardFormat
                        | None => "big-circle"%string
                        end
                    | None => "big-circle"%string
                    end)) /\
    List.map fst (controls p') = List.map fst (controls p).
Proof.
  intros Hp Hc.
  destruct (complete_controls p Hc) as (t & e & d & m & Ht & He & Hd & Hm).
  destruct (bound_panel_controls cardFormatIndex ankiCardMenu
              (icon_at (_ankiOptions this) cardFormatIndex) p t e d m Ht He Hd Hm)
    as (B1 & B2 & B3 & B4).
  eexists. eexists.
  split; [apply (_setCardFormatIndex_complete _ _ _ p Hp Hc)|].
  split; [reflexivity|]. split; [reflexivity|]. split; [reflexivity|].
  split; [reflexivity|]. split; [reflexivity|].
  split; [|split].
  - intros selector property Hin. cbn [bound_controls In] in Hin.
    destruct Hin as [E|[E|[E|[E|[]]]]]; inversion E; subst selector property.
    + rewrite B1. reflexivity.
    + rewrite B2. reflexivity.
    + rewrite B3. reflexivity.
    + rewrite B4. reflexivity.
  - rewrite B2. cbn [option_map with_icon dataset_icon]. unfold icon_at.
    destruct (_ankiOptions this) as [cardFormats|]; [|reflexivity].
    destruct (Js.item cardFormats cardFormatIndex); reflexivity.
  - apply bound_panel_selectors.
Qed.

Lemma selecting_binds_controls_witness :
  exists this' p',
    _setCardFormatIndex 1 (Some "anki-card-kanji-field-menu"%string)
      (sample_controller [sample_format "A"; sample_format "B"] 0) = Normal tt this' /\
    _ankiCardPrimary this' = Some p' /\
    dataset_cardFormatIndex p' = Some 1.
Proof.
  destruct (selecting_binds_controls 1 (Some "anki-card-kanji-field-menu"%string)
              (sample_controller [sample_format "A"; sample_format "B"] 0) sample_panel
              eq_refl eq_refl)
    as (this' & p' & H1 & _ & H3 & H4 & _).
  exists this', p'. split; [exact H1|]. split; [exact H3|exact H4].
Defined.

Ltac run_setCardFormatIndex Hp :=
  unfold _setCardFormatIndex, on_control, bind, set, get, throw;
  cbn [_ankiCardPrimary with_cardFormatIndex with_ankiCardPrimary with_ankiCardNameInput
       _ankiOptions _ankiCardNameInput];
  rewrite Hp; cbv beta iota;
  repeat (rewrite ?querySelector_with_control, ?querySelector_with_dataset;
          cbn [String.eqb Ascii.eqb Bool.eqb];
          match goal with
          | H : querySelector _ _ = _ |- _ => rewrite H
          end;
          cbn [_ankiCardPrimary with_cardFormatIndex with_ankiCardPrimary
               with_ankiCardNameInput _ankiOptions _ankiCardNameInput]).

(** X3.  On a panel that lacks one of the four controls, selecting a format
    throws the error of [querySelectorNotNull] for the first control that is
    missing, in the order type, icon, deck, model.  What was written before
    the error stays written: the cursor and the panel's dataset carry the new
    index and the name input is bound to it, while the model control, which
    comes last, is as it was. *)
Theorem selecting_stops_at_missing_control cardFormatIndex ankiCardMenu this p selector :
  _ankiCardPrimary this = Some p -> first_missing p = Some selector ->
  exists this' p',
    _setCardFormatIndex cardFormatIndex ankiCardMenu this
      = Throw (Js.NodeNotFound selector) this' /\
    _cardFormatIndex this' = cardFormatIndex /\
    _ankiCardPrimary this' = Some p' /\
    dataset_cardFormatIndex p' = Some cardFormatIndex /\
    dataset_ankiCardMenu p' = ankiCardMenu /\
    dataset_setting (_ankiCardNameInput this') = Some (cardFormatPath cardFormatIndex "name") /\
    querySelector p' ".anki-card-model" = querySelector p ".anki-card-model".
Proof.
  intros Hp Hmiss. unfold first_missing, bound_controls in Hmiss. cbn [find fst] in Hmiss.
  destruct (querySelector p ".anki-card-type") as [t|] eqn:Ht.
  2:{ injection Hmiss as <-. eexists. eexists. split.
      - run_setCardFormatIndex Hp. reflexivity.
      - cbn. repeat split. }
  destruct (querySelector p ".anki-card-icon") as [e|] eqn:He.
  2:{ injection Hmiss as <-. eexists. eexists. split.
      - run_setCardFormatIndex Hp. reflexivity.
      - cbn [_cardFormatIndex _ankiCardPrimary _ankiCardNameInput dataset_setting
             with_setting]. repeat split.
        rewrite querySelector_with_control, querySelector_with_dataset. reflexivity. }
  destruct (querySelector p ".anki-card-deck") as [d|] eqn:Hd.
  2:{ injection Hmiss as <-. eexists. eexists. split.
      - run_setCardFormatIndex Hp. reflexivity.
      - cbn [_cardFormatIndex _ankiCardPrimary _ankiCardNameInput dataset_setting
             with_setting]. repeat split.
        rewrite !querySelector_with_control, querySelector_with_dataset. reflexivity. }
  destruct (querySelector p ".anki-card-model") as [m|] eqn:Hm.
  2:{ injection Hmiss as <-. eexists. eexists. split.
      - run_setCardFormatIndex Hp. reflexivity.
      - cbn [_cardFormatIndex _ankiCardPrimary _ankiCardNameInput dataset_setting
             with_setting]. repeat split.
        rewrite !querySelector_with_control, querySelector_with_dataset.
        cbn [String.eqb Ascii.eqb Bool.eqb]. exact Hm. }
  discriminate Hmiss.
Qed.

Lemma selecting_stops_at_missing_control_witness :
  exists this',
    _setCardFormatIndex 1 None
      (with_ankiCardPrimary
         (Some {| dataset_cardFormatIndex := None; dataset_ankiCardMenu := None;
                  controls := [(".anki-card-type"%string, sample_element);
                               (".anki-card-icon"%string, sample_element)] |})
         (sample_controller [sample_format "A"; sample_format "B"] 0))
      = Throw (Js.NodeNotFound ".anki-card-deck") this' /\
    _cardFormatIndex this' = 1.
Proof.
  destruct (selecting_stops_at_missing_control 1 None
              (with_ankiCardPrimary
                 (Some {| dataset_cardFormatIndex := None; dataset_ankiCardMenu := None;
                          controls := [(".anki-card-type"%string, sample_element);
                                       (".anki-card-icon"%string, sample_element)] |})
                 (sample_controller [sample_format "A"; sample_format "B"] 0))
              _ ".anki-card-deck"%string eq_refl eq_refl)
    as (this' & p' & H1 & H2 & _).
  exists this'. split; [exact H1|exact H2].
Defined.

(** *** What a reload leaves *)

Lemma _updateOptions_after this :
  let this' := final (_updateOptions this) in
  let c := clamped (_cardFormatIndex this) (Js.length (settings_cardFormats this)) in
  settings_cardFormats this' = settings_cardFormats this /\
  _ankiOptions this' = Some (settings_cardFormats this) /\
  _cardFormatIndex this' = c /\
  _cardFormatRemoveModal this' = _cardFormatRemoveModal this /\
  _cardFormatMaximumModal this' = _cardFormatMaximumModal this /\
  _cardFormatRemoveName this' = _cardFormatRemoveName this /\
  _ankiCardsTabs this' = tabs_from c 0 (settings_cardFormats this) /\
  _cardFormatDeleteButton_disabled this' = (Js.length (settings_cardFormats this) <=? 1).
Proof.
  assert (E : _updateOptions this =
              _setupTabs (settings_cardFormats this)
                (with_ankiOptions (Some (settings_cardFormats this)) this)) by reflexivity.
  cbv zeta. rewrite E.
  destruct (AnkiControllerTheory._setupTabs_frame (settings_cardFormats this)
              (with_ankiOptions (Some (settings_cardFormats this)) this))
    as (F1 & F2 & F3 & F4 & F5 & F6).
  destruct (_setupTabs_view (settings_cardFormats this)
              (with_ankiOptions (Some (settings_cardFormats this)) this)) as (V1 & V2).
  repeat split; [exact F1|exact F2|exact F3|exact F4|exact F5|exact F6|exact V1|exact V2].
Qed.


(** *** The events, one by one *)


Lemma item_some_range {A : Type} (l : list A) i x :
  Js.item l i = Some x -> 0 <= i < Js.length l.
Proof.
  unfold Js.item, Js.length. destruct (Z.ltb_spec i 0) as [E|E]; [discriminate|].
  intros H. assert (Hn : nth_error l (Z.to_nat i) <> None) by congruence.
  apply nth_error_Some in Hn. lia.
Qed.






Lemma pick_tabs_from k selected cardFormats : forall i,
  pick_from k i (tabs_from selected (Z.of_nat i) cardFormats) =
  tabs_from (Z.of_nat k) (Z.of_nat i) cardFormats.
Proof.
  induction cardFormats as [|cardFormat more IH]; intros i; cbn [tabs_from pick_from].
  - reflexivity.
  - replace (Z.of_nat i + 1) with (Z.of_nat (S i)) by lia. rewrite IH.
    unfold tab_of. cbn [tab_value tab_ankiCardMenu tab_cardFormatIndex tab_label].
    replace (Nat.eqb i k) with (Z.of_nat i =? Z.of_nat k); [reflexivity|].
    destruct (Z.eqb_spec (Z.of_nat i) (Z.of_nat k)) as [E|E];
      destruct (Nat.eqb_spec i k) as [F|F]; try reflexivity; lia.
Qed.

(** Picking the tab at position [k] of a strip built by a reload. *)
Lemma tab_change_unfold k this :
  _ankiCardsTabs this = tabs_from (_cardFormatIndex this) 0 (settings_cardFormats this) ->
  handle (TabChange k) this =
  match nth_error (settings_cardFormats this) k with
  | None => Normal tt this
  | Some cardFormat =>
      _setCardFormatIndex (Z.of_nat k)
        (Some ("anki-card-" ++ type_name (type cardFormat) ++ "-field-menu")%string)
        (with_ankiCardsTabs (tabs_from (Z.of_nat k) 0 (settings_cardFormats this)) this)
  end.
Proof.
  intros Ht. unfold handle, bind, get, set, ret. rewrite Ht. unfold pick.
  rewrite (pick_tabs_from k _ _ 0). change (Z.of_nat 0) with 0.
  rewrite tabs_from_nth.
  destruct (nth_error (settings_cardFormats this) k) as [cardFormat|]; cbn [option_map].
  - unfold _onAnkiCardPrimaryTypeRadioChange. cbn [tab_of tab_checked tab_cardFormatIndex
      tab_ankiCardMenu]. rewrite Z.add_0_l, Z.eqb_refl. reflexivity.
  - reflexivity.
Qed.



(** *** A page with its markup *)






(** *** The dataset of the panel *)

Lemma same_dataset_refl a : same_dataset a a.
Proof. intros p Hp. exists p. repeat split. exact Hp. Qed.

Lemma same_dataset_trans a b c : same_dataset a b -> same_dataset b c -> same_dataset a c.
Proof.
  intros H1 H2 p Hp. destruct (H1 p Hp) as (p' & Hp' & E1 & E2).
  destruct (H2 p' Hp') as (p'' & Hp'' & E3 & E4).
  exists p''. split; [exact Hp''|]. split; congruence.
Qed.

Lemma preserves_dataset_on_control selector f : preserves same_dataset (on_control selector f).
Proof.
  intros this. unfold on_control, bind, get, set, throw.
  destruct (_ankiCardPrimary this) as [p|] eqn:Hp; [|apply same_dataset_refl].
  destruct (querySelector p selector); [|apply same_dataset_refl].
  cbn [final]. intros p0 Hp0. rewrite Hp in Hp0. injection Hp0 as <-.
  eexists. split; [reflexivity|]. split; reflexivity.
Qed.

Lemma preserves_dataset_set f :
  (forall this, _ankiCardPrimary (f this) = _ankiCardPrimary this) ->
  preserves same_dataset (set f).
Proof.
  intros H this. unfold set. cbn [final]. intros p Hp. exists p.
  rewrite H. repeat split. exact Hp.
Qed.

(** Whether or not a control is missing, [_setCardFormatIndex] on a panel
    leaves the index and the menu in the panel's dataset. *)
Lemma _setCardFormatIndex_dataset i menu this p :
  _ankiCardPrimary this = Some p ->
  exists p', _ankiCardPrimary (final (_setCardFormatIndex i menu this)) = Some p' /\
    dataset_cardFormatIndex p' = Some i /\ dataset_ankiCardMenu p' = menu.
Proof.
  intros Hp. unfold _setCardFormatIndex.
  unfold bind at 1, set at 1. unfold bind at 1, get at 1.
  cbn [_ankiCardPrimary with_cardFormatIndex]. rewrite Hp.
  unfold bind at 1, set at 1.
  match goal with
  | |- context [final (?m ?s)] =>
      assert (H : same_dataset s (final (m s)));
        [|destruct (H _ eq_refl) as (p' & Hp' & E1 & E2); exists p';
          split; [exact Hp'|split; [exact E1|exact E2]]]
  end.
  match goal with
  | |- same_dataset ?s (final (?m ?s)) => refine ((_ : preserves same_dataset m) s)
  end.
  repeat first
    [ apply preserves_dataset_on_control
    | apply (preserves_get _ same_dataset_refl)
    | solve [apply preserves_dataset_set; intro; reflexivity]
    | apply (preserves_bind _ same_dataset_trans); [|intro] ].
Qed.

(** X6.  Picking the tab at position [k] of a strip that a reload built,
    where the list has a format at [k]: the cursor moves to [k], that tab and
    no other is checked, and the panel's dataset carries the index [k] and
    the field menu of the type of that format.  The list of the store and the
    controller's copy are as they were.  This holds also when a control of
    the panel is missing and the handler throws. *)
Theorem picking_a_tab_selects_its_format k this p cardFormat :
  _ankiCardsTabs this = tabs_from (_cardFormatIndex this) 0 (settings_cardFormats this) ->
  _ankiCardPrimary this = Some p ->
  nth_error (settings_cardFormats this) k = Some cardFormat ->
  let this' := final (handle (TabChange k) this) in
  _cardFormatIndex this' = Z.of_nat k /\
  List.map tab_checked (_ankiCardsTabs this') =
    List.map (fun j => Nat.eqb j k) (seq 0 (List.length (settings_cardFormats this))) /\
  (exists p',
      _ankiCardPrimary this' = Some p' /\
      dataset_cardFormatIndex p' = Some (Z.of_nat k) /\
      dataset_ankiCardMenu p'
        = Some ("anki-card-" ++ type_name (type cardFormat) ++ "-field-menu")%string) /\
  settings_cardFormats this' = settings_cardFormats this /\
  _ankiOptions this' = _ankiOptions this.
Proof.
  intros Ht Hp Hk. cbv zeta. rewrite (tab_change_unfold k this Ht), Hk.
  match goal with
  | |- context [_setCardFormatIndex ?i ?menu ?s] =>
      destruct (_setCardFormatIndex_view i menu s)
        as ((F1 & F2 & F3 & F4 & F5 & F6) & V1 & V2);
      destruct (_setCardFormatIndex_dataset i menu s p Hp) as (p' & Hp' & D1 & D2)
  end.
  cbn [settings_cardFormats _ankiOptions _cardFormatIndex _ankiCardsTabs
       with_cardFormatIndex with_ankiCardsTabs] in F1, F2, F3, V1.
  split; [exact F3|]. split.
  - rewrite V1. clear. generalize (settings_cardFormats this) as l.
    assert (G : forall (l : list AnkiCardFormat) i,
               List.map tab_checked (tabs_from (Z.of_nat k) (Z.of_nat i) l) =
               List.map (fun j => Nat.eqb j k) (seq i (List.length l))).
    { induction l as [|c l IH]; intros i; cbn [tabs_from List.map List.length seq].
      - reflexivity.
      - replace (Z.of_nat i + 1) with (Z.of_nat (S i)) by lia. rewrite IH.
        cbn [tab_of tab_checked]. f_equal.
        destruct (Z.eqb_spec (Z.of_nat i) (Z.of_nat k));
          destruct (Nat.eqb_spec i k); try reflexivity; lia. }
    intros l. exact (G l 0%nat).
  - split; [exists p'; split; [exact Hp'|split; [exact D1|exact D2]]|].
    split; [exact F1|exact F2].
Qed.

Lemma picking_a_tab_selects_its_format_witness :
  _cardFormatIndex
    (final (handle (TabChange 1)
              (with_ankiCardsTabs
                 (tabs_from 0 0 [sample_format "A"; sample_format "B"])
                 (sample_controller [sample_format "A"; sample_format "B"] 0))))
  = 1.
Proof.
  refine (proj1 (picking_a_tab_selects_its_format 1
                   (with_ankiCardsTabs
                      (tabs_from 0 0 [sample_format "A"; sample_format "B"])
                      (sample_controller [sample_format "A"; sample_format "B"] 0))
                   sample_panel (sample_format "B") _ _ _)).
  - reflexivity.
  - reflexivity.
  - reflexivity.
Defined.

(** X7.  A reload on a page that has the panel always leaves the term field
    menu in the panel's dataset, whatever the type of the format the cursor
    is on, together with the index of the cursor the reload ends on. *)
Theorem reload_puts_term_menu this p :
  _ankiCardPrimary this = Some p ->
  let this' := final (_updateOptions this) in
  exists p',
    _ankiCardPrimary this' = Some p' /\
    dataset_ankiCardMenu p' = Some "anki-card-term-field-menu"%string /\
    dataset_cardFormatIndex p' = Some (_cardFormatIndex this').
Proof.
  intros Hp. cbv zeta.
  assert (E : _updateOptions this =
              _setupTabs (settings_cardFormats this)
                (with_ankiOptions (Some (settings_cardFormats this)) this)) by reflexivity.
  rewrite E, _setupTabs_unfold. cbv zeta.
  match goal with
  | |- context [_setCardFormatIndex ?i ?menu ?s] =>
      destruct (_setCardFormatIndex_dataset i menu s p Hp) as (p' & Hp' & D1 & D2);
      pose proof (AnkiControllerTheory._setCardFormatIndex_index i menu s) as Hi
  end.
  exists p'. split; [exact Hp'|]. split; [exact D2|]. rewrite Hi. exact D1.
Qed.

Lemma reload_puts_term_menu_witness :
  exists p',
    _ankiCardPrimary
      (final (_updateOptions
                (sample_controller
                   [{| name := "Kanji"; type := kanji; deck := ""; model := "";
                       fields := []; icon := "big-circle" |}] 0))) = Some p' /\
    dataset_ankiCardMenu p' = Some "anki-card-term-field-menu"%string.
Proof.
  destruct (reload_puts_term_menu
              (sample_controller
                 [{| name := "Kanji"; type := kanji; deck := ""; model := "";
                     fields := []; icon := "big-circle" |}] 0)
              sample_panel eq_refl) as (p' & H1 & H2 & _).
  exists p'. split; [exact H1|exact H2].
Defined.

(** *** The confirm button *)

Lemma deleteCardFormat_modal i this :
  _cardFormatRemoveModal (final (deleteCardFormat i this)) = _cardFormatRemoveModal this.
Proof.
  unfold deleteCardFormat, modifyProfileSettings_splice, bind, get, set, ret.
  destruct (_ankiOptions this) as [cardFormats|]; [|reflexivity].
  destruct ((i <? 0) || (i >=? Js.length cardFormats)); [reflexivity|].
  match goal with
  | |- context [_updateOptions ?s] =>
      destruct (_updateOptions_after s) as (_ & _ & _ & U4 & _)
  end.
  exact U4.
Qed.

Lemma _onCardFormatRemoveConfirm_modal this m :
  _cardFormatRemoveModal this = Some m ->
  _cardFormatRemoveModal (final (_onCardFormatRemoveConfirm this))
    = Some {| visible := false; node_cardFormatIndex := None |}.
Proof.
  intros Hm.
  unfold _onCardFormatRemoveConfirm, _tryGetValidCardFormatIndex, bind, get, set, ret.
  rewrite Hm. cbv beta iota.
  destruct (node_cardFormatIndex m) as [i|]; [|reflexivity].
  cbn [_ankiOptions with_cardFormatRemoveModal].
  destruct (_ankiOptions this) as [cardFormats|]; [|reflexivity].
  destruct ((i >=? 0) && (i <? Js.length cardFormats)); [|reflexivity].
  rewrite deleteCardFormat_modal. reflexivity.
Qed.

Lemma _onCardFormatRemoveConfirm_closed this :
  _cardFormatRemoveModal this = Some {| visible := false; node_cardFormatIndex := None |} ->
  _onCardFormatRemoveConfirm this = Normal tt this.
Proof.
  intros Hm.
  unfold _onCardFormatRemoveConfirm, _tryGetValidCardFormatIndex, bind, get, set, ret.
  rewrite Hm. cbv beta iota. cbn [node_cardFormatIndex setVisible].
  destruct this as [s o c p tabs input disabled rm mm rn].
  cbn [_cardFormatRemoveModal] in Hm. subst rm. reflexivity.
Qed.

(** X8.  The confirm button of the remove modal, on a page that has the
    modal: however the handler ends, the modal is hidden and the index it
    carried is gone.  The index is used once: a second press of the button
    right after returns at once and changes nothing, neither the store nor
    the page. *)
Theorem confirm_uses_the_index_once this m :
  _cardFormatRemoveModal this = Some m ->
  let this' := final (_onCardFormatRemoveConfirm this) in
  _cardFormatRemoveModal this'
    = Some {| visible := false; node_cardFormatIndex := None |} /\
  _onCardFormatRemoveConfirm this' = Normal tt this'.
Proof.
  intros Hm. cbv zeta.
  pose proof (_onCardFormatRemoveConfirm_modal this m Hm) as H.
  split; [exact H|]. apply _onCardFormatRemoveConfirm_closed. exact H.
Qed.

Lemma confirm_uses_the_index_once_witness :
  settings_cardFormats
    (final (_onCardFormatRemoveConfirm
              (final (_onCardFormatRemoveConfirm
                        (final (_onCardFormatDeleteClick
                                  (sample_controller
                                     [sample_format "A"; sample_format "B"] 1)))))))
  = [sample_format "A"].
Proof.
  rewrite (proj2 (confirm_uses_the_index_once
                    (final (_onCardFormatDeleteClick
                              (sample_controller [sample_format "A"; sample_format "B"] 1)))
                    {| visible := true; node_cardFormatIndex := Some 1 |} eq_refl)).
  reflexivity.
Defined.

(** *** The icon select *)

Lemma assign_length {A : Type} (l : list A) x : forall i,
  List.length (assign l i x) = List.length l.
Proof.
  induction l as [|a l IH]; intros [|i]; cbn [assign List.length]; try reflexivity.
  rewrite IH. reflexivity.
Qed.

Lemma assign_nth {A : Type} (l : list A) x : forall i j,
  (i < List.length l)%nat ->
  nth_error (assign l i x) j = if Nat.eqb j i then Some x else nth_error l j.
Proof.
  induction l as [|a l IH]; intros i j Hi; cbn [List.length] in Hi; [lia|].
  destruct i as [|i]; destruct j as [|j]; cbn [assign nth_error Nat.eqb]; try reflexivity.
  apply IH. lia.
Qed.

Lemma item_assign {A : Type} (l : list A) i x j :
  0 <= i < Js.length l ->
  Js.item (assign l (Z.to_nat i) x) j = if j =? i then Some x else Js.item l j.
Proof.
  intros Hi. unfold Js.item, Js.length in *.
  destruct (Z.ltb_spec j 0) as [E|E].
  - destruct (Z.eqb_spec j i); [lia|reflexivity].
  - rewrite assign_nth by lia.
    destruct (Z.eqb_spec j i) as [F|F]; destruct (Nat.eqb_spec (Z.to_nat j) (Z.to_nat i));
      try reflexivity; lia.
Qed.

(** X9.  A change of the icon select, on a panel that has the select and
    with options loaded.  The select shows the new icon.  When the cursor is
    on a format of the controller's copy of the options, the handler returns
    and that format, and no other, has the new icon in the copy, its other
    properties as they were; the copy keeps its length.  When the cursor is
    on no format of the copy the handler throws a [TypeError] and the copy is
    as it was.  The list in the settings store and the cursor are not
    written by this handler. *)
Theorem icon_change_touches_one_format newIcon this p e cardFormats :
  _ankiCardPrimary this = Some p ->
  querySelector p ".anki-card-icon" = Some e ->
  _ankiOptions this = Some cardFormats ->
  let this' := final (_onIconSelectChange newIcon this) in
  (exists p',
      _ankiCardPrimary this' = Some p' /\
      option_map dataset_icon (querySelector p' ".anki-card-icon") = Some (Some newIcon)) /\
  settings_cardFormats this' = settings_cardFormats this /\
  _cardFormatIndex this' = _cardFormatIndex this /\
  match Js.item cardFormats (_cardFormatIndex this) with
  | Some cardFormat =>
      _onIconSelectChange newIcon this = Normal tt this' /\
      exists cardFormats',
        _ankiOptions this' = Some cardFormats' /\
        Js.length cardFormats' = Js.length cardFormats /\
        forall j,
          Js.item cardFormats' j =
          if j =? _cardFormatIndex this
          then Some {| name := name cardFormat; type := type cardFormat;
                       deck := deck cardFormat; model := model cardFormat;
                       fields := fields cardFormat; icon := newIcon |}
          else Js.item cardFormats j
  | None =>
      _onIconSelectChange newIcon this = Throw Js.TypeError this' /\
      _ankiOptions this' = Some cardFormats
  end.
Proof.
  intros Hp He Ho. cbv zeta.
  unfold _onIconSelectChange, bind, get, set, ret, throw. rewrite Hp, He. cbv beta iota.
  cbn [_ankiOptions with_ankiCardPrimary _cardFormatIndex]. rewrite Ho. cbv beta iota.
  cbn [_ankiOptions with_ankiCardPrimary _cardFormatIndex].
  destruct (Js.item cardFormats (_cardFormatIndex this)) as [cardFormat|] eqn:Hitem;
    cbn [final _ankiCardPrimary with_ankiCardPrimary with_ankiOptions settings_cardFormats
         _cardFormatIndex _ankiOptions].
  - split.
    { eexists. split; [reflexivity|]. rewrite querySelector_with_control, He. reflexivity. }
    split; [reflexivity|]. split; [reflexivity|]. split; [reflexivity|].
    eexists. split; [reflexivity|].
    pose proof (item_some_range _ _ _ Hitem) as Hi.
    split; [unfold Js.length; rewrite assign_length; reflexivity|].
    intros j. apply item_assign. exact Hi.
  - split.
    { eexists. split; [reflexivity|]. rewrite querySelector_with_control, He. reflexivity. }
    split; [reflexivity|]. split; [reflexivity|]. split; [reflexivity|exact Ho].
Qed.

Lemma icon_change_touches_one_format_witness :
  settings_cardFormats
    (final (_onIconSelectChange "small-circle"
              (sample_controller [sample_format "A"; sample_format "B"] 1)))
  = [sample_format "A"; sample_format "B"].
Proof.
  exact (proj1 (proj2 (icon_change_touches_one_format "small-circle"
                         (sample_controller [sample_format "A"; sample_format "B"] 1)
                         sample_panel sample_element [sample_format "A"; sample_format "B"]
                         eq_refl eq_refl eq_refl))).
Defined.

(** *** The status line after a fetch *)

Lemma ends_with_one_of_app cs s c :
  Js.ends_with_one_of cs (s ++ String c EmptyString) = existsb (Ascii.eqb c) cs.
Proof.
  induction s as [|a s IH]; [reflexivity|].
  cbn [append Js.ends_with_one_of]. rewrite IH.
  destruct (s ++ String c EmptyString)%string eqn:E; [|reflexivity].
  destruct s; discriminate.
Qed.

Lemma _showAnkiError_text error this :
  Js.ends_with_one_of ["."; "!"; "?"]%char (textContent (_showAnkiError error this)) = true.
Proof.
  unfold _showAnkiError. cbn [textContent].
  match goal with
  | |- context [negb (Js.ends_with_one_of ?cs ?s)] =>
      destruct (Js.ends_with_one_of cs s) eqn:E; cbn [negb]
  end.
  - exact E.
  - apply ends_with_one_of_app.
Qed.

Section RemoteApi.

Variable Thrown : Type.
Variable toError : Thrown -> JsError.
Variable _sortStringArray : list string -> list string.

(** X10.  The status line after [getAnkiData], whatever the two calls of
    the remote API did.  Each list of names is the sorted answer of its own
    call, or empty when that call threw, whatever the other call did.  When
    both calls answered, no error is recorded, the line is not marked as an
    error and it reads [Enabled] or [Not enabled] after the enable flag.
    When a call threw, an error is recorded, the line is marked as an error,
    and its text ends in a period, an exclamation mark or a question mark.
    The text the line had when the page loaded is kept for the next call. *)
Theorem status_line_after_fetch getDeckNames getModelNames enabled this :
  exists data this',
    getAnkiData Thrown toError _sortStringArray getDeckNames getModelNames enabled this
      = Fulfilled (data, this') /\
    deckNames data =
      match getDeckNames with
      | Fulfilled names => _sortStringArray names
      | Rejected _ => []
      end /\
    modelNames data =
      match getModelNames with
      | Fulfilled names => _sortStringArray names
      | Rejected _ => []
      end /\
    _ankiErrorMessageNodeDefaultContent this' = _ankiErrorMessageNodeDefaultContent this /\
    match getDeckNames, getModelNames with
    | Fulfilled _, Fulfilled _ =>
        _ankiError this' = None /\ danger_text this' = false /\
        textContent this' = if enabled then "Enabled"%string else "Not enabled"%string
    | _, _ =>
        _ankiError this' <> None /\ danger_text this' = true /\
        Js.ends_with_one_of ["."; "!"; "?"]%char (textContent this') = true
    end.
Proof.
  destruct getDeckNames as [deck|e1]; destruct getModelNames as [model|e2];
    eexists; eexists; (split; [reflexivity|]);
    cbn [deckNames modelNames]; repeat (split; [reflexivity|]).
  - repeat split.
  - split; [discriminate|]. split; [reflexivity|]. apply _showAnkiError_text.
  - split; [discriminate|]. split; [reflexivity|]. apply _showAnkiError_text.
  - split; [discriminate|]. split; [reflexivity|]. apply _showAnkiError_text.
Qed.

End RemoteApi.

End AnkiControllerEventsTheory.
(** * Properties of the page when handlers overlap *)
Module AnkiControllerAsyncTheory.
Import Settings AnkiController AnkiControllerEvents AnkiControllerAsync.

(** C3, at the input where the code departs from it.  The list has four
    formats and the new-format button is clicked twice, the second time
    before the first call has gone past its [await getOptions()].  Both
    calls are answered with the four formats, both pass the test on the
    length and both send their splice at index 4: the store ends with six
    formats, and the maximum modal was never shown.  Nothing was thrown and
    no call is left in flight. *)
Theorem overlapping_add_clicks_exceed_five :
  let four := [sample_format "A"; sample_format "B"; sample_format "C"; sample_format "D"] in
  let page :=
    exec sample_surroundings
      [User NewFormatButtonClick; User NewFormatButtonClick;
       Backend 0; Backend 1; Resume 0; Resume 1;
       Backend 0; Backend 1; Resume 0; Resume 1;
       Backend 0; Backend 1; Resume 0; Resume 0]
      (start (sample_controller four 0)) in
  Js.length (settings_cardFormats (controller page)) = 6 /\
  List.map name (settings_cardFormats (controller page))
    = ["A"; "B"; "C"; "D"; "Format 5"; "Format 5"]%string /\
  _ankiOptions (controller page) = Some (settings_cardFormats (controller page)) /\
  option_map visible (_cardFormatMaximumModal (controller page)) = Some false /\
  pending page = [] /\
  uncaught page = [].
Proof. vm_compute. repeat split. Qed.

(** C1, at the input where the code departs from it.  The list has two
    formats, the cursor is on the first, and the delete button and the
    confirm button are pressed twice over before the first deletion has
    gone past its [await].  The test of the delete button reads the list the
    controller holds, which still has two formats the second time, and
    [deleteCardFormat] has no test of its own on a list of one: both splices
    at index 0 are applied and the store ends with no format at all. *)
Theorem overlapping_deletes_empty_the_list :
  let page :=
    exec sample_surroundings
      [User CardFormatDeleteClick; User CardFormatRemoveConfirm;
       User CardFormatDeleteClick; User CardFormatRemoveConfirm;
       Backend 0; Backend 1; Resume 0; Resume 1;
       Backend 0; Backend 1; Resume 0; Resume 0]
      (start (sample_controller [sample_format "A"; sample_format "B"] 0)) in
  settings_cardFormats (controller page) = [] /\
  _ankiOptions (controller page) = Some [] /\
  pending page = [] /\
  uncaught page = [].
Proof. vm_compute. repeat split. Qed.

(** *** A tab template with its input and its label *)



(** *** No step throws *)

Lemma after_normal {A : Type} (r : Completion A) calls page a this' :
  r = Normal a this' ->
  after r calls page = {| controller := this'; pending := calls; uncaught := uncaught page |}.
Proof. intros ->. reflexivity. Qed.








(** *** One handler at a time *)


















End AnkiControllerAsyncTheory.

(** * Properties of the life cycle and of the events of the field-set editor *)
Module AnkiCardControllerEventsTheory.
Import Settings AnkiCardController AnkiCardControllerEvents.

Section Rows.

Variable stringContainsAnyFieldMarker : string -> bool.
Variable getRequiredPermissionsForAnkiFieldValue : string -> list string.
Variable hasPermissions : list string -> bool.
Variable setPermissionsGranted : list string -> bool.

Local Abbreviation setupFields :=
  (_setupFields stringContainsAnyFieldMarker getRequiredPermissionsForAnkiFieldValue
     hasPermissions setPermissionsGranted).
Local Abbreviation setupFields_loop :=
  (_setupFields_loop stringContainsAnyFieldMarker getRequiredPermissionsForAnkiFieldValue
     hasPermissions setPermissionsGranted).

(** The row of the field [fieldName] at position [index], in closed form. *)
Local Abbreviation row index fieldName field :=
  (let permissions := getRequiredPermissionsForAnkiFieldValue (value field) in
   let granted := hasPermissions permissions in
   {| fieldName := fieldName;
      inputField :=
        {| input_value := value field;
           dataset_requiredPermission :=
             match permissions with [] => None | _ => Some (String.concat " " permissions) end;
           dataset_hasPermissions :=
             match permissions with [] => None | _ => Some (string_of_bool granted) end;
           dataset_invalid :=
             Some (string_of_bool
                     (match permissions with [] => false | _ => negb granted end ||
                      ((index =? 0) && negb (stringContainsAnyFieldMarker (value field))))) |} |}).

Lemma _setupFields_loop_row index fieldName field more :
  setupFields_loop ((fieldName, field) :: more) index =
  row index fieldName field :: setupFields_loop more (index + 1).
Proof.
  cbn [_setupFields_loop]. f_equal. cbv zeta. f_equal.
  unfold _validateFieldPermissions, _validateField.
  cbn [input_value dataset_requiredPermission dataset_hasPermissions dataset_invalid is_string].
  destruct (getRequiredPermissionsForAnkiFieldValue (value field)) as [|p ps] eqn:Ep.
  - change (Js.length (@nil string) >? 0) with false. cbv beta iota.
    cbn [input_value dataset_requiredPermission dataset_hasPermissions dataset_invalid
         is_string negb andb orb].
    destruct (index =? 0); destruct (stringContainsAnyFieldMarker (value field)); reflexivity.
  - replace (Js.length (p :: ps) >? 0) with true
      by (symmetry; apply Z.gtb_lt; unfold Js.length; cbn [List.length]; lia).
    cbv beta iota.
    cbn [input_value dataset_requiredPermission dataset_hasPermissions dataset_invalid
         is_string].
    destruct (hasPermissions (p :: ps)); destruct (index =? 0);
      destruct (stringContainsAnyFieldMarker (value field)); reflexivity.
Qed.

Lemma _setupFields_loop_nth entries : forall index k,
  nth_error (setupFields_loop entries index) k =
  option_map (fun entry => row (index + Z.of_nat k) (fst entry) (snd entry))
             (nth_error entries k).
Proof.
  induction entries as [|(fieldName, field) more IH]; intros index k.
  - destruct k; reflexivity.
  - rewrite _setupFields_loop_row. destruct k as [|k]; cbn [nth_error option_map fst snd].
    + rewrite Z.add_0_r. reflexivity.
    + rewrite IH. replace (index + 1 + Z.of_nat k) with (index + Z.of_nat (S k)) by lia.
      reflexivity.
Qed.

(** X11.  [prepare] on an editor that is not cleaned up and whose index is
    the index of a format of the options: it returns, the editor holds that
    format and its fields, and the page has one row per field, in the order
    of the object.  The row at position [k] carries the name and the value
    of the field; when the value requires permissions the row records them,
    joined by spaces, with the answer of the permission check, and has
    neither entry otherwise; and the row is flagged invalid exactly when the
    required permissions are not there, or it is the first row and its value
    holds no field marker.  Permissions are checked, never requested.  On an
    index that is the index of no format [prepare] throws and the editor is
    as it was; on an editor that was cleaned up it returns and changes
    nothing. *)
Theorem prepare_renders_the_format ankiOptions this :
  (_cleaned this = true ->
   prepare stringContainsAnyFieldMarker getRequiredPermissionsForAnkiFieldValue
     hasPermissions setPermissionsGranted ankiOptions this = (this, None)) /\
  (_cleaned this = false -> Js.item ankiOptions (_cardFormatIndex this) = None ->
   prepare stringContainsAnyFieldMarker getRequiredPermissionsForAnkiFieldValue
     hasPermissions setPermissionsGranted ankiOptions this
   = (this, Some (Js.Error "Invalid card format index"))) /\
  (forall cardFormat,
     _cleaned this = false ->
     Js.item ankiOptions (_cardFormatIndex this) = Some cardFormat ->
     exists this',
       prepare stringContainsAnyFieldMarker getRequiredPermissionsForAnkiFieldValue
         hasPermissions setPermissionsGranted ankiOptions this = (this', None) /\
       _cardFormat this' = Some cardFormat /\
       _cardFormatIndex this' = _cardFormatIndex this /\
       _cardMenu this' = _cardMenu this /\
       _fields (fieldset this') = fields cardFormat /\
       settings_fields (fieldset this') = settings_fields (fieldset this) /\
       List.length (_fieldEntries (fieldset this')) = List.length (fields cardFormat) /\
       forall k,
         nth_error (_fieldEntries (fieldset this')) k =
         option_map (fun entry => row (Z.of_nat k) (fst entry) (snd entry))
                    (nth_error (fields cardFormat) k)).
Proof.
  split; [|split].
  - intros Hc. unfold prepare. rewrite Hc. reflexivity.
  - intros Hc Hi. unfold prepare, AnkiCardControllerEvents._getCardFormat.
    rewrite Hc, Hi. reflexivity.
  - intros cardFormat Hc Hi. unfold prepare, AnkiCardControllerEvents._getCardFormat.
    rewrite Hc, Hi. eexists. split; [reflexivity|].
    cbn [_cardFormat _cardFormatIndex _cardMenu fieldset with_fieldset with_fields
         _fields settings_fields _setupFields _fieldEntries].
    repeat (split; [reflexivity|]). split.
    + rewrite <- (List.length_map fieldName).
      rewrite (AnkiCardControllerTheory._setupFields_loop_names
                 stringContainsAnyFieldMarker getRequiredPermissionsForAnkiFieldValue
                 hasPermissions setPermissionsGranted).
      unfold Js.keys. apply List.length_map.
    + intros k. rewrite _setupFields_loop_nth. reflexivity.
Qed.

End Rows.

Lemma prepare_renders_the_format_witness :
  exists this',
    prepare sample_contains_marker sample_permissions sample_granted sample_request
      [sample_card_format] sample_fresh = (this', None) /\
    _fields (fieldset this') = sample_fields.
Proof.
  destruct (proj2 (proj2 (prepare_renders_the_format
                            sample_contains_marker sample_permissions sample_granted
                            sample_request [sample_card_format] sample_fresh))
              sample_card_format eq_refl eq_refl)
    as (this' & H1 & _ & _ & _ & H5 & _).
  exists this'. split; [exact H1|exact H5].
Defined.

(** *** A change of the permissions *)

Lemma split_free separator s :
  free_of separator s = true -> split separator s = [s].
Proof.
  induction s as [|c s IH]; cbn [free_of split]; [reflexivity|].
  destruct (Ascii.eqb c separator); cbn [negb andb]; [discriminate|].
  intros H. rewrite (IH H). reflexivity.
Qed.

Lemma split_app separator s rest :
  free_of separator s = true ->
  split separator (s ++ String separator rest) = s :: split separator rest.
Proof.
  induction s as [|c s IH]; cbn [free_of split append].
  - intros _. rewrite Ascii.eqb_refl. reflexivity.
  - destruct (Ascii.eqb c separator); cbn [negb andb]; [discriminate|].
    intros H. rewrite (IH H). reflexivity.
Qed.

(** [permissions.join(' ').split(' ')] gives the names back when no name has
    a space in it. *)
Lemma split_concat (permissions : list string) :
  permissions <> [] ->
  Forall (fun p => free_of " " p = true) permissions ->
  split " " (String.concat " " permissions) = permissions.
Proof.
  induction permissions as [|p ps IH]; intros Hne Hall; [congruence|].
  inversion Hall as [|? ? Hp Hps]; subst.
  destruct ps as [|q ps].
  - cbn [String.concat]. apply split_free. exact Hp.
  - change (String.concat " " (p :: q :: ps))
      with (p ++ String " " (String.concat " " (q :: ps)))%string.
    rewrite split_app by exact Hp. rewrite IH; [reflexivity|discriminate|exact Hps].
Qed.

Lemma concat_nonempty (permissions : list string) :
  permissions <> [] ->
  Forall (fun p => p <> EmptyString) permissions ->
  String.concat " " permissions <> EmptyString.
Proof.
  destruct permissions as [|p ps]; intros Hne Hall; [congruence|].
  inversion Hall as [|? ? Hp Hps]; subst.
  destruct ps as [|q ps]; cbn [String.concat]; [exact Hp|].
  destruct p; [congruence|discriminate].
Qed.

Section Permissions.

Variable stringContainsAnyFieldMarker : string -> bool.
Variable getRequiredPermissionsForAnkiFieldValue : string -> list string.
Variable hasPermissions : list string -> bool.
Variable setPermissionsGranted : list string -> bool.

(** The names of the permissions are not empty and have no space in them. *)
Hypothesis names :
  forall fieldValue,
    Forall (fun p => p <> EmptyString /\ free_of " " p = true)
           (getRequiredPermissionsForAnkiFieldValue fieldValue).

Lemma _onPermissionsChanged_loop_fresh permissions entries : forall index,
  _onPermissionsChanged_loop stringContainsAnyFieldMarker permissions index
    (_setupFields_loop stringContainsAnyFieldMarker getRequiredPermissionsForAnkiFieldValue
       hasPermissions setPermissionsGranted entries index) =
  _setupFields_loop stringContainsAnyFieldMarker getRequiredPermissionsForAnkiFieldValue
    (forallb (fun permission => existsb (String.eqb permission) permissions))
    setPermissionsGranted entries index.
Proof.
  induction entries as [|(key, field) more IH]; intros index; [reflexivity|].
  rewrite !_setupFields_loop_row. cbn [_onPermissionsChanged_loop]. rewrite IH. f_equal.
  cbv zeta. unfold _onPermissionsChanged_row. cbn [inputField dataset_requiredPermission].
  pose proof (names (value field)) as Hn.
  destruct (getRequiredPermissionsForAnkiFieldValue (value field)) as [|p ps] eqn:Ep;
    [reflexivity|].
  assert (Hne : String.concat " " (p :: ps) <> EmptyString).
  { apply concat_nonempty; [discriminate|]. eapply Forall_impl; [|exact Hn].
    intros a Ha. apply Ha. }
  assert (Hsplit : split " " (String.concat " " (p :: ps)) = p :: ps).
  { apply split_concat; [discriminate|]. eapply Forall_impl; [|exact Hn].
    intros a Ha. apply Ha. }
  cbv beta iota. rewrite (proj2 (String.eqb_neq _ _) Hne), Hsplit.
  cbn [fieldName]. f_equal. unfold _validateField.
  cbn [input_value dataset_requiredPermission dataset_hasPermissions dataset_invalid
       is_string].
  destruct (forallb (fun permission => existsb (String.eqb permission) permissions) (p :: ps));
    destruct (index =? 0); destruct (stringContainsAnyFieldMarker (value field));
    reflexivity.
Qed.

(** X12.  When the browser reports the permissions it now holds, the rows
    become what [_setupFields] builds when the permission check answers
    that a list of permissions is held exactly when each of its names is
    among the reported ones: the recorded answer and the invalid flag of
    every row follow the reported permissions, and the rows whose value
    requires no permission are as they were.  The object and the settings
    store are not written.  This supposes that the names of permissions are
    not empty and have no space in them, since the row keeps them joined by
    spaces. *)
Theorem permissions_change_updates_rows permissions this :
  _onPermissionsChanged stringContainsAnyFieldMarker permissions
    (_setupFields stringContainsAnyFieldMarker getRequiredPermissionsForAnkiFieldValue
       hasPermissions setPermissionsGranted this) =
  _setupFields stringContainsAnyFieldMarker getRequiredPermissionsForAnkiFieldValue
    (forallb (fun permission => existsb (String.eqb permission) permissions))
    setPermissionsGranted this.
Proof.
  unfold _onPermissionsChanged, _setupFields. cbn [settings_fields _fields _fieldEntries].
  rewrite _onPermissionsChanged_loop_fresh. reflexivity.
Qed.

End Permissions.

Lemma permissions_change_updates_rows_witness :
  List.map (fun entry => dataset_invalid (inputField entry))
    (_fieldEntries
       (_onPermissionsChanged sample_contains_marker ["clipboardRead"%string]
          (sample_editor
             [("Front"%string,
               {| value := "{clipboard-text}"%string; overwriteMode := "coalesce"%string |})])))
  = [Some "false"%string].
Proof.
  unfold sample_editor.
  rewrite (permissions_change_updates_rows sample_contains_marker sample_permissions
             sample_granted sample_request).
  - reflexivity.
  - intros fieldValue. unfold sample_permissions.
    destruct (String.eqb fieldValue "{clipboard-text}").
    + constructor; [split; [discriminate|reflexivity]|constructor].
    + constructor.
Defined.

(** *** Cleaning up *)


(** *** Staleness *)

Lemma option_string_eqb (a b : option string) :
  match a, b with
  | Some x, Some y => String.eqb x y
  | None, None => true
  | _, _ => false
  end = true <-> a = b.
Proof.
  destruct a as [x|]; destruct b as [y|]; try (split; [discriminate|congruence]).
  - rewrite String.eqb_eq. split; congruence.
  - split; reflexivity.
Qed.

(** X15.  An editor is made for a node and remembers the index and the menu
    the node carried then; it is not stale against that node.  Once the
    format-list controller has selected a format on the node, the editor is
    stale exactly when the index selected is not the index it remembers or
    the menu given is not the menu it remembers; this holds also when the
    selection throws for a missing control.  A node without an index gets
    no editor: the constructor throws. *)
Theorem selecting_makes_editors_stale node stored cardFormatIndex ankiCardMenu controller :
  AnkiController._ankiCardPrimary controller = Some node ->
  match constructor node stored with
  | inr e =>
      AnkiController.dataset_cardFormatIndex node = None /\
      e = Js.Error "Undefined anki card type in node dataset"
  | inl editor =>
      isStale node editor = false /\
      exists node',
        AnkiController._ankiCardPrimary
          (AnkiController.final
             (AnkiController._setCardFormatIndex cardFormatIndex ankiCardMenu controller))
          = Some node' /\
        (isStale node' editor = false <->
         AnkiController.dataset_cardFormatIndex node = Some cardFormatIndex /\
         AnkiController.dataset_ankiCardMenu node = ankiCardMenu)
  end.
Proof.
  intros Hp. unfold constructor.
  destruct (AnkiController.dataset_cardFormatIndex node) as [i|] eqn:Hi;
    [|split; reflexivity].
  split.
  - unfold isStale. rewrite Hi. cbn [_cardFormatIndex _cardMenu]. rewrite Z.eqb_refl.
    rewrite (proj2 (option_string_eqb _ _) eq_refl). reflexivity.
  - destruct (AnkiControllerEventsTheory._setCardFormatIndex_dataset
                cardFormatIndex ankiCardMenu controller node Hp)
      as (node' & Hp' & D1 & D2).
    exists node'. split; [exact Hp'|].
    unfold isStale. rewrite D1, D2. cbn [_cardFormatIndex _cardMenu].
    rewrite orb_false_iff, !negb_false_iff, Z.eqb_eq, option_string_eqb.
    split; intros (H1 & H2); split; congruence.
Qed.

Lemma selecting_makes_editors_stale_witness :
  exists node',
    AnkiController._ankiCardPrimary
      (AnkiController.final
         (AnkiController._setCardFormatIndex 1 (Some "anki-card-term-field-menu"%string)
            (AnkiController.with_ankiCardPrimary (Some sample_node)
               (AnkiController.sample_controller
                  [AnkiController.sample_format "A"; AnkiController.sample_format "B"] 0))))
      = Some node' /\
    isStale node' sample_fresh = true.
Proof.
  destruct (selecting_makes_editors_stale sample_node sample_fields 1
              (Some "anki-card-term-field-menu"%string)
              (AnkiController.with_ankiCardPrimary (Some sample_node)
                 (AnkiController.sample_controller
                    [AnkiController.sample_format "A"; AnkiController.sample_format "B"] 0))
              eq_refl)
    as (_ & node' & H1 & H2).
  exists node'. split; [exact H1|].
  destruct (isStale node' sample_fresh) eqn:E; [reflexivity|].
  destruct (proj1 H2 E) as (H & _). vm_compute in H. discriminate H.
Defined.

(** *** The menu of a field *)

Lemma strip_last_app body c :
  strip_last (body ++ String c EmptyString) = Some (body, c).
Proof.
  induction body as [|a body IH]; [reflexivity|].
  cbn [append strip_last]. rewrite IH. reflexivity.
Qed.

Lemma strip_last_inv s : forall body c,
  strip_last s = Some (body, c) -> s = (body ++ String c EmptyString)%string.
Proof.
  induction s as [|a s IH]; intros body c; cbn [strip_last]; [discriminate|].
  destruct (strip_last s) as [(body', c')|] eqn:E.
  - intros H. injection H as <- <-. cbn [append]. f_equal. apply IH. reflexivity.
  - intros H. injection H as <- <-. destruct s; [reflexivity|].
    cbn [strip_last] in E. destruct (strip_last s) as [(b, l)|]; discriminate.
Qed.

Lemma exec_braces_marker marker :
  marker <> EmptyString -> exec_braces ("{" ++ marker ++ "}") = Some marker.
Proof.
  intros Hne. unfold exec_braces. cbn [append]. rewrite strip_last_app.
  destruct marker; [congruence|reflexivity].
Qed.

Lemma exec_braces_inv s marker :
  exec_braces s = Some marker ->
  s = ("{" ++ marker ++ "}")%string /\ marker <> EmptyString.
Proof.
  unfold exec_braces. destruct s as [|a s]; [discriminate|].
  destruct (Ascii.eqb_spec a "{") as [->|Hne].
  - destruct (strip_last s) as [(body, c)|] eqn:E; [|discriminate].
    destruct body as [|b body]; [discriminate|].
    destruct (Ascii.eqb_spec c "}") as [->|Hc].
    + intros H. injection H as <-. split; [|discriminate].
      cbn [append]. f_equal. exact (strip_last_inv _ _ _ E).
    + intros H. exfalso. apply Hc. clear Hc E.
      destruct c as [[] [] [] [] [] [] [] []]; try discriminate H. reflexivity.
  - intros H. exfalso. apply Hne. clear Hne.
    destruct a as [[] [] [] [] [] [] [] []]; try discriminate H. reflexivity.
Qed.

(** X16.  Opening the menu of a field, on a button that carries the name of
    its field.  On an editor that holds no format the handler throws.
    Otherwise the marker it looks up in the menu, to make it bold, is
    [marker] exactly when [marker] is not empty and the default value for
    the name and the row, computed without regard to the fields there are,
    is [marker] in braces; a button without an index counts as the first
    row.  On the first row that marker is [character] for a kanji format and
    [expression] for a term format, whatever the name of the field. *)
Theorem menu_open_looks_up_default getStandardFieldMarkers index fieldName this :
  (_cardFormat this = None ->
   _onFieldMenuOpen getStandardFieldMarkers index (Some fieldName) this
   = Some (inr (Js.Error "Card format not initialized"))) /\
  (forall cardFormat marker,
     _cardFormat this = Some cardFormat ->
     (_onFieldMenuOpen getStandardFieldMarkers index (Some fieldName) this
      = Some (inl (Some marker)) <->
      marker <> EmptyString /\
      _getDefaultFieldValue getStandardFieldMarkers fieldName
        (match index with Some i => i | None => 0 end) (type cardFormat) None
      = Some ("{" ++ marker ++ "}")%string)) /\
  (forall cardFormat,
     _cardFormat this = Some cardFormat ->
     index = None \/ index = Some 0 ->
     _onFieldMenuOpen getStandardFieldMarkers index (Some fieldName) this
     = Some (inl (Some (match type cardFormat with
                        | kanji => "character"
                        | term => "expression"
                        end)%string))).
Proof.
  split; [|split].
  - intros Hc. unfold _onFieldMenuOpen, cardFormatType. rewrite Hc. reflexivity.
  - intros cardFormat marker Hc. unfold _onFieldMenuOpen, cardFormatType. rewrite Hc.
    destruct (_getDefaultFieldValue getStandardFieldMarkers fieldName
                (match index with Some i => i | None => 0 end) (type cardFormat) None)
      as [defaultValue|].
    + destruct (String.eqb_spec defaultValue "") as [->|Hne].
      * split; [discriminate|]. intros (_ & H). discriminate H.
      * split.
        -- intros H. injection H as H. apply exec_braces_inv in H.
           destruct H as (-> & Hm). split; [exact Hm|reflexivity].
        -- intros (Hm & H). injection H as ->. do 2 f_equal.
           exact (exec_braces_marker marker Hm).
    + split; [discriminate|]. intros (_ & H). discriminate H.
  - intros cardFormat Hc Hi. unfold _onFieldMenuOpen, cardFormatType. rewrite Hc.
    destruct Hi as [->| ->]; unfold _getDefaultFieldValue; cbn [Z.eqb];
      destruct (type cardFormat); reflexivity.
Qed.

Lemma menu_open_looks_up_default_witness :
  _onFieldMenuOpen sample_markers (Some 1) (Some "Meaning"%string)
    {| _cardFormat := Some sample_card_format; _cardFormatIndex := 0;
       _cardMenu := None; _cleaned := false;
       fieldset := sample_editor sample_fields |}
  = Some (inl (Some "glossary"%string)).
Proof.
  apply (proj1 (proj2 (menu_open_looks_up_default sample_markers (Some 1) "Meaning"
                         {| _cardFormat := Some sample_card_format; _cardFormatIndex := 0;
                            _cardMenu := None; _cleaned := false;
                            fieldset := sample_editor sample_fields |}))
           sample_card_format "glossary"%string eq_refl).
  split; [discriminate|vm_compute; reflexivity].
Defined.

End AnkiCardControllerEventsTheory.

(** * Properties of the field-set editor when handlers overlap *)
Module AnkiCardControllerAsyncTheory.
Import Settings AnkiCardController AnkiCardControllerEvents AnkiCardControllerAsync.

Section Overlap.

Variable stringContainsAnyFieldMarker : string -> bool.
Variable getRequiredPermissionsForAnkiFieldValue : string -> list string.
Variable hasPermissions : list string -> bool.
Variable setPermissionsGranted : list string -> bool.

Local Abbreviation step' :=
  (step stringContainsAnyFieldMarker getRequiredPermissionsForAnkiFieldValue
     hasPermissions setPermissionsGranted).
Local Abbreviation exec' :=
  (exec stringContainsAnyFieldMarker getRequiredPermissionsForAnkiFieldValue
     hasPermissions setPermissionsGranted).

(** An add click always finds a name, and the object it sends is well
    formed. *)
Lemma _onAddFieldClick_begin_sends this :
  Js.well_formed (_fields this) ->
  exists newFields,
    _onAddFieldClick_begin this = Some newFields /\ Js.well_formed newFields.
Proof.
  intros Hwf.
  destruct (AnkiCardControllerTheory._onAddFieldClick_first stringContainsAnyFieldMarker
              getRequiredPermissionsForAnkiFieldValue hasPermissions setPermissionsGranted
              this Hwf)
    as (k & this' & _ & Hrun & _ & _ & _ & _ & Hwf' & _).
  unfold _onAddFieldClick in Hrun. unfold _onAddFieldClick_begin.
  destruct (unused_name (_fields this) (List.length (_fields this)) "Field" 0) as [name|];
    [|discriminate Hrun].
  injection Hrun as <-. eexists. split; [reflexivity|exact Hwf'].
Qed.

(** A blur on rows that show the object never meets a row whose field the
    object lacks, and the object it sends, if any, is well formed. *)
Lemma _onFieldNameBlur_begin_sends index node_value this :
  Js.well_formed (_fields this) -> rendered this ->
  exists sending text,
    _onFieldNameBlur_begin index node_value this = Some (sending, text) /\
    forall newFields, sending = Some newFields -> Js.well_formed newFields.
Proof.
  intros Hwf Hr. unfold _onFieldNameBlur_begin.
  destruct (Js.item (_fieldEntries this) index) as [entry|] eqn:Hi;
    [|eexists; eexists; split; [reflexivity|discriminate]].
  destruct (String.eqb_spec (Js.trim node_value) (fieldName entry)) as [E|Hne];
    [eexists; eexists; split; [reflexivity|discriminate]|].
  destruct (String.eqb (Js.trim node_value) "");
    [eexists; eexists; split; [reflexivity|discriminate]|].
  destruct (Js.hasOwnProperty (_fields this) (Js.trim node_value)) eqn:Hown;
    [eexists; eexists; split; [reflexivity|discriminate]|].
  apply JsTheory.hasOwnProperty_false in Hown.
  pose proof (AnkiCardControllerTheory.entry_is_key this index entry Hr Hi) as Hin.
  destruct (JsTheory.get_Some_In _ _ Hin) as (removed & Hget). rewrite Hget.
  destruct (AnkiCardControllerTheory.rename_object stringContainsAnyFieldMarker
              getRequiredPermissionsForAnkiFieldValue hasPermissions setPermissionsGranted
              (_fields this) (fieldName entry)
              (Js.trim node_value) removed Hwf Hget Hne Hown)
    as (R1 & _).
  eexists. eexists. split; [reflexivity|].
  intros newFields H. injection H as <-. exact R1.
Qed.

Lemma _onPermissionsChanged_names permissions entries : forall index,
  List.map fieldName
    (_onPermissionsChanged_loop stringContainsAnyFieldMarker permissions index entries)
  = List.map fieldName entries.
Proof.
  induction entries as [|entry more IH]; intros index; [reflexivity|].
  cbn [_onPermissionsChanged_loop List.map]. rewrite IH. f_equal.
  unfold _onPermissionsChanged_row.
  destruct (dataset_requiredPermission (inputField entry)); reflexivity.
Qed.

Lemma Forall_assign {A : Type} (P : A -> Prop) (l : list A) x : forall k,
  Forall P l -> P x -> Forall P (AnkiControllerEvents.assign l k x).
Proof.
  induction l as [|a l IH]; intros k Hl Hx; [destruct k; constructor|].
  inversion Hl; subst. destruct k as [|k]; cbn [AnkiControllerEvents.assign];
    constructor; auto.
Qed.

Lemma Forall_remove_at {A : Type} (P : A -> Prop) (l : list A) : forall k,
  Forall P l -> Forall P (AnkiControllerAsync.remove_at k l).
Proof.
  induction l as [|a l IH]; intros k Hl; [destruct k; constructor|].
  inversion Hl; subst. destruct k as [|k]; cbn [AnkiControllerAsync.remove_at];
    [assumption|constructor; auto].
Qed.

Lemma Forall_nth {A : Type} (P : A -> Prop) (l : list A) k x :
  Forall P l -> nth_error l k = Some x -> P x.
Proof.
  intros Hl Hk. apply nth_error_In in Hk. rewrite Forall_forall in Hl. auto.
Qed.

Lemma step_sound s page :
  sound page -> exists page', step' s page = Some page' /\ sound page'.
Proof.
  intros (Hwf & Hr & Hst & Hp). destruct s as [[|index node_value|permissions]|k|k];
    cbn [step].
  - destruct (_onAddFieldClick_begin_sends (editor page) Hwf) as (newFields & E & Hn).
    rewrite E. eexists. split; [reflexivity|].
    repeat split; try assumption. cbn [pending]. apply Forall_app. split; [exact Hp|].
    constructor; [exact Hn|constructor].
  - destruct (_onFieldNameBlur_begin_sends index node_value (editor page) Hwf Hr)
      as (sending & text & E & Hn).
    rewrite E. destruct sending as [newFields|].
    + eexists. split; [reflexivity|].
      repeat split; try assumption. cbn [pending]. apply Forall_app. split; [exact Hp|].
      constructor; [exact (Hn newFields eq_refl)|constructor].
    + eexists. split; [reflexivity|]. repeat split; assumption.
  - eexists. split; [reflexivity|].
    split; [exact Hwf|]. split; [|split; assumption].
    unfold rendered, _onPermissionsChanged. cbn [editor _fieldEntries _fields].
    rewrite _onPermissionsChanged_names. exact Hr.
  - destruct (nth_error (pending page) k) as [[newFields|newFields]|] eqn:Hk;
      try (eexists; split; [reflexivity|repeat split; assumption]).
    eexists. split; [reflexivity|].
    pose proof (Forall_nth _ _ _ _ Hp Hk) as Hn. cbn [sent] in Hn.
    split; [exact Hwf|]. split; [exact Hr|]. split; [exact Hn|].
    cbn [pending]. apply Forall_assign; assumption.
  - destruct (nth_error (pending page) k) as [[newFields|newFields]|] eqn:Hk;
      try (eexists; split; [reflexivity|repeat split; assumption]).
    eexists. split; [reflexivity|].
    pose proof (Forall_nth _ _ _ _ Hp Hk) as Hn. cbn [sent] in Hn.
    split; [exact Hn|]. split; [apply AnkiCardControllerTheory._setupFields_rendered|].
    split; [exact Hst|]. cbn [pending]. apply Forall_remove_at. exact Hp.
Qed.

(** X13.  An editor whose object is well formed, is in the settings store
    and is shown by the rows, with no call in flight.  However add-field
    clicks, blurs of name inputs (any row index, any text), changes of the
    permissions, the backend storing an object and the continuations of the
    calls follow each other, handlers overlapping or not: every handler goes
    through, a blur never meets a row whose field the object lacks; the
    object the editor holds is always a well-formed object and the rows
    always show exactly its fields in its order; and the object in the
    settings store is always well formed.  Nothing is said here about which
    of two overlapping handlers wins. *)
Theorem editor_stays_sound steps this :
  settled this ->
  exists page,
    exec' steps (start this) = Some page /\
    Js.well_formed (_fields (editor page)) /\
    List.map fieldName (_fieldEntries (editor page)) = Js.keys (_fields (editor page)) /\
    Js.well_formed (settings_fields (editor page)).
Proof.
  intros (Hwf & Hs & Hr).
  assert (H0 : sound (start this)).
  { split; [exact Hwf|]. split; [exact Hr|]. split; [cbn; rewrite Hs; exact Hwf|constructor]. }
  generalize (start this) H0. clear.
  induction steps as [|s more IH]; intros page H; cbn [exec].
  - exists page. destruct H as (H1 & H2 & H3 & _). repeat split; assumption.
  - destruct (step_sound s page H) as (page' & E & H'). rewrite E. apply IH. exact H'.
Qed.

End Overlap.

Lemma editor_stays_sound_witness :
  exists page,
    exec sample_contains_marker sample_permissions sample_granted sample_request
      [User AddFieldClick; User (FieldNameBlur 0 " Word "); Backend 1; Backend 0;
       User (PermissionsChanged []); Resume 1; User AddFieldClick; Resume 0]
      (start (sample_editor sample_fields)) = Some page /\
    Js.well_formed (_fields (editor page)).
Proof.
  destruct (editor_stays_sound sample_contains_marker sample_permissions sample_granted
              sample_request
              [User AddFieldClick; User (FieldNameBlur 0 " Word "); Backend 1; Backend 0;
               User (PermissionsChanged []); Resume 1; User AddFieldClick; Resume 0]
              (sample_editor sample_fields))
    as (page & H1 & H2 & _).
  - split; [reflexivity|]. split; reflexivity.
  - exists page. split; [exact H1|exact H2].
Defined.

(** Two add-field clicks, the second before the first has gone past its
    [await], both pick the name [Field]: one field is added, not two. *)
Remark overlapping_add_clicks_add_one_field :
  option_map (fun page => Js.keys (_fields (editor page)))
    (exec sample_contains_marker sample_permissions sample_granted sample_request
       [User AddFieldClick; User AddFieldClick; Backend 0; Backend 1; Resume 0; Resume 0]
       (start (sample_editor sample_fields)))
  = Some ["Front"; "Back"; "Field"]%string.
Proof. vm_compute. reflexivity. Qed.

End AnkiCardControllerAsyncTheory.

